(** * data_processing.py: summary acquisition for a book catalog

    A shallow embedding of the summary-acquisition core of
    [src/data_processing.py]: [fetch_by_isbn], [fetch_book_summary] and
    [process_book_summaries], together with the helpers they inline
    (description normalisation, match scoring, cache merge).

    Conventions.
    - A Python [str] is a [string]; one [ascii] stands for one character.
    - A Python [int] is a [Z]; a Python [float] is a primitive binary64
      [float], so [0.7 * title_score + 0.3 * author_score] rounds exactly
      as it does in CPython.
    - [None] and NaN are the [None] of an [option].
    - The network, [time.sleep], [log] and the cache file are effects on an
      explicit [world]; a raised Python exception is the [Raise] of a
      [result]. *)

From Stdlib Require Import ZArith List String Ascii Bool Lia Permutation Sorted.
From Stdlib Require Import Floats.PrimFloat Numbers.Cyclic.Int63.Uint63.
From Stdlib Require Floats.FloatAxioms Floats.SpecFloat Floats.FloatOps.
Import ListNotations.

Set Warnings "-inexact-float".

Local Open Scope string_scope.
Local Open Scope list_scope.
Local Open Scope Z_scope.

(** ** Configuration (lines 19-23) *)

Definition MAX_SUMMARIES : Z := 1000.
Definition TIMEOUT : Z := 20.
Definition RETRY_COUNT : nat := 3.
Definition RATE_LIMIT_RETRY : Z := 60.

(** The literal [2000] of [description[:2000]] (lines 164 and 239). *)
Definition DESCRIPTION_LIMIT : nat := 2000.

(** ** Python strings *)

Module Str.

(** Truth value of a [str]: the empty string is false. *)
Definition truthy (s : string) : bool :=
  match s with
  | EmptyString => false
  | String _ _ => true
  end.

(** The slice [s[:n]]. *)
Fixpoint take (n : nat) (s : string) : string :=
  match n, s with
  | S n', String c r => String c (take n' r)
  | _, _ => EmptyString
  end.

(** [sep.join(parts)]. *)
Fixpoint join (sep : string) (parts : list string) : string :=
  match parts with
  | [] => EmptyString
  | [p] => p
  | p :: rest => (p ++ sep ++ join sep rest)%string
  end.

(** White space as [str.strip()] sees it, on the code points below 256:
    tab, line feed, vertical tab, form feed, carriage return, the four
    separators 28-31, the space, the next-line control U+0085 and the
    no-break space U+00A0. *)
Definition is_space (c : ascii) : bool :=
  let n := nat_of_ascii c in
  ((9 <=? n)%nat && (n <=? 13)%nat) || ((28 <=? n)%nat && (n <=? 32)%nat) ||
  (n =? 133)%nat || (n =? 160)%nat.

Fixpoint lstrip (s : string) : string :=
  match s with
  | EmptyString => EmptyString
  | String c r => if is_space c then lstrip r else s
  end.

(** [rstrip]: a character is kept when it is not white space or when
    something is kept after it. *)
Fixpoint rstrip (s : string) : string :=
  match s with
  | EmptyString => EmptyString
  | String c r =>
      match rstrip r with
      | EmptyString => if is_space c then EmptyString else String c EmptyString
      | r' => String c r'
      end
  end.

Definition strip (s : string) : string := rstrip (lstrip s).

(** [s.split(',')[0]]: what stands before the first comma. *)
Fixpoint before_comma (s : string) : string :=
  match s with
  | EmptyString => EmptyString
  | String c r =>
      if Ascii.eqb c ","%char then EmptyString else String c (before_comma r)
  end.

End Str.

(** Truth value of an optional string: [None], NaN-as-absent and [''] are
    false. *)
Definition opt_truthy (o : option string) : bool :=
  match o with
  | Some s => Str.truthy s
  | None => false
  end.

(** ** The remote API's JSON (spec section 6, lines 155-162 and 216-236) *)

(** The [description] field: absent, a string, an object that may hold a
    [value] string, or a list of strings. *)
Inductive description : Type :=
| DescAbsent
| DescStr (s : string)
| DescDict (value : option string)
| DescList (parts : list string).

(** One element of [data['docs']]: every key is optional. *)
Record doc : Type := mkDoc {
  doc_title : option string;
  doc_author_name : option (list string);
  doc_description : description
}.

(** The body of a search reply; [docs] is [None] when the key is missing. *)
Record search_body : Type := mkBody {
  numFound : option Z;
  docs : option (list doc)
}.

(** Lines 156-162 and 231-236: [data.get('description', '')] followed by
    the [isinstance] cascade. *)
Definition normalize_description (d : description) : string :=
  match d with
  | DescAbsent => ""
  | DescStr s => s
  | DescDict (Some s) => s
  | DescDict None => ""
  | DescList parts => Str.join " " parts
  end.

(** Line 164: [description[:2000] if description else None]. *)
Definition truncate_description (s : string) : option string :=
  if Str.truthy s then Some (Str.take DESCRIPTION_LIMIT s) else None.

(** Truth value of a [doc] dictionary: false only when it has no key. *)
Definition doc_truthy (d : doc) : bool :=
  match doc_title d, doc_author_name d, doc_description d with
  | None, None, DescAbsent => false
  | _, _, _ => true
  end.

(** ** Floats *)

(** The conversion of a Python [int] operand to [float] before [*]. *)
Definition float_of_Z (z : Z) : float :=
  if z <? 0 then PrimFloat.opp (PrimFloat.of_uint63 (Uint63.of_Z (- z)))
  else PrimFloat.of_uint63 (Uint63.of_Z z).

(** ** Exceptions *)

(** The [requests.exceptions.RequestException] family: everything that
    [requests.get] and [raise_for_status] raise.  [ConnectionError] stands
    for every member that is neither a [Timeout] nor an [HTTPError]. *)
Inductive request_exception : Type :=
| Timeout
| ConnectionError
| HTTPError (status_code : Z).

(** The exceptions the modelled code can meet. *)
Inductive exn : Type :=
| RequestException (e : request_exception)
| KeyError (key : string)
| FileNotFoundError
| RecursionError.

Inductive result (A : Type) : Type :=
| Ok (a : A)
| Raise (e : exn).
Arguments Ok {A} a.
Arguments Raise {A} e.

(** What [requests.get] does with one request: it raises, or it returns a
    response with a status code and a JSON body. *)
Inductive reply (B : Type) : Type :=
| Raised (e : request_exception)
| Reply (status_code : Z) (body : B).
Arguments Raised {B} e.
Arguments Reply {B} status_code body.

(** ** Catalog rows and cache entries (lines 260 and 289-296) *)

Inductive source : Type := isbn_search | title_search | not_found.

Record book : Type := mkBook {
  book_id : Z;
  title : string;
  authors : string;
  isbn : option string
}.

Record entry : Type := mkEntry {
  entry_book_id : Z;
  entry_title : string;
  entry_authors : string;
  entry_isbn : option string;
  summary : string;
  entry_source : source
}.

(** A cell of a frame that [pd.read_csv] returned: NaN, or a value,
    given by the text [str] shows for it; a number and a text of the same
    digits are not told apart. *)
Inductive cell : Type :=
| NaN
| Value (text : string).

(** A row of the cache frame as [pd.read_csv] returns it. *)
Record cache_row : Type := mkRow {
  row_book_id : Z;
  row_title : cell;
  row_authors : cell;
  row_isbn : cell;
  row_summary : cell;
  row_source : cell
}.

Definition source_label (src : source) : string :=
  match src with
  | isbn_search => "isbn_search"
  | title_search => "title_search"
  | not_found => "not_found"
  end.

(** A row of the frame in memory, cell by cell. *)
Definition row_of_entry (e : entry) : cache_row :=
  mkRow (entry_book_id e) (Value (entry_title e)) (Value (entry_authors e))
        (match entry_isbn e with Some i => Value i | None => NaN end)
        (Value (summary e)) (Value (source_label (entry_source e))).

(** ** The world *)

(** Messages passed to [log(..., "WARNING")]. *)
Inductive warning : Type :=
| RateLimitExceeded (seconds : Z)               (* lines 149 and 203 *)
| IsbnTimeout (isbn : string)                   (* line 168 *)
| IsbnError (isbn : string) (e : request_exception) (* line 170 *)
| TitleTimeout (title : string)                 (* line 244 *)
| TitleHTTP (title : string) (status_code : Z)  (* line 247 *)
| NoNewSummary.                                 (* line 307 *)

(** The [params] of the search request (lines 184-186). *)
Record search_params : Type := mkParams {
  param_title : string;
  param_author : option string
}.

Inductive event : Type :=
| GetIsbn (isbn : string)            (* requests.get(".../isbn/{isbn}.json") *)
| GetSearch (params : search_params) (* requests.get(base_url, params=params) *)
| Sleep (seconds : Z)                (* time.sleep(RATE_LIMIT_RETRY) *)
| Delay (factor : nat)               (* time.sleep(random.uniform(0.5, 1.5) * factor) *)
| Warn (w : warning).

(** [trace] lists the events in the order they happened; [cache_file] is
    the file at [cache_path], [None] when it does not exist, given by its
    frame: the frame line 257 loads from a file found at the start, the
    frame line 304 wrote afterwards.  A file found at the start is taken
    to give a text in every cell of [title], [authors], [summary] and
    [source]. *)
Record world : Type := mkWorld {
  isbn_sent : nat;
  search_sent : nat;
  trace : list event;
  cache_file : option (list entry)
}.

Definition initial_world (file : option (list entry)) : world :=
  mkWorld 0 0 [] file.

(** ** A state-and-exception monad for the effectful code *)

Definition M (A : Type) : Type := world -> result A * world.

Definition ret {A} (a : A) : M A := fun w => (Ok a, w).
Definition raise {A} (e : exn) : M A := fun w => (Raise e, w).

Definition bind {A B} (m : M A) (k : A -> M B) : M B :=
  fun w =>
    match m w with
    | (Ok a, w1) => k a w1
    | (Raise e, w1) => (Raise e, w1)
    end.

Notation "x <- m ;; k" := (bind m (fun x => k))
  (at level 61, m at next level, right associativity).
Notation "m ;;; k" := (bind m (fun _ => k))
  (at level 61, right associativity).

(** [try: body except requests.exceptions.RequestException as e: handler]:
    any other exception passes through. *)
Definition try_except_RequestException {A} (body : M A)
  (handler : request_exception -> M A) : M A :=
  fun w =>
    match body w with
    | (Ok a, w1) => (Ok a, w1)
    | (Raise (RequestException e), w1) => handler e w1
    | (Raise e, w1) => (Raise e, w1)
    end.

Definition emit (e : event) : M unit :=
  fun w => (Ok tt, mkWorld (isbn_sent w) (search_sent w) (trace w ++ [e])
                           (cache_file w)).

Definition log_warning (m : warning) : M unit := emit (Warn m).
Definition time_sleep (seconds : Z) : M unit := emit (Sleep seconds).

(** [response.raise_for_status()]: 4xx and 5xx raise [HTTPError]. *)
Definition error_status (status_code : Z) : bool :=
  (400 <=? status_code) && (status_code <? 600).
Arguments error_status : simpl never.

Definition raise_for_status (status_code : Z) : M unit :=
  if error_status status_code
  then raise (RequestException (HTTPError status_code))
  else ret tt.

(** [os.path.exists(cache_path)], [pd.read_csv(cache_path)] at line 257
    and [to_csv(cache_path)]. *)
Definition cache_exists : M bool :=
  fun w => (Ok (match cache_file w with Some _ => true | None => false end), w).

Definition read_cache : M (list entry) :=
  fun w =>
    match cache_file w with
    | Some rows => (Ok rows, w)
    | None => (Raise FileNotFoundError, w)
    end.

Definition write_cache (rows : list entry) : M unit :=
  fun w => (Ok tt, mkWorld (isbn_sent w) (search_sent w) (trace w) (Some rows)).


(** ** Test doubles

    Stand-ins for the library functions and for the remote service, used
    to run the definitions on concrete inputs. *)

Module Mock.

(** A similarity that knows only equal and different: a percentage, as
    [fuzz.ratio] is. *)
Definition ratio (a b : string) : Z := if String.eqb a b then 100 else 0.

Lemma ratio_is_percentage (a b : string) : 0 <= ratio a b <= 100.
Proof. unfold ratio. destruct (String.eqb a b); lia. Defined.

(** [str.lower] on the ASCII letters. *)
Definition lower_char (c : ascii) : ascii :=
  let n := nat_of_ascii c in
  if ((65 <=? n)%nat && (n <=? 90)%nat)%bool then ascii_of_nat (n + 32) else c.

Fixpoint lower (s : string) : string :=
  match s with
  | EmptyString => EmptyString
  | String c r => String (lower_char c) (lower r)
  end.

Lemma lower_char_idempotent (c : ascii) :
  lower_char (lower_char c) = lower_char c.
Proof.
  destruct c as [[] [] [] [] [] [] [] []]; vm_compute; reflexivity.
Qed.

Lemma lower_idempotent (s : string) : lower (lower s) = lower s.
Proof.
  induction s as [|c r IH]; simpl; [reflexivity |].
  now rewrite lower_char_idempotent, IH.
Qed.

Lemma lower_lstrip (s : string) : lower s = s -> lower (Str.lstrip s) = Str.lstrip s.
Proof.
  induction s as [|c r IH]; simpl; intros H; [reflexivity |].
  destruct (Str.is_space c); [| exact H].
  apply IH. now injection H.
Qed.

Lemma lower_rstrip (s : string) : lower s = s -> lower (Str.rstrip s) = Str.rstrip s.
Proof.
  induction s as [|c r IH]; simpl; intros H; [reflexivity |].
  injection H as Hc Hr. specialize (IH Hr).
  destruct (Str.rstrip r) as [|c' r'].
  - destruct (Str.is_space c); simpl; [reflexivity | now rewrite Hc].
  - change (lower (String c (String c' r')))
      with (String (lower_char c) (lower (String c' r'))).
    now rewrite Hc, IH.
Qed.

(** A lowered text stays lowered when it is stripped. *)
Lemma lower_strip (s : string) :
  lower (Str.strip (lower s)) = Str.strip (lower s).
Proof.
  unfold Str.strip. apply lower_rstrip, lower_lstrip, lower_idempotent.
Qed.

(** A sample that takes the first rows. *)
Definition sample (rows : list book) (n : nat) : list book := firstn n rows.

Lemma sample_draws (rows : list book) (n : nat) :
  (n <= List.length rows)%nat ->
  List.length (sample rows n) = n /\
  exists rest, Permutation (sample rows n ++ rest) rows.
Proof.
  intros H. unfold sample. split.
  - rewrite length_firstn. apply Nat.min_l. exact H.
  - exists (skipn n rows). rewrite firstn_skipn. apply Permutation_refl.
Defined.

(** A [read_csv] that types the cells of a written frame again: the
    spellings pandas reads as missing become NaN, and a number loses its
    leading zeros. *)
Definition na_values : list string :=
  [""; "#N/A"; "#N/A N/A"; "#NA"; "-1.#IND"; "-1.#QNAN"; "-NaN"; "-nan";
   "1.#IND"; "1.#QNAN"; "<NA>"; "N/A"; "NA"; "NULL"; "NaN"; "None"; "n/a";
   "nan"; "null"].

Definition read_text (s : string) : cell :=
  if existsb (String.eqb s) na_values then NaN else Value s.

Fixpoint drop_zeros (s : string) : string :=
  match s with
  | String c r =>
      if Ascii.eqb c "0" && negb (String.eqb r "") then drop_zeros r else s
  | EmptyString => s
  end.

Definition read_csv (rows : list entry) : list cache_row :=
  map (fun e =>
         mkRow (entry_book_id e) (read_text (entry_title e))
               (read_text (entry_authors e))
               (match entry_isbn e with
                | Some i => Value (drop_zeros i)
                | None => NaN
                end)
               (read_text (summary e))
               (Value (source_label (entry_source e))))
      rows.

Lemma read_csv_ids (rows : list entry) :
  map row_book_id (read_csv rows) = map entry_book_id rows.
Proof. unfold read_csv. rewrite map_map. reflexivity. Defined.

Definition dune : book :=
  mkBook 1 "Dune" "frank herbert" (Some "9780441172719").

Definition emma : book := mkBook 2 "Emma" "jane austen" None.

Definition dune_doc : doc :=
  mkDoc (Some "Dune") (Some ["Frank Herbert"]) (DescStr "A desert planet...").

(** A candidate with the right author and another title. *)
Definition other_doc : doc :=
  mkDoc (Some "Dune Messiah") (Some ["Frank Herbert"])
        (DescStr "Twelve years later...").

Definition found (ds : list doc) : reply search_body :=
  Reply 200 (mkBody (Some (Z.of_nat (List.length ds))) (Some ds)).

(** Cache entries: one cached for [book_id] 5, two from a later batch. *)
Definition cached_5 : entry :=
  mkEntry 5 "Emma" "jane austen" None "Emma Woodhouse..." isbn_search.

Definition fresh_5 : entry :=
  mkEntry 5 "Emma" "jane austen" None "Another text" title_search.

Definition fresh_6 : entry :=
  mkEntry 6 "Dune" "frank herbert" None "A desert planet..." title_search.

(** ISBN endpoints. *)
Definition isbn_online : nat -> reply description :=
  fun _ => Reply 200 (DescStr "A desert planet...").

Definition isbn_unknown : nat -> reply description :=
  fun _ => Reply 404 DescAbsent.

Definition isbn_limited_twice : nat -> reply description :=
  fun n =>
    match n with
    | 0%nat | 1%nat => Reply 429 DescAbsent
    | _ => Reply 200 (DescStr "A desert planet...")
    end.

Definition isbn_always_limited : nat -> reply description :=
  fun _ => Reply 429 DescAbsent.

(** Search endpoints. *)
Definition search_dune : nat -> reply search_body := fun _ => found [dune_doc].

Definition search_other : nat -> reply search_body :=
  fun _ => found [other_doc].

(** The right book with its description in two parts, and with a
    description object that has no [value]. *)
Definition parts_doc : doc :=
  mkDoc (Some "Dune") (Some ["Frank Herbert"])
        (DescList ["A desert"; "planet..."]).

Definition blank_doc : doc :=
  mkDoc (Some "Dune") (Some ["Frank Herbert"]) (DescDict None).

(** A timeout first, then the book. *)
Definition search_parts : nat -> reply search_body :=
  fun n =>
    match n with
    | 0%nat => Raised Timeout
    | _ => found [parts_doc]
    end.

Definition search_blank : nat -> reply search_body :=
  fun _ => found [blank_doc].

Definition search_down : nat -> reply search_body :=
  fun n =>
    match n with
    | 0%nat => Raised ConnectionError
    | 1%nat => Reply 503 (mkBody None None)
    | _ => Raised Timeout
    end.

(** Replies that are not scored: a 404, a 429 and a search without hits. *)
Definition search_mixed : nat -> reply search_body :=
  fun n =>
    match n with
    | 0%nat => Reply 404 (mkBody None None)
    | 1%nat => Reply 429 (mkBody None None)
    | _ => Reply 200 (mkBody (Some 0) (Some []))
    end.

(** A body that counts a hit and has no [docs]. *)
Definition search_nodocs : nat -> reply search_body :=
  fun _ => Reply 200 (mkBody (Some 1) None).

End Mock.

Section Acquisition.

(** [fuzz.ratio] of fuzzywuzzy and [str.lower]: library functions. *)
Variable ratio : string -> string -> Z.
Variable lower : string -> string.

(** The remote service: the reply to the n-th request sent to each of
    its two endpoints. *)
Variable isbn_api : nat -> reply description.
Variable search_api : nat -> reply search_body.

(** [DataFrame.sample(n)]: the rows drawn on this run, [n] of them, no
    row twice. *)
Variable sample : list book -> nat -> list book.
Hypothesis sample_without_replacement :
  forall rows n,
    (n <= List.length rows)%nat ->
    List.length (sample rows n) = n /\
    exists rest, Permutation (sample rows n ++ rest) rows.

(** [fuzz.ratio] returns a percentage. *)
Hypothesis ratio_range : forall a b, 0 <= ratio a b <= 100.

(** [pd.read_csv] on a file that [to_csv] wrote from a frame: the rows
    of the frame in their order, with the cells as [read_csv] types them
    again (a text of digits comes back as a number, a text such as
    ['N/A'] as NaN); the integer column [book_id] comes back as it was
    written. *)
Variable read_csv : list entry -> list cache_row.
Hypothesis read_csv_book_id :
  forall rows, map row_book_id (read_csv rows) = map entry_book_id rows.

(** ** Match scorer (lines 217-227) *)

(** [max(scores, default=0)]. *)
Definition max_default (default : Z) (scores : list Z) : Z :=
  match scores with
  | [] => default
  | x :: rest => fold_left Z.max rest x
  end.

(** Line 220. *)
Definition title_score (title : string) (d : doc) : Z :=
  let current_title := match doc_title d with Some t => t | None => "" end in
  ratio (lower title) (lower current_title).

(** Lines 221-222: the whole [author] argument is compared with each
    name of the candidate. *)
Definition author_score (author : option string) (d : doc) : Z :=
  let authors := match doc_author_name d with Some l => l | None => [] end in
  match author with
  | Some author =>
      if Str.truthy author
      then max_default 0 (map (fun a => ratio (lower author) (lower a)) authors)
      else 0
  | None => 0
  end.

(** Line 223. *)
Definition weighted (title_score author_score : Z) : float :=
  PrimFloat.add (PrimFloat.mul 0.7%float (float_of_Z title_score))
                (PrimFloat.mul 0.3%float (float_of_Z author_score)).

Definition combined_score (title : string) (author : option string) (d : doc)
  : float :=
  weighted (title_score title d) (author_score author d).

(** The pair [(best_score, best_match)] of lines 188-189; [best_score]
    starts as the integer [0], which compares as [0.0]. *)
Definition best : Type := (float * option doc)%type.
Definition no_match : best := (0%float, None).

(** Lines 225-227: one iteration of [for doc in data['docs']]. *)
Definition score_doc (title : string) (author : option string)
  (st : best) (d : doc) : best :=
  let c := combined_score title author d in
  if PrimFloat.ltb (fst st) c then (c, Some d) else st.

Definition score_docs (title : string) (author : option string)
  (ds : list doc) (st : best) : best :=
  fold_left (score_doc title author) ds st.

(** Line 230: [best_score >= 75 and best_match]. *)
Definition good_match (st : best) : bool :=
  PrimFloat.leb 75%float (fst st) &&
  match snd st with
  | Some d => doc_truthy d
  | None => false
  end.

(** Lines 231-239: what the attempt returns for an accepted match, if
    its description is not empty. *)
Definition accepted_description (st : best) : option string :=
  if good_match st then
    match snd st with
    | Some d => truncate_description (normalize_description (doc_description d))
    | None => None
    end
  else None.

(** ** Requests *)

Definition requests_get_isbn (isbn : string) : M (Z * description) :=
  fun w =>
    let w1 := mkWorld (S (isbn_sent w)) (search_sent w)
                      (trace w ++ [GetIsbn isbn]) (cache_file w) in
    match isbn_api (isbn_sent w) with
    | Raised e => (Raise (RequestException e), w1)
    | Reply status_code data => (Ok (status_code, data), w1)
    end.

Definition requests_get_search (params : search_params)
  : M (Z * search_body) :=
  fun w =>
    let w1 := mkWorld (isbn_sent w) (S (search_sent w))
                      (trace w ++ [GetSearch params]) (cache_file w) in
    match search_api (search_sent w) with
    | Raised e => (Raise (RequestException e), w1)
    | Reply status_code data => (Ok (status_code, data), w1)
    end.

(** ** [fetch_by_isbn] (lines 132-171)

    [depth] is the number of nested calls the interpreter still allows:
    the function calls itself on a 429, and a call beyond the recursion
    limit raises [RecursionError], which the handler does not catch. *)

(** Lines 166-171. *)
Definition isbn_handler (isbn : string) (e : request_exception)
  : M (option string) :=
  match e with
  | Timeout => log_warning (IsbnTimeout isbn)
  | HTTPError _ => ret tt
  | ConnectionError => log_warning (IsbnError isbn e)
  end ;;;
  ret None.

Fixpoint fetch_by_isbn (depth : nat) (isbn : option string)
  : M (option string) :=
  match isbn with
  | None => ret None
  | Some i =>
      if negb (Str.truthy i) then ret None
      else
        match depth with
        | O => raise RecursionError
        | S depth' =>
            try_except_RequestException
              (response <- requests_get_isbn i ;;
               let (status_code, description) := response in
               if status_code =? 404 then ret None
               else if status_code =? 429 then
                 log_warning (RateLimitExceeded RATE_LIMIT_RETRY) ;;;
                 time_sleep RATE_LIMIT_RETRY ;;;
                 fetch_by_isbn depth' isbn
               else
                 raise_for_status status_code ;;;
                 ret (truncate_description
                        (normalize_description description)))
              (isbn_handler i)
        end
  end.

(** ** [fetch_book_summary] (lines 174-250) *)

(** Lines 184-186. *)
Definition make_params (title : string) (author : option string)
  : search_params :=
  mkParams title
    (match author with
     | Some a =>
         if Str.truthy a then Some (Str.strip (Str.before_comma a)) else None
     | None => None
     end).

(** What one pass through the loop body leaves: a [return], or the next
    iteration with the updated [(best_score, best_match)]. *)
Inductive flow : Type :=
| Return (description : string)
| Continue (st : best).

(** Lines 242-248. *)
Definition search_handler (title : string) (attempt : nat) (st : best)
  (e : request_exception) : M flow :=
  (if Nat.eqb attempt (RETRY_COUNT - 1) then
     match e with
     | Timeout => log_warning (TitleTimeout title)
     | HTTPError status_code =>
         if negb (status_code =? 404)
         then log_warning (TitleHTTP title status_code)
         else ret tt
     | ConnectionError => ret tt
     end
   else ret tt) ;;;
  ret (Continue st).

(** Lines 211-239, after [raise_for_status]. *)
Definition score_reply (title : string) (author : option string)
  (data : search_body) (st : best) : M flow :=
  if (match numFound data with Some n => n | None => 0 end) =? 0
  then ret (Continue st)
  else
    match docs data with
    | None => raise (KeyError "docs")
    | Some ds =>
        let st' := score_docs title author ds st in
        match accepted_description st' with
        | Some description => ret (Return description)
        | None => ret (Continue st')
        end
    end.

(** Lines 192-248: the body of [for attempt in range(RETRY_COUNT)].  The
    handler continues with the [st] the attempt started from: nothing is
    raised after the scoring has begun, except [KeyError], which it does
    not catch. *)
Definition search_attempt (title : string) (author : option string)
  (attempt : nat) (st : best) : M flow :=
  try_except_RequestException
    (emit (Delay (attempt + 1)) ;;;
     response <- requests_get_search (make_params title author) ;;
     let (status_code, data) := response in
     if status_code =? 429 then
       log_warning (RateLimitExceeded RATE_LIMIT_RETRY) ;;;
       time_sleep RATE_LIMIT_RETRY ;;;
       ret (Continue st)
     else if status_code =? 404 then ret (Continue st)
     else
       raise_for_status status_code ;;;
       score_reply title author data st)
    (search_handler title attempt st).

(** Lines 188-250: the loop and the final [return None, 'not_found']. *)
Fixpoint search_attempts (title : string) (author : option string)
  (attempts : list nat) (st : best) : M (option string * source) :=
  match attempts with
  | [] => ret (None, not_found)
  | attempt :: rest =>
      f <- search_attempt title author attempt st ;;
      match f with
      | Return description => ret (Some description, title_search)
      | Continue st' => search_attempts title author rest st'
      end
  end.

Definition search_path (title : string) (author : option string)
  : M (option string * source) :=
  search_attempts title author (seq 0 RETRY_COUNT) no_match.

Definition fetch_book_summary (depth : nat) (title : string)
  (author : option string) (isbn : option string)
  : M (option string * source) :=
  isbn_result <- (if opt_truthy isbn then fetch_by_isbn depth isbn
                  else ret None) ;;
  if opt_truthy isbn_result then ret (isbn_result, isbn_search)
  else search_path title author.

(** ** [process_book_summaries] (lines 253-318) *)

(** [Series.isin]. *)
Definition isin (id : Z) (ids : list Z) : bool := existsb (Z.eqb id) ids.

(** [pd.merge(books_df, cache_df, on='book_id', how='left')]: every
    catalog row with each cache row of its [book_id], or alone; [key] is
    the [book_id] column of the right frame. *)
Definition left_join {R : Type} (key : R -> Z) (books_df : list book)
  (cache_df : list R) : list (book * option R) :=
  flat_map
    (fun b =>
       match filter (fun e => key e =? book_id b) cache_df with
       | [] => [(b, None)]
       | matches => map (fun e => (b, Some e)) matches
       end)
    books_df.

(** [drop_duplicates('book_id')], which keeps the first row of each
    [book_id]. *)
Fixpoint drop_duplicates_from (seen : list Z) (rows : list entry)
  : list entry :=
  match rows with
  | [] => []
  | e :: rest =>
      if isin (entry_book_id e) seen then drop_duplicates_from seen rest
      else e :: drop_duplicates_from (entry_book_id e :: seen) rest
  end.

Definition drop_duplicates (rows : list entry) : list entry :=
  drop_duplicates_from [] rows.

(** Line 303. *)
Definition updated_cache (cache_df new_df : list entry) : list entry :=
  drop_duplicates (cache_df ++ new_df).

(** Line 271. *)
Definition remaining_books (books_df : list book) (cache_df : list entry)
  : list book :=
  filter (fun b => negb (isin (book_id b) (map entry_book_id cache_df)))
         books_df.

(** Lines 270-272. *)
Definition books_to_process (books_df : list book) (cache_df : list entry)
  (max_summaries : Z) : list book :=
  let remaining_summaries := max_summaries - Z.of_nat (List.length cache_df) in
  let remaining := remaining_books books_df cache_df in
  sample remaining
         (Z.to_nat (Z.min remaining_summaries (Z.of_nat (List.length remaining)))).

(** Lines 288-296. *)
Definition append_entry (row : book) (r : option string * source)
  (new_entries : list entry) : list entry :=
  match fst r with
  | Some s =>
      if Str.truthy s then
        new_entries ++
        [mkEntry (book_id row) (title row) (authors row) (isbn row) s (snd r)]
      else new_entries
  | None => new_entries
  end.

(** Lines 281-298. *)
Fixpoint resolve_rows (depth : nat) (rows : list book)
  (new_entries : list entry) : M (list entry) :=
  match rows with
  | [] => ret new_entries
  | row :: rest =>
      r <- fetch_book_summary depth (title row) (Some (authors row))
                              (isbn row) ;;
      resolve_rows depth rest (append_entry row r new_entries)
  end.

(** Line 310, [pd.read_csv(cache_path)] a second time: a file this run
    wrote comes back through [read_csv]; a file it only loaded comes back
    as line 257 loaded it. *)
Definition read_cache_again (written : bool) : M (list cache_row) :=
  rows <- read_cache ;;
  ret (if written then read_csv rows else map row_of_entry rows).

(** Lines 301-318: write the merged cache if anything was resolved, read
    the file again and join it onto the catalog. *)
Definition save_and_join (books_df : list book) (cache_df new_entries : list entry)
  : M (list (book * option cache_row)) :=
  written <- match new_entries with
             | [] => log_warning NoNewSummary ;;; ret false
             | _ :: _ =>
                 write_cache (updated_cache cache_df new_entries) ;;; ret true
             end ;;
  final_cache <- read_cache_again written ;;
  ret (left_join row_book_id books_df final_cache).

(** Lines 256-261. *)
Definition load_cache : M (list entry) :=
  found <- cache_exists ;;
  if found : bool then read_cache else ret [].

(** Lines 253-318; the early return of line 267 joins the frame as line
    257 loaded it. *)
Definition process_book_summaries (depth : nat) (books_df : list book)
  (max_summaries : Z) : M (list (book * option cache_row)) :=
  cache_df <- load_cache ;;
  let current_summary_count := Z.of_nat (List.length cache_df) in
  if max_summaries <=? current_summary_count
  then ret (left_join row_book_id books_df (map row_of_entry cache_df))
  else
    new_entries <- resolve_rows depth
                     (books_to_process books_df cache_df max_summaries) [] ;;
    save_and_join books_df cache_df new_entries.

(** ** [save_results] (lines 321-331) *)

(** [Series.notna] on a cell. *)
Definition notna (c : cell) : bool :=
  match c with
  | NaN => false
  | Value _ => true
  end.

(** Line 327: the rows written to [books_with_summaries.csv], those of
    the joined frame whose [summary] is not NaN; a row that found no
    cache row has NaN there. *)
Definition save_results (final_books_df : list (book * option cache_row))
  : list (book * option cache_row) :=
  filter (fun row => match snd row with
                     | Some r => notna (row_summary r)
                     | None => false
                     end)
         final_books_df.

(** ** [standardize_isbn] (lines 42-46) *)

(** [str.isdigit] on one character, for the code points below 256: the
    ASCII digits and the superscripts one, two and three. *)
Definition is_digit (c : ascii) : bool :=
  let n := nat_of_ascii c in
  ((48 <=? n)%nat && (n <=? 57)%nat) ||
  (n =? 178)%nat || (n =? 179)%nat || (n =? 185)%nat.

(** [''.join(filter(str.isdigit, s))]. *)
Fixpoint digits (s : string) : string :=
  match s with
  | EmptyString => EmptyString
  | String c r => if is_digit c then String c (digits r) else digits r
  end.

(** The argument is [None] for a NaN or [None] cell and otherwise the text
    [str(isbn)]. *)
Definition standardize_isbn (isbn : option string) : option string :=
  match isbn with
  | None => None
  | Some text => Some (digits text)
  end.

(** ** [clean_books_data] (lines 87-102) *)

(** A cell of the [title] or [authors] column: NaN, a number or a text. *)
Inductive field : Type :=
| Missing
| Number (x : float)
| Text (s : string).

(** A row of the frame with the five columns of [cols_to_keep]; the
    other columns of the frame are left out.  [raw_isbn] is [None] for a
    NaN cell and otherwise the text [str(isbn)]; [raw_average_rating] is
    the cell as [pd.to_numeric(..., errors='coerce')] reads it. *)
Record raw_book : Type := mkRaw {
  raw_book_id : Z;
  raw_title : field;
  raw_authors : field;
  raw_isbn : option string;
  raw_average_rating : option float
}.

Definition is_text (c : field) : bool :=
  match c with
  | Text _ => true
  | _ => false
  end.

(** [Series.str] on a column as [pd.read_csv] types it (line 65): a
    column with a text in it, or without rows, has the dtype [object] and
    the accessor is there; a column of numbers and NaN only is numeric,
    and asking for [.str] raises [AttributeError]. *)
Definition str_accessor (column : list field) : bool :=
  match column with
  | [] => true
  | _ :: _ => existsb is_text column
  end.

(** A method of [Series.str] on one cell: what is not a text gives NaN. *)
Definition str_map (f : string -> string) (c : field) : field :=
  match c with
  | Text s => Text (f s)
  | _ => Missing
  end.

(** [fillna]. *)
Definition fillna_text (value : string) (c : field) : field :=
  match c with
  | Missing => Text value
  | _ => c
  end.

Definition fillna {A : Type} (value : A) (cell : option A) : option A :=
  match cell with
  | Some x => Some x
  | None => Some value
  end.

(** Lines 93-97, row by row. *)
Definition clean_row (r : raw_book) : raw_book :=
  mkRaw (raw_book_id r)
        (str_map Str.strip (raw_title r))
        (fillna_text "unknown"
                     (str_map Str.strip (str_map lower (raw_authors r))))
        (standardize_isbn (raw_isbn r))
        (fillna 3%float (raw_average_rating r)).

Definition notna_field (c : field) : bool :=
  match c with
  | Missing => false
  | _ => true
  end.

(** Line 99: [dropna(subset=['title', 'authors'])]. *)
Definition dropna (rows : list raw_book) : list raw_book :=
  filter (fun r => notna_field (raw_title r) && notna_field (raw_authors r))
         rows.

(** Lines 89-99, the body of the [try]: [None] when it raises, which it
    does where [.str] is asked of a column that has none. *)
Definition cleaned (books_df : list raw_book) : option (list raw_book) :=
  if str_accessor (map raw_authors books_df) &&
     str_accessor (map raw_title books_df)
  then Some (dropna (map clean_row books_df))
  else None.

(** Lines 100-102: on an exception the frame comes back as it was
    given. *)
Definition clean_books_data (books_df : list raw_book) : list raw_book :=
  match cleaned books_df with
  | Some books_clean => books_clean
  | None => books_df
  end.

(** ** [add_tags_to_books] (lines 105-129) *)

(** Rows of [book_tags.csv] and of [tags.csv]; a tag name is [None] when
    the cell is NaN. *)
Record book_tag : Type := mkBookTag {
  goodreads_book_id : Z;
  bt_tag_id : Z;
  count : Z
}.

Record tag : Type := mkTag {
  tag_id : Z;
  tag_name : option string
}.

(** A row of [book_tags_merged]: a row of [book_tags_df] with the name of
    its tag, NaN when [tags_df] has no such [tag_id]. *)
Definition merged_tag : Type := (book_tag * option string)%type.

(** Line 108: [pd.merge(book_tags_df, tags_df, on='tag_id', how='left')]. *)
Definition merge_tags (book_tags_df : list book_tag) (tags_df : list tag)
  : list merged_tag :=
  flat_map
    (fun bt =>
       match filter (fun t => tag_id t =? bt_tag_id bt) tags_df with
       | [] => [(bt, None)]
       | matches => map (fun t => (bt, tag_name t)) matches
       end)
    book_tags_df.

(** The order of line 109-110: [goodreads_book_id] ascending, then [count]
    descending. *)
Definition tag_before (x y : merged_tag) : bool :=
  (goodreads_book_id (fst x) <? goodreads_book_id (fst y)) ||
  ((goodreads_book_id (fst x) =? goodreads_book_id (fst y)) &&
   (count (fst y) <=? count (fst x))).

(** [sort_values] on two columns is a stable sort: rows that tie keep
    their order. *)
Fixpoint insert_tag (x : merged_tag) (rows : list merged_tag)
  : list merged_tag :=
  match rows with
  | [] => [x]
  | y :: rest => if tag_before x y then x :: rows else y :: insert_tag x rest
  end.

Definition sort_tags (rows : list merged_tag) : list merged_tag :=
  fold_right insert_tag [] rows.

(** Line 111: [groupby('goodreads_book_id').head(n)], the first [n] rows
    of every group, in the order of the frame; [seen] holds the
    [goodreads_book_id] of the rows already passed. *)
Fixpoint head_from (n : nat) (seen : list Z) (rows : list merged_tag)
  : list merged_tag :=
  match rows with
  | [] => []
  | r :: rest =>
      let id := goodreads_book_id (fst r) in
      if (count_occ Z.eq_dec seen id <? n)%nat
      then r :: head_from n (id :: seen) rest
      else head_from n (id :: seen) rest
  end.

Definition group_head (n : nat) (rows : list merged_tag) : list merged_tag :=
  head_from n [] rows.

Definition top_tags (book_tags_df : list book_tag) (tags_df : list tag)
  : list merged_tag :=
  group_head 5 (sort_tags (merge_tags book_tags_df tags_df)).

(** The names of the rows of one book, in the order of the frame. *)
Definition group_names (id : Z) (rows : list merged_tag)
  : list (option string) :=
  map snd (filter (fun r => goodreads_book_id (fst r) =? id) rows).

(** [', '.join(x)] over the names of a group: a NaN among them raises
    [TypeError]. *)
Fixpoint present_names (names : list (option string)) : option (list string) :=
  match names with
  | [] => Some []
  | None :: _ => None
  | Some n :: rest =>
      match present_names rest with
      | Some l => Some (n :: l)
      | None => None
      end
  end.

(** Lines 113-117: [tags_combined] for every [goodreads_book_id] of
    [top_tags], one row each, in the order of first appearance; [None]
    when a join raises. *)
Fixpoint tags_final_from (seen : list Z) (all rows : list merged_tag)
  : option (list (Z * string)) :=
  match rows with
  | [] => Some []
  | r :: rest =>
      let id := goodreads_book_id (fst r) in
      match present_names (group_names id all),
            tags_final_from (id :: seen) all rest with
      | Some names, Some final =>
          if isin id seen then Some final
          else Some ((id, Str.join ", " names) :: final)
      | _, _ => None
      end
  end.

Definition tags_final (rows : list merged_tag) : option (list (Z * string)) :=
  tags_final_from [] rows rows.

(** A row of [books_with_tags]: the catalog row, [tags_combined] (NaN
    without tags) and [main_genre]. *)
Record tagged_book : Type := mkTagged {
  tagged_row : raw_book;
  tags_combined : option string;
  main_genre : string
}.

(** Lines 123-124. *)
Definition genre_of (tags : option string) : string :=
  match tags with
  | Some x => Str.strip (Str.before_comma x)
  | None => "Unknown"
  end.

(** Lines 119-126: the left merge on [book_id] and the new column. *)
Definition join_tags (books_df : list raw_book) (final : list (Z * string))
  : list tagged_book :=
  flat_map
    (fun b =>
       match filter (fun t => fst t =? raw_book_id b) final with
       | [] => [mkTagged b None (genre_of None)]
       | matches =>
           map (fun t => mkTagged b (Some (snd t)) (genre_of (Some (snd t))))
               matches
       end)
    books_df.

(** The frame the function returns: with the two new columns, or
    [books_df] as it came when the [except] branch of line 127 is
    taken.  The column types of a [book_tags_df] without rows are not
    modelled; the properties of the new columns are stated for a frame
    with rows. *)
Inductive tagging : Type :=
| Tagged (rows : list tagged_book)
| Untagged (books_df : list raw_book).

Definition add_tags_to_books (books_df : list raw_book)
  (book_tags_df : list book_tag) (tags_df : list tag) : tagging :=
  match tags_final (top_tags book_tags_df tags_df) with
  | Some final => Tagged (join_tags books_df final)
  | None => Untagged books_df
  end.

(** A small shelf: six tags for the first book, the least used of them
    without a name in [tags_df], and none for the second. *)
Definition shelf : list raw_book :=
  [mkRaw 1 (Text "Dune") (Text "frank herbert") (Some "9780441172719")
     (Some 4%float);
   mkRaw 2 (Text "Emma") (Text "jane austen") None (Some 4%float)].

Definition shelf_book_tags : list book_tag :=
  [mkBookTag 1 30 20; mkBookTag 1 10 50; mkBookTag 1 99 5;
   mkBookTag 1 20 40; mkBookTag 1 40 30; mkBookTag 1 50 10].

Definition shelf_tags : list tag :=
  [mkTag 10 (Some "science-fiction"); mkTag 20 (Some "classics");
   mkTag 30 (Some "fiction"); mkTag 40 (Some "fantasy");
   mkTag 50 (Some "space")].

(** The same tags without the name of the most used one. *)
Definition shelf_tags_short : list tag :=
  [mkTag 20 (Some "classics"); mkTag 30 (Some "fiction");
   mkTag 40 (Some "fantasy"); mkTag 50 (Some "space")].

Definition shelf_dune : tagged_book :=
  mkTagged (mkRaw 1 (Text "Dune") (Text "frank herbert")
              (Some "9780441172719") (Some 4%float))
           (Some "science-fiction, classics, fantasy, fiction, space")
           "science-fiction".

Definition shelf_emma : tagged_book :=
  mkTagged (mkRaw 2 (Text "Emma") (Text "jane austen") None (Some 4%float))
           None "Unknown".

(** * Properties *)

(** ** Strings *)

Lemma take_length (n : nat) (s : string) :
  (String.length (Str.take n s) <= n)%nat.
Proof.
  revert s; induction n as [|n IH]; intros [|c r]; simpl; try lia.
  specialize (IH r); lia.
Qed.

Lemma take_prefix (n : nat) (s : string) :
  String.prefix (Str.take n s) s = true.
Proof.
  revert s; induction n as [|n IH]; intros [|c r]; simpl; try reflexivity.
  destruct (ascii_dec c c) as [_|ne]; [apply IH | now elim ne].
Qed.

Lemma take_all (n : nat) (s : string) :
  (String.length s <= n)%nat -> Str.take n s = s.
Proof.
  revert s; induction n as [|n IH]; intros [|c r]; simpl; intros H;
    try reflexivity; try lia.
  f_equal; apply IH; lia.
Qed.

Lemma take_truthy (n : nat) (s : string) :
  Str.truthy s = true -> Str.truthy (Str.take (S n) s) = true.
Proof. destruct s; simpl; auto. Qed.

Lemma truncate_description_truthy (s d : string) :
  truncate_description s = Some d ->
  Str.truthy s = true /\ d = Str.take DESCRIPTION_LIMIT s /\ Str.truthy d = true.
Proof.
  unfold truncate_description.
  destruct s as [|c r]; [discriminate|].
  change (Str.truthy (String c r)) with true; cbv iota.
  intros H.
  assert (E : d = Str.take DESCRIPTION_LIMIT (String c r)) by congruence.
  rewrite E; repeat split.
Qed.

Arguments Str.take : simpl never.

(** ** Running the monad *)

Ltac run :=
  unfold bind, ret, raise, try_except_RequestException, log_warning,
    time_sleep, emit, raise_for_status, cache_exists, read_cache, write_cache.

(** A reply that is neither 404 nor 429 nor a 4xx/5xx error. *)
Definition success_status (status_code : Z) : bool :=
  negb (status_code =? 404) && negb (status_code =? 429) &&
  negb (error_status status_code).

Lemma success_status_inv (status_code : Z) :
  success_status status_code = true ->
  (status_code =? 404) = false /\ (status_code =? 429) = false /\
  error_status status_code = false.
Proof.
  unfold success_status; intros H.
  apply andb_prop in H as [H H3]; apply andb_prop in H as [H1 H2].
  now rewrite !negb_true_iff in *.
Qed.

(** One call of [fetch_by_isbn] that gets a successful reply. *)
Lemma fetch_by_isbn_success (depth : nat) (i : string) (w : world)
  (status_code : Z) (d : description) :
  Str.truthy i = true ->
  isbn_api (isbn_sent w) = Reply status_code d ->
  success_status status_code = true ->
  fetch_by_isbn (S depth) (Some i) w =
  (Ok (truncate_description (normalize_description d)),
   mkWorld (S (isbn_sent w)) (search_sent w) (trace w ++ [GetIsbn i])
           (cache_file w)).
Proof.
  intros Hi Hr Hs.
  apply success_status_inv in Hs as (H404 & H429 & Herr).
  simpl. rewrite Hi. simpl. run. unfold requests_get_isbn.
  rewrite Hr, H404, H429, Herr. reflexivity.
Qed.

(** ** Cache merge (lines 301-304) *)

(** The row test [row['book_id'] == id]. *)
Definition has_id (id : Z) (e : entry) : bool := entry_book_id e =? id.

Lemma isin_In (id : Z) (ids : list Z) : isin id ids = true <-> In id ids.
Proof.
  unfold isin; rewrite existsb_exists; split.
  - intros (x & Hx & E); apply Z.eqb_eq in E; now subst.
  - intros H; exists id; split; [assumption | apply Z.eqb_refl].
Qed.

Lemma isin_not_In (id : Z) (ids : list Z) : isin id ids = false <-> ~ In id ids.
Proof.
  rewrite <- isin_In; destruct (isin id ids); split; congruence.
Qed.

Lemma drop_duplicates_from_ids (rows : list entry) :
  forall seen id,
    In id (map entry_book_id (drop_duplicates_from seen rows)) <->
    In id (map entry_book_id rows) /\ ~ In id seen.
Proof.
  induction rows as [|e rest IH]; intros seen id; simpl.
  - tauto.
  - destruct (isin (entry_book_id e) seen) eqn:E.
    + apply isin_In in E. rewrite IH. split.
      * tauto.
      * intros [[<- | H] Hn]; [contradiction | tauto].
    + apply isin_not_In in E. simpl. rewrite IH. simpl. split.
      * intros [<- | [H Hn]]; [tauto |]. split; [tauto |]. tauto.
      * intros [[<- | H] Hn]; [tauto |].
        destruct (Z.eq_dec (entry_book_id e) id); [tauto |]. right; tauto.
Qed.

Lemma drop_duplicates_from_NoDup (rows : list entry) :
  forall seen, NoDup (map entry_book_id (drop_duplicates_from seen rows)).
Proof.
  induction rows as [|e rest IH]; intros seen; simpl.
  - constructor.
  - destruct (isin (entry_book_id e) seen); [apply IH |].
    simpl; constructor; [| apply IH].
    rewrite drop_duplicates_from_ids; simpl; tauto.
Qed.

Lemma drop_duplicates_from_incl (rows : list entry) :
  forall seen e, In e (drop_duplicates_from seen rows) -> In e rows.
Proof.
  induction rows as [|x rest IH]; intros seen e; simpl; [tauto |].
  destruct (isin (entry_book_id x) seen); simpl.
  - intros H; right; eapply IH; eassumption.
  - intros [-> | H]; [now left | right; eapply IH; eassumption].
Qed.

Lemma drop_duplicates_from_find (rows : list entry) :
  forall seen id,
    ~ In id seen ->
    find (has_id id) (drop_duplicates_from seen rows) = find (has_id id) rows.
Proof.
  induction rows as [|e rest IH]; intros seen id Hn; simpl; [reflexivity |].
  unfold has_id at 2.
  destruct (isin (entry_book_id e) seen) eqn:E.
  - apply isin_In in E.
    destruct (Z.eqb_spec (entry_book_id e) id) as [<- | ne];
      [contradiction | now apply IH].
  - simpl; unfold has_id at 1.
    destruct (Z.eqb_spec (entry_book_id e) id) as [_ | ne]; [reflexivity |].
    apply IH; simpl; tauto.
Qed.

(** Rows whose [book_id]s are distinct and new pass through unchanged. *)
Lemma drop_duplicates_from_prefix (cache_df : list entry) :
  forall seen new_df,
    NoDup (map entry_book_id cache_df) ->
    (forall id, In id (map entry_book_id cache_df) -> ~ In id seen) ->
    drop_duplicates_from seen (cache_df ++ new_df) =
    cache_df ++
    drop_duplicates_from (rev (map entry_book_id cache_df) ++ seen) new_df.
Proof.
  induction cache_df as [|e rest IH]; intros seen new_df Hnd Hseen; simpl;
    [reflexivity |].
  inversion Hnd as [|x l Hx Hl]; subst.
  assert (E : isin (entry_book_id e) seen = false)
    by (apply isin_not_In, Hseen; simpl; now left).
  rewrite E. f_equal.
  rewrite IH; [now rewrite <- app_assoc | assumption |].
  intros id Hid [<- | H]; [contradiction |].
  apply (Hseen id); simpl; tauto.
Qed.

Lemma find_app_first (f : entry -> bool) (l1 l2 : list entry) :
  find f (l1 ++ l2) =
  match find f l1 with
  | Some e => Some e
  | None => find f l2
  end.
Proof.
  induction l1 as [|x l1 IH]; simpl; [reflexivity |].
  now destruct (f x).
Qed.

Lemma find_has_id_Some (id : Z) (rows : list entry) :
  In id (map entry_book_id rows) -> exists e, find (has_id id) rows = Some e.
Proof.
  induction rows as [|x rows IH]; simpl; [tauto |].
  unfold has_id at 1.
  destruct (Z.eqb_spec (entry_book_id x) id) as [_ | ne]; [eauto |].
  intros [H | H]; [contradiction | auto].
Qed.

(** C5. The merged cache of line 303 holds every [book_id] of the old
    cache and of the new batch exactly once, with the first row that
    carries it; a [book_id] of the old cache keeps the cached row, and a
    cache without duplicates is kept whole, in order, before the rows the
    batch adds; this merged cache is what a batch that resolved anything
    writes to the file. *)
Theorem cache_merge_keeps_first (cache_df new_df : list entry) :
  let merged := updated_cache cache_df new_df in
  (forall id, In id (map entry_book_id (cache_df ++ new_df)) ->
              count_occ Z.eq_dec (map entry_book_id merged) id = 1%nat) /\
  (forall e, In e merged -> In e (cache_df ++ new_df)) /\
  (forall id, find (has_id id) merged = find (has_id id) (cache_df ++ new_df)) /\
  (forall id, In id (map entry_book_id cache_df) ->
              find (has_id id) merged = find (has_id id) cache_df) /\
  (NoDup (map entry_book_id cache_df) ->
   exists added, merged = cache_df ++ added /\ incl added new_df) /\
  (forall books_df w,
      new_df <> [] ->
      cache_file (snd (save_and_join books_df cache_df new_df w)) =
      Some merged).
Proof.
  unfold updated_cache, drop_duplicates; cbv zeta.
  assert (Hfind : forall id,
             find (has_id id) (drop_duplicates_from [] (cache_df ++ new_df)) =
             find (has_id id) (cache_df ++ new_df))
    by (intros id; apply drop_duplicates_from_find; simpl; tauto).
  repeat split.
  - intros id Hid.
    apply NoDup_count_occ'; [apply drop_duplicates_from_NoDup |].
    rewrite drop_duplicates_from_ids; simpl; tauto.
  - intros e; apply drop_duplicates_from_incl.
  - exact Hfind.
  - intros id Hid. rewrite Hfind, find_app_first.
    now destruct (find_has_id_Some id cache_df Hid) as (e & ->).
  - intros Hnd. eexists; split.
    + apply drop_duplicates_from_prefix; [assumption | simpl; tauto].
    + intros e; apply drop_duplicates_from_incl.
  - intros books_df w Hnew. unfold save_and_join; run.
    destruct new_df; [congruence | reflexivity].
Qed.

(** ** Batch selection (lines 256-272) *)

Definition loaded_cache (w : world) : list entry :=
  match cache_file w with
  | Some rows => rows
  | None => []
  end.

Lemma load_cache_run (w : world) : load_cache w = (Ok (loaded_cache w), w).
Proof.
  unfold load_cache, loaded_cache; run.
  destruct (cache_file w) eqn:E; simpl; rewrite ?E; reflexivity.
Qed.

Lemma remaining_books_In (books_df : list book) (cache_df : list entry)
  (b : book) :
  In b (remaining_books books_df cache_df) <->
  In b books_df /\ ~ In (book_id b) (map entry_book_id cache_df).
Proof.
  unfold remaining_books. rewrite filter_In, negb_true_iff, isin_not_In.
  reflexivity.
Qed.

(** ** The ISBN lookup (lines 132-171) *)

(** The events of the search endpoint: its request and its delay. *)
Definition search_event (e : event) : bool :=
  match e with
  | GetSearch _ | Delay _ => true
  | _ => false
  end.

(** The world after one rate-limited request: the request, the warning of
    line 149 and the sleep of line 150. *)
Definition cooldown (i : string) : list event :=
  [GetIsbn i; Warn (RateLimitExceeded RATE_LIMIT_RETRY); Sleep RATE_LIMIT_RETRY].

Definition after_cooldown (i : string) (w : world) : world :=
  mkWorld (S (isbn_sent w)) (search_sent w) (trace w ++ cooldown i)
          (cache_file w).

Fixpoint after_cooldowns (k : nat) (i : string) (w : world) : world :=
  match k with
  | O => w
  | S k' => after_cooldowns k' i (after_cooldown i w)
  end.

Definition no_search_event (evs : list event) : Prop :=
  Forall (fun e => search_event e = false) evs.

(** Closes [exists evs, trace w' = trace w ++ evs /\ no_search_event evs]
    when the events are explicit. *)
Ltac trace_extension :=
  eexists; split;
  [ rewrite <- ?app_assoc; first [reflexivity | symmetry; apply app_nil_r]
  | repeat constructor ].

(** What a call of [fetch_by_isbn] can do to the world and return. *)
Lemma fetch_by_isbn_effects (depth : nat) :
  forall isbn w r w',
    fetch_by_isbn depth isbn w = (r, w') ->
    search_sent w' = search_sent w /\
    cache_file w' = cache_file w /\
    (exists evs, trace w' = trace w ++ evs /\ no_search_event evs) /\
    match r with
    | Ok (Some d) => Str.truthy d = true
    | Ok None => True
    | Raise e => e = RecursionError
    end.
Proof.
  assert (Hnil : forall w, exists evs, trace w = trace w ++ evs /\ no_search_event evs)
    by (intros w; exists []; split; [now rewrite app_nil_r | constructor]).
  induction depth as [|depth IH]; intros isbn w r w' H;
    destruct isbn as [i|]; simpl in H;
    try (injection H as <- <-; now auto).
  - destruct (Str.truthy i); simpl in H; injection H as <- <-; now auto.
  - destruct (Str.truthy i); simpl in H; [| injection H as <- <-; now auto].
    revert H; run; unfold requests_get_isbn.
    destruct (isbn_api (isbn_sent w)) as [e | status_code d].
    + unfold isbn_handler; run.
      destruct e; simpl; intros H; injection H as <- <-; simpl;
        repeat split; trace_extension.
    + simpl. destruct (status_code =? 404);
        [intros H; injection H as <- <-; simpl; repeat split; trace_extension |].
      destruct (status_code =? 429).
      * simpl.
        match goal with
        | |- context [fetch_by_isbn depth (Some i) ?w2] =>
            destruct (fetch_by_isbn depth (Some i) w2) as [r2 w3] eqn:E
        end.
        apply IH in E as (Hs & Hc & (evs & Ht & Hev) & Hr); simpl in *.
        destruct r2 as [a | e]; [| subst e];
          intros H; injection H as <- <-; simpl;
          (split; [congruence |]); (split; [congruence |]);
          (split; [| assumption || reflexivity]);
          exists ([GetIsbn i; Warn (RateLimitExceeded RATE_LIMIT_RETRY);
                   Sleep RATE_LIMIT_RETRY] ++ evs);
          (split; [rewrite Ht, <- !app_assoc; reflexivity |
                   repeat (constructor; [reflexivity |]); assumption]).
      * destruct (error_status status_code); simpl.
        -- intros H; injection H as <- <-; simpl; repeat split; trace_extension.
        -- intros H; injection H as <- <-; simpl; repeat split;
             try trace_extension.
           destruct (truncate_description (normalize_description d)) eqn:E;
             [| exact I].
           now apply truncate_description_truthy in E.
Qed.

(** A 429 makes the call wait and call itself: lines 148-151. *)
Lemma fetch_by_isbn_rate_limited (depth : nat) (i : string) (w : world)
  (b : description) :
  Str.truthy i = true ->
  isbn_api (isbn_sent w) = Reply 429 b ->
  fetch_by_isbn (S depth) (Some i) w =
  fetch_by_isbn depth (Some i) (after_cooldown i w).
Proof.
  intros Hi Hr. simpl. rewrite Hi. simpl. run. unfold requests_get_isbn.
  rewrite Hr. simpl.
  replace (((trace w ++ [GetIsbn i]) ++ [Warn (RateLimitExceeded RATE_LIMIT_RETRY)])
             ++ [Sleep RATE_LIMIT_RETRY])
    with (trace w ++ cooldown i) by (unfold cooldown; now rewrite <- !app_assoc).
  fold (after_cooldown i w).
  destruct (fetch_by_isbn depth (Some i) (after_cooldown i w)) as [r w'] eqn:E.
  apply fetch_by_isbn_effects in E as (_ & _ & _ & Hr').
  destruct r as [a | e]; [reflexivity | now subst e].
Qed.

(** The world after [k] rate-limited requests and one more request. *)
Definition after_retries (k : nat) (i : string) (w : world) : world :=
  mkWorld (isbn_sent w + k + 1)%nat (search_sent w)
          (trace w ++ List.concat (repeat (cooldown i) k) ++ [GetIsbn i])
          (cache_file w).

Lemma fetch_by_isbn_retries (k : nat) :
  forall depth i w status_code d,
    Str.truthy i = true ->
    (forall j, (j < k)%nat -> exists b, isbn_api (isbn_sent w + j)%nat = Reply 429 b) ->
    isbn_api (isbn_sent w + k)%nat = Reply status_code d ->
    success_status status_code = true ->
    (k < depth)%nat ->
    fetch_by_isbn depth (Some i) w =
    (Ok (truncate_description (normalize_description d)), after_retries k i w).
Proof.
  induction k as [|k IH]; intros depth i w status_code d Hi H429 Hk Hs Hd;
    (destruct depth as [|depth]; [lia |]).
  - rewrite Nat.add_0_r in Hk.
    rewrite (fetch_by_isbn_success depth i w status_code d Hi Hk Hs).
    unfold after_retries; simpl. do 2 f_equal. lia.
  - destruct (H429 0%nat ltac:(lia)) as [b Hb]. rewrite Nat.add_0_r in Hb.
    rewrite (fetch_by_isbn_rate_limited depth i w b Hi Hb).
    rewrite (IH depth i (after_cooldown i w) status_code d Hi).
    + unfold after_retries, after_cooldown; simpl.
      rewrite <- !app_assoc. do 2 f_equal. lia.
    + intros j Hj. destruct (H429 (S j) ltac:(lia)) as [b' Hb'].
      exists b'. simpl. now rewrite <- Nat.add_succ_r.
    + simpl. now rewrite <- Nat.add_succ_r.
    + assumption.
    + lia.
Qed.

Lemma fetch_by_isbn_never_settles (depth : nat) :
  forall i w,
    Str.truthy i = true ->
    (forall n, exists b, isbn_api n = Reply 429 b) ->
    fst (fetch_by_isbn depth (Some i) w) = Raise RecursionError.
Proof.
  induction depth as [|depth IH]; intros i w Hi H429.
  - simpl. now rewrite Hi.
  - destruct (H429 (isbn_sent w)) as [b Hb].
    rewrite (fetch_by_isbn_rate_limited depth i w b Hi Hb). now apply IH.
Qed.

(** C3, as the code has it.  After every 429 [fetch_by_isbn] waits
    [RATE_LIMIT_RETRY] seconds and sends the same request again, as often
    as the service answers 429: with [k] such answers before a successful
    one it sends [k + 1] equal requests, sleeps [k] times and returns the
    description of the last reply; if every answer is a 429 no nesting
    depth is enough for it to return. *)
Theorem rate_limit_retries (i : string) :
  Str.truthy i = true ->
  (forall k depth w status_code d,
      (forall j, (j < k)%nat ->
                 exists b, isbn_api (isbn_sent w + j)%nat = Reply 429 b) ->
      isbn_api (isbn_sent w + k)%nat = Reply status_code d ->
      success_status status_code = true ->
      (k < depth)%nat ->
      fetch_by_isbn depth (Some i) w =
      (Ok (truncate_description (normalize_description d)),
       mkWorld (isbn_sent w + k + 1)%nat (search_sent w)
               (trace w ++
                List.concat (repeat [GetIsbn i;
                                Warn (RateLimitExceeded RATE_LIMIT_RETRY);
                                Sleep RATE_LIMIT_RETRY] k) ++
                [GetIsbn i])
               (cache_file w))) /\
  ((forall n, exists b, isbn_api n = Reply 429 b) ->
   forall depth w, fst (fetch_by_isbn depth (Some i) w) = Raise RecursionError).
Proof.
  intros Hi; split.
  - intros k depth w status_code d H429 Hk Hs Hd.
    apply (fetch_by_isbn_retries k depth i w status_code d); assumption.
  - intros H429 depth w. now apply fetch_by_isbn_never_settles.
Qed.

(** ** One search attempt (lines 192-248) *)

(** Lines 242-247: the warnings of the handler. *)
Definition failure_warnings (title : string) (attempt : nat)
  (e : request_exception) : list event :=
  if Nat.eqb attempt (RETRY_COUNT - 1) then
    match e with
    | Timeout => [Warn (TitleTimeout title)]
    | HTTPError status_code =>
        if negb (status_code =? 404) then [Warn (TitleHTTP title status_code)]
        else []
    | ConnectionError => []
    end
  else [].

(** The events of one attempt, by the reply it gets. *)
Definition attempt_events (title : string) (author : option string)
  (attempt : nat) (r : reply search_body) : list event :=
  [Delay (attempt + 1); GetSearch (make_params title author)] ++
  match r with
  | Raised e => failure_warnings title attempt e
  | Reply status_code _ =>
      if status_code =? 429
      then [Warn (RateLimitExceeded RATE_LIMIT_RETRY); Sleep RATE_LIMIT_RETRY]
      else if status_code =? 404 then []
      else if error_status status_code
           then failure_warnings title attempt (HTTPError status_code)
           else []
  end.

(** What one attempt leaves, by the reply it gets. *)
Definition attempt_flow (title : string) (author : option string) (st : best)
  (r : reply search_body) : result flow :=
  match r with
  | Raised _ => Ok (Continue st)
  | Reply status_code data =>
      if status_code =? 429 then Ok (Continue st)
      else if status_code =? 404 then Ok (Continue st)
      else if error_status status_code then Ok (Continue st)
      else if (match numFound data with Some n => n | None => 0 end) =? 0
      then Ok (Continue st)
      else
        match docs data with
        | None => Raise (KeyError "docs")
        | Some ds =>
            let st' := score_docs title author ds st in
            match accepted_description st' with
            | Some description => Ok (Return description)
            | None => Ok (Continue st')
            end
        end
  end.

Ltac break_if :=
  match goal with
  | |- context [if ?c then _ else _] => destruct c; simpl
  end.

Lemma search_attempt_run (title : string) (author : option string)
  (attempt : nat) (st : best) (w : world) :
  search_attempt title author attempt st w =
  (attempt_flow title author st (search_api (search_sent w)),
   mkWorld (isbn_sent w) (S (search_sent w))
           (trace w ++
            attempt_events title author attempt (search_api (search_sent w)))
           (cache_file w)).
Proof.
  unfold search_attempt, attempt_flow, attempt_events, search_handler,
    failure_warnings, score_reply.
  run. unfold requests_get_search. simpl.
  destruct (search_api (search_sent w)) as [e | status_code data]; simpl.
  - repeat break_if; destruct e as [| | status_code]; simpl;
      repeat break_if; rewrite <- ?app_assoc; reflexivity.
  - destruct (status_code =? 429); simpl;
      [rewrite <- ?app_assoc; reflexivity |].
    destruct (status_code =? 404) eqn:E404; simpl;
      [rewrite <- ?app_assoc; reflexivity |].
    destruct (error_status status_code); simpl.
    + rewrite ?E404; simpl; repeat break_if; rewrite ?E404; simpl;
        rewrite <- ?app_assoc; reflexivity.
    + repeat break_if;
        try (destruct (docs data) as [ds |]; simpl);
        try (destruct (accepted_description (score_docs title author ds st));
             simpl);
        rewrite <- ?app_assoc; reflexivity.
Qed.

(** ** The retry loop (lines 188-250) *)

(** The loop as a function of the replies: attempt by attempt, starting
    with the reply to request number [n]. *)
Fixpoint search_flow (title : string) (author : option string)
  (attempts : list nat) (n : nat) (st : best)
  : result (option string * source) :=
  match attempts with
  | [] => Ok (None, not_found)
  | _ :: rest =>
      match attempt_flow title author st (search_api n) with
      | Ok (Return description) => Ok (Some description, title_search)
      | Ok (Continue st') => search_flow title author rest (S n) st'
      | Raise e => Raise e
      end
  end.

(** The events of the loop and the number of requests it sends. *)
Fixpoint search_events (title : string) (author : option string)
  (attempts : list nat) (n : nat) (st : best) : list event :=
  match attempts with
  | [] => []
  | attempt :: rest =>
      attempt_events title author attempt (search_api n) ++
      match attempt_flow title author st (search_api n) with
      | Ok (Continue st') => search_events title author rest (S n) st'
      | _ => []
      end
  end.

Fixpoint requests_made (title : string) (author : option string)
  (attempts : list nat) (n : nat) (st : best) : nat :=
  match attempts with
  | [] => 0
  | _ :: rest =>
      S match attempt_flow title author st (search_api n) with
        | Ok (Continue st') => requests_made title author rest (S n) st'
        | _ => 0
        end
  end.

Lemma search_attempts_run (title : string) (author : option string)
  (attempts : list nat) :
  forall st w,
    search_attempts title author attempts st w =
    (search_flow title author attempts (search_sent w) st,
     mkWorld (isbn_sent w)
             (search_sent w +
              requests_made title author attempts (search_sent w) st)
             (trace w ++
              search_events title author attempts (search_sent w) st)
             (cache_file w)).
Proof.
  induction attempts as [|attempt rest IH]; intros st w; simpl.
  - unfold ret. rewrite Nat.add_0_r, app_nil_r. now destruct w.
  - unfold bind. rewrite search_attempt_run.
    destruct (attempt_flow title author st (search_api (search_sent w)))
      as [[description | st'] | e]; simpl.
    + unfold ret. rewrite app_nil_r. do 2 f_equal. lia.
    + rewrite IH; simpl. rewrite <- app_assoc. do 2 f_equal. lia.
    + rewrite app_nil_r. do 2 f_equal. lia.
Qed.

Lemma search_path_result (title : string) (author : option string)
  (w : world) :
  fst (search_path title author w) =
  search_flow title author (seq 0 RETRY_COUNT) (search_sent w) no_match.
Proof. unfold search_path. now rewrite search_attempts_run. Qed.

(** [search_path] sends nothing to the ISBN endpoint, leaves the cache
    file alone and only adds to the trace. *)
Lemma search_path_effects (title : string) (author : option string)
  (w : world) :
  let w' := snd (search_path title author w) in
  isbn_sent w' = isbn_sent w /\ cache_file w' = cache_file w /\
  exists evs, trace w' = trace w ++ evs.
Proof.
  unfold search_path. rewrite search_attempts_run. simpl. eauto.
Qed.

(** ** ISBN first (lines 176-180) *)

Lemma fetch_by_isbn_first_event (depth : nat) (i : string) (w : world) :
  Str.truthy i = true ->
  exists evs,
    trace (snd (fetch_by_isbn (S depth) (Some i) w)) = trace w ++ GetIsbn i :: evs.
Proof.
  intros Hi. simpl. rewrite Hi. simpl. run. unfold requests_get_isbn.
  destruct (isbn_api (isbn_sent w)) as [e | status_code d]; simpl.
  - unfold isbn_handler; run.
    destruct e; simpl; rewrite <- ?app_assoc; simpl; eauto.
  - destruct (status_code =? 404); simpl; [eauto |].
    destruct (status_code =? 429); simpl.
    + match goal with
      | |- context [fetch_by_isbn depth (Some i) ?w2] =>
          destruct (fetch_by_isbn depth (Some i) w2) as [r w3] eqn:E
      end.
      apply fetch_by_isbn_effects in E as (_ & _ & (evs & Ht & _) & Hr).
      simpl in Ht.
      destruct r as [a | e]; [| subst e]; simpl; rewrite Ht, <- !app_assoc;
        simpl; eauto.
    + destruct (error_status status_code); simpl; eauto.
Qed.

Lemma fetch_book_summary_isbn (depth : nat) (title : string)
  (author : option string) (isbn : option string) (w : world) :
  opt_truthy isbn = true ->
  fetch_book_summary depth title author isbn w =
  match fetch_by_isbn depth isbn w with
  | (Ok (Some d), w1) => (Ok (Some d, isbn_search), w1)
  | (Ok None, w1) => search_path title author w1
  | (Raise e, w1) => (Raise e, w1)
  end.
Proof.
  intros Hi. unfold fetch_book_summary, bind. rewrite Hi.
  destruct (fetch_by_isbn depth isbn w) as [r w1] eqn:E.
  apply fetch_by_isbn_effects in E as (_ & _ & _ & Hr).
  destruct r as [[d |] | e]; simpl; [now rewrite Hr | |]; reflexivity.
Qed.

Lemma fetch_book_summary_no_isbn (depth : nat) (title : string)
  (author : option string) (isbn : option string) (w : world) :
  opt_truthy isbn = false ->
  fetch_book_summary depth title author isbn w = search_path title author w.
Proof.
  intros Hi. unfold fetch_book_summary, bind. now rewrite Hi.
Qed.

(** C7. With an ISBN the first event of [fetch_book_summary] is the ISBN
    request; a description from [fetch_by_isbn] is returned at once with
    the label [isbn_search] and no search request is sent; a search
    request is sent only when the ISBN is absent or the ISBN lookup gave
    no description. *)
Theorem isbn_first (depth : nat) (title : string) (author : option string)
  (w : world) :
  (forall i,
      Str.truthy i = true ->
      exists evs,
        trace (snd (fetch_book_summary (S depth) title author (Some i) w)) =
        trace w ++ GetIsbn i :: evs) /\
  (forall isbn d w1,
      opt_truthy isbn = true ->
      fetch_by_isbn depth isbn w = (Ok (Some d), w1) ->
      fetch_book_summary depth title author isbn w =
      (Ok (Some d, isbn_search), w1) /\
      search_sent w1 = search_sent w /\
      exists evs, trace w1 = trace w ++ evs /\ no_search_event evs) /\
  (forall isbn,
      search_sent (snd (fetch_book_summary depth title author isbn w)) <>
      search_sent w ->
      opt_truthy isbn = false \/
      exists w1, fetch_by_isbn depth isbn w = (Ok None, w1) /\
                 fetch_book_summary depth title author isbn w =
                 search_path title author w1).
Proof.
  split; [| split].
  - intros i Hi.
    rewrite fetch_book_summary_isbn by exact Hi.
    destruct (fetch_by_isbn_first_event depth i w Hi) as [evs Hevs].
    destruct (fetch_by_isbn (S depth) (Some i) w) as [[[d |] | e] w1];
      simpl in *; eauto.
    destruct (search_path_effects title author w1) as (_ & _ & evs' & H').
    cbv zeta in H'. rewrite H', Hevs, <- app_assoc. simpl. eauto.
  - intros isbn d w1 Hi H.
    rewrite fetch_book_summary_isbn, H by exact Hi.
    apply fetch_by_isbn_effects in H as (Hs & _ & Ht & _). auto.
  - intros isbn Hsent.
    destruct (opt_truthy isbn) eqn:Hi; [right | now left].
    rewrite fetch_book_summary_isbn in * by exact Hi.
    destruct (fetch_by_isbn depth isbn w) as [[[d |] | e] w1] eqn:E;
      [exfalso | eauto | exfalso];
      apply fetch_by_isbn_effects in E as (Hs & _); simpl in Hsent; congruence.
Qed.

(** ** Scores *)

(** The values [fuzz.ratio] can take. *)
Definition percentages : list Z := map Z.of_nat (seq 0 101).

Lemma percentages_In (t : Z) : 0 <= t <= 100 -> In t percentages.
Proof.
  intros H. unfold percentages.
  replace t with (Z.of_nat (Z.to_nat t)) by lia.
  apply in_map, in_seq. lia.
Qed.

Lemma percentages_forall (P : Z -> bool) :
  forallb P percentages = true -> forall t, 0 <= t <= 100 -> P t = true.
Proof.
  intros H t Ht. rewrite forallb_forall in H. now apply H, percentages_In.
Qed.

Lemma percentages_forall2 (P : Z -> Z -> bool) :
  forallb (fun t => forallb (P t) percentages) percentages = true ->
  forall t a, 0 <= t <= 100 -> 0 <= a <= 100 -> P t a = true.
Proof.
  intros H t a Ht Ha.
  apply (percentages_forall (P t)); [| exact Ha].
  now apply (percentages_forall (fun t => forallb (P t) percentages)).
Qed.

(** On percentages, "strictly below 75" and "not at least 75" are the same
    test of the rounded score. *)
Lemma weighted_below (t a : Z) :
  0 <= t <= 100 -> 0 <= a <= 100 ->
  PrimFloat.ltb (weighted t a) 75%float = negb (PrimFloat.leb 75%float (weighted t a)).
Proof.
  intros Ht Ha.
  assert (H : forallb
                (fun t => forallb
                   (fun a => Bool.eqb (PrimFloat.ltb (weighted t a) 75%float)
                               (negb (PrimFloat.leb 75%float (weighted t a))))
                   percentages) percentages = true)
    by (vm_compute; reflexivity).
  apply Bool.eqb_prop.
  exact (percentages_forall2 _ H t a Ht Ha).
Qed.

(** Without an author score the weighted score is [0.7 * title_score], at
    most 70. *)
Lemma weighted_title_only (t : Z) :
  0 <= t <= 100 ->
  weighted t 0 = PrimFloat.mul 0.7%float (float_of_Z t) /\
  PrimFloat.leb (weighted t 0) 70%float = true /\
  PrimFloat.ltb (weighted t 0) 75%float = true /\
  PrimFloat.leb 75%float (weighted t 0) = false.
Proof.
  intros Ht. apply percentages_In in Ht. unfold percentages in Ht.
  cbv [seq map] in Ht.
  repeat (destruct Ht as [<- | Ht]; [vm_compute; auto |]).
  destruct Ht.
Qed.

Lemma fold_max_range (l : list Z) :
  forall x,
    0 <= x <= 100 -> (forall y, In y l -> 0 <= y <= 100) ->
    0 <= fold_left Z.max l x <= 100.
Proof.
  induction l as [|y l IH]; intros x Hx Hl; simpl; [exact Hx |].
  apply IH.
  - assert (0 <= y <= 100) by (apply Hl; now left). lia.
  - intros z Hz; apply Hl; now right.
Qed.

Lemma title_score_range (title : string) (d : doc) :
  0 <= title_score title d <= 100.
Proof. apply ratio_range. Qed.

Lemma author_score_range (author : option string) (d : doc) :
  0 <= author_score author d <= 100.
Proof.
  unfold author_score.
  destruct author as [a |]; [| lia].
  destruct (Str.truthy a); [| lia].
  destruct (doc_author_name d) as [[| n names] |]; simpl; try lia.
  apply fold_max_range; [apply ratio_range |].
  intros y Hy. apply in_map_iff in Hy as (x & <- & _). apply ratio_range.
Qed.

Lemma author_score_absent (author : option string) (d : doc) :
  opt_truthy author = false -> author_score author d = 0.
Proof.
  unfold author_score. destruct author as [a |]; simpl; [| reflexivity].
  now intros ->.
Qed.

(** ** Threshold (lines 225-239) *)

(** A reply whose documents are scored: neither 404 nor 429 nor an error,
    with [numFound] not 0. *)
Definition scorable (r : reply search_body) : bool :=
  match r with
  | Raised _ => false
  | Reply status_code data =>
      success_status status_code &&
      negb ((match numFound data with Some n => n | None => 0 end) =? 0)
  end.

Definition scored_docs (r : reply search_body) : list doc :=
  match r with
  | Raised _ => []
  | Reply _ data =>
      if scorable r
      then match docs data with Some ds => ds | None => [] end
      else []
  end.

(** A reply as section 6 of the specification describes it: the body of a
    response carries its [docs] list. *)
Definition well_formed (r : reply search_body) : bool :=
  match r with
  | Raised _ => true
  | Reply _ data => match docs data with Some _ => true | None => false end
  end.

(** The documents scored by [k] attempts, the first of which gets the
    reply to request [n]. *)
Fixpoint seen_docs (n k : nat) : list doc :=
  match k with
  | O => []
  | S k' => scored_docs (search_api n) ++ seen_docs (S n) k'
  end.

Lemma attempt_flow_scored (title : string) (author : option string)
  (st : best) (r : reply search_body) :
  attempt_flow title author st r =
  if scorable r then
    if well_formed r then
      match accepted_description (score_docs title author (scored_docs r) st) with
      | Some description => Ok (Return description)
      | None => Ok (Continue (score_docs title author (scored_docs r) st))
      end
    else Raise (KeyError "docs")
  else Ok (Continue st).
Proof.
  unfold attempt_flow, scored_docs, well_formed.
  destruct r as [e | status_code data]; [reflexivity |].
  unfold scorable, success_status.
  destruct (status_code =? 429); simpl; [now rewrite andb_false_r |].
  destruct (status_code =? 404); simpl; [reflexivity |].
  destruct (error_status status_code); simpl; [reflexivity |].
  destruct ((match numFound data with Some n => n | None => 0 end) =? 0);
    simpl; [reflexivity |].
  now destruct (docs data).
Qed.

Definition below_threshold (st : best) : Prop :=
  PrimFloat.leb 75%float (fst st) = false.

Lemma no_match_below : below_threshold no_match.
Proof. reflexivity. Qed.

Lemma below_threshold_rejected (st : best) :
  below_threshold st -> accepted_description st = None.
Proof.
  unfold below_threshold, accepted_description, good_match. now intros ->.
Qed.

Lemma score_docs_below (title : string) (author : option string)
  (ds : list doc) :
  forall st,
    below_threshold st ->
    (forall d, In d ds ->
               PrimFloat.leb 75%float (combined_score title author d) = false) ->
    below_threshold (score_docs title author ds st).
Proof.
  unfold score_docs.
  induction ds as [|d ds IH]; intros st Hst Hds; simpl; [exact Hst |].
  apply IH; [| intros d' Hd'; apply Hds; now right].
  unfold score_doc.
  destruct (PrimFloat.ltb (fst st) (combined_score title author d));
    [apply Hds; now left | exact Hst].
Qed.

Lemma score_docs_nil (title : string) (author : option string) (st : best) :
  score_docs title author [] st = st.
Proof. reflexivity. Qed.

Lemma score_docs_app (title : string) (author : option string)
  (ds1 ds2 : list doc) (st : best) :
  score_docs title author (ds1 ++ ds2) st =
  score_docs title author ds2 (score_docs title author ds1 st).
Proof. apply fold_left_app. Qed.

(** Below the threshold on every scored document, the loop ends in
    [not_found], unless a body without [docs] raises [KeyError]. *)
Lemma search_flow_below (title : string) (author : option string)
  (attempts : list nat) :
  forall n st,
    below_threshold st ->
    (forall j d, (j < List.length attempts)%nat ->
                 In d (scored_docs (search_api (n + j))) ->
                 PrimFloat.leb 75%float (combined_score title author d) = false) ->
    search_flow title author attempts n st = Ok (None, not_found) \/
    (search_flow title author attempts n st = Raise (KeyError "docs") /\
     exists j, (j < List.length attempts)%nat /\
               scorable (search_api (n + j)) = true /\
               well_formed (search_api (n + j)) = false).
Proof.
  induction attempts as [|attempt rest IH]; intros n st Hst Hds; simpl;
    [now left |].
  assert (Hrest : forall st',
             below_threshold st' ->
             search_flow title author rest (S n) st' = Ok (None, not_found) \/
             (search_flow title author rest (S n) st' = Raise (KeyError "docs") /\
              exists j, (j < S (List.length rest))%nat /\
                        scorable (search_api (n + j)) = true /\
                        well_formed (search_api (n + j)) = false)).
  { intros st' Hst'.
    destruct (IH (S n) st' Hst') as [H | (H & j & Hj & Hs & Hw)].
    - intros j d Hj Hd. apply (Hds (S j) d); [simpl; lia |].
      now rewrite Nat.add_succ_r.
    - now left.
    - right; split; [exact H |]. exists (S j); split; [lia |].
      now rewrite Nat.add_succ_r. }
  rewrite attempt_flow_scored.
  destruct (scorable (search_api n)) eqn:Hsc; [| now apply Hrest].
  destruct (well_formed (search_api n)) eqn:Hwf.
  - assert (Hst' : below_threshold
                     (score_docs title author (scored_docs (search_api n)) st)).
    { apply score_docs_below; [exact Hst |].
      intros d Hd. apply (Hds 0%nat d); [simpl; lia |].
      now rewrite Nat.add_0_r. }
    rewrite (below_threshold_rejected _ Hst'). now apply Hrest.
  - right; split; [reflexivity |]. exists 0%nat; split; [simpl; lia |].
    now rewrite Nat.add_0_r.
Qed.

Lemma scored_docs_unscorable (r : reply search_body) :
  scorable r = false -> scored_docs r = [].
Proof.
  unfold scored_docs. destruct r as [e | status_code data]; [reflexivity |].
  now intros ->.
Qed.

Lemma seen_docs_step (title : string) (author : option string) (n j : nat)
  (st : best) :
  score_docs title author (seen_docs n (S j)) st =
  score_docs title author (seen_docs (S n) j)
    (score_docs title author (scored_docs (search_api n)) st).
Proof. simpl. apply score_docs_app. Qed.

(** The first attempt after which the best match is accepted returns its
    description. *)
Lemma search_flow_accept (title : string) (author : option string) (k : nat) :
  forall attempts n st text,
    (k < List.length attempts)%nat ->
    (forall j, (j <= k)%nat -> scorable (search_api (n + j)) = true ->
               well_formed (search_api (n + j)) = true) ->
    accepted_description st = None ->
    (forall j, (j < k)%nat ->
               accepted_description
                 (score_docs title author (seen_docs n (S j)) st) = None) ->
    accepted_description (score_docs title author (seen_docs n (S k)) st) =
    Some text ->
    search_flow title author attempts n st = Ok (Some text, title_search).
Proof.
  induction k as [|k IH]; intros attempts n st text Hk Hwf Hst Hbefore Hk';
    (destruct attempts as [|attempt rest]; [simpl in Hk; lia |]);
    simpl search_flow; rewrite attempt_flow_scored;
    rewrite seen_docs_step in Hk'.
  - change (seen_docs (S n) 0) with (@nil doc) in Hk'.
    rewrite score_docs_nil in Hk'.
    destruct (scorable (search_api n)) eqn:Hsc.
    + assert (Hw : well_formed (search_api n) = true)
        by (rewrite <- (Nat.add_0_r n); apply Hwf;
            [lia | now rewrite Nat.add_0_r]).
      now rewrite Hw, Hk'.
    + rewrite (scored_docs_unscorable _ Hsc), score_docs_nil in Hk'.
      congruence.
  - assert (H0 : accepted_description
                   (score_docs title author (scored_docs (search_api n)) st) =
                 None).
    { specialize (Hbefore 0%nat ltac:(lia)).
      rewrite seen_docs_step in Hbefore. exact Hbefore. }
    assert (Hnext :
              search_flow title author rest (S n)
                (score_docs title author (scored_docs (search_api n)) st) =
              Ok (Some text, title_search)).
    { apply IH.
      - simpl in Hk; lia.
      - intros j Hj. rewrite Nat.add_succ_comm. apply Hwf. lia.
      - exact H0.
      - intros j Hj. rewrite <- seen_docs_step. apply Hbefore. lia.
      - exact Hk'. }
    destruct (scorable (search_api n)) eqn:Hsc.
    + assert (Hw : well_formed (search_api n) = true)
        by (rewrite <- (Nat.add_0_r n); apply Hwf;
            [lia | now rewrite Nat.add_0_r]).
      now rewrite Hw, H0.
    + rewrite (scored_docs_unscorable _ Hsc) in Hnext. exact Hnext.
Qed.

(** C1. On the search path, for replies whose [docs], where the code
    reads them, are in the body: once the best match kept so far has a
    score of 75 or more and a description that is not empty, that
    description, cut to 2000 characters, is returned with the label
    [title_search]; when every scored document of the three attempts
    scores strictly below 75 the result is [(None, not_found)], whatever
    the descriptions and whatever the replies that are not scored (an
    exception, a 404, a 429, an error status, no hit). *)
Theorem threshold_acceptance (title : string) (author : option string)
  (w : world) :
  let n := search_sent w in
  (forall k score d,
      (k < RETRY_COUNT)%nat ->
      (forall j, (j <= k)%nat -> scorable (search_api (n + j)) = true ->
                 well_formed (search_api (n + j)) = true) ->
      (forall j, (j < k)%nat ->
                 accepted_description
                   (score_docs title author (seen_docs n (S j)) no_match) = None) ->
      score_docs title author (seen_docs n (S k)) no_match = (score, Some d) ->
      PrimFloat.leb 75%float score = true ->
      normalize_description (doc_description d) <> "" ->
      fst (search_path title author w) =
      Ok (Some (Str.take 2000 (normalize_description (doc_description d))),
          title_search)) /\
  ((forall j, (j < RETRY_COUNT)%nat -> scorable (search_api (n + j)) = true ->
              well_formed (search_api (n + j)) = true) ->
   (forall j d, (j < RETRY_COUNT)%nat ->
                In d (scored_docs (search_api (n + j))) ->
                PrimFloat.ltb (combined_score title author d) 75%float = true) ->
   fst (search_path title author w) = Ok (None, not_found)).
Proof.
  intros n. rewrite search_path_result. fold n. split.
  - intros k score d Hk Hwf Hbefore Hbest Hscore Hdesc.
    apply (search_flow_accept title author k).
    + simpl; exact Hk.
    + exact Hwf.
    + apply below_threshold_rejected, no_match_below.
    + exact Hbefore.
    + unfold accepted_description, good_match. rewrite Hbest. simpl.
      rewrite Hscore. simpl.
      assert (Ht : Str.truthy (normalize_description (doc_description d)) = true)
        by (destruct (normalize_description (doc_description d));
            [congruence | reflexivity]).
      assert (Hd : doc_truthy d = true).
      { unfold doc_truthy. destruct (doc_description d); simpl in *;
          [congruence | | |]; now destruct (doc_title d), (doc_author_name d). }
      rewrite Hd. unfold truncate_description. now rewrite Ht.
  - intros Hwf Hlow.
    destruct (search_flow_below title author (seq 0 RETRY_COUNT) n no_match
                no_match_below) as [H | (_ & j & Hj & Hs & Hbad)].
    + intros j d Hj Hd. rewrite length_seq in Hj.
      specialize (Hlow j d Hj Hd). unfold combined_score in *.
      rewrite weighted_below in Hlow
        by (apply title_score_range || apply author_score_range).
      now apply negb_true_iff in Hlow.
    + exact H.
    + rewrite length_seq in Hj. rewrite Hwf in Hbad by assumption.
      discriminate.
Qed.

(** C9. Without a query author the author score is 0, so the combined
    score is [0.7 * title_score], at most 70 and below 75, and
    [fetch_book_summary] never returns the label [title_search]. *)
Theorem no_author_no_title_search (author : option string) :
  opt_truthy author = false ->
  (forall title d,
      author_score author d = 0 /\
      combined_score title author d =
      PrimFloat.mul 0.7%float (float_of_Z (title_score title d)) /\
      PrimFloat.leb (combined_score title author d) 70%float = true /\
      PrimFloat.ltb (combined_score title author d) 75%float = true) /\
  (forall depth title isbn w text,
      fst (fetch_book_summary depth title author isbn w) <>
      Ok (text, title_search)).
Proof.
  intros Ha.
  assert (Hscore : forall title d,
             combined_score title author d = weighted (title_score title d) 0)
    by (intros; unfold combined_score; now rewrite author_score_absent).
  split.
  - intros title d. rewrite Hscore.
    destruct (weighted_title_only (title_score title d)
                (title_score_range title d)) as (H1 & H2 & H3 & _).
    auto using author_score_absent.
  - intros depth title isbn w text.
    assert (Hsearch : forall w1,
               fst (search_path title author w1) <> Ok (text, title_search)).
    { intros w1. rewrite search_path_result.
      destruct (search_flow_below title author (seq 0 RETRY_COUNT)
                  (search_sent w1) no_match no_match_below)
        as [H | (H & _)]; try (rewrite H; discriminate).
      intros j d _ _. rewrite Hscore.
      apply (weighted_title_only _ (title_score_range title d)). }
    destruct (opt_truthy isbn) eqn:Hi.
    + rewrite fetch_book_summary_isbn by exact Hi.
      destruct (fetch_by_isbn depth isbn w) as [[[d |] | e] w1]; simpl;
        [discriminate | apply Hsearch | discriminate].
    + rewrite fetch_book_summary_no_isbn by exact Hi. apply Hsearch.
Qed.

(** ** Failures (lines 241-250) *)

(** The exception the body of an attempt raises on a reply, if any. *)
Definition failure_of (r : reply search_body) : option request_exception :=
  match r with
  | Raised e => Some e
  | Reply status_code _ =>
      if status_code =? 429 then None
      else if status_code =? 404 then None
      else if error_status status_code then Some (HTTPError status_code)
      else None
  end.

(** The warnings of lines 244 and 247. *)
Definition failure_warning (e : event) : bool :=
  match e with
  | Warn (TitleTimeout _) | Warn (TitleHTTP _ _) => true
  | _ => false
  end.

Lemma failed_attempt (title : string) (author : option string)
  (attempt : nat) (st : best) (r : reply search_body) (e : request_exception) :
  failure_of r = Some e ->
  attempt_flow title author st r = Ok (Continue st) /\
  attempt_events title author attempt r =
  [Delay (attempt + 1); GetSearch (make_params title author)] ++
  failure_warnings title attempt e.
Proof.
  unfold failure_of, attempt_flow, attempt_events.
  destruct r as [e' | status_code data]; [now intros [= ->] |].
  destruct (status_code =? 429); [discriminate |].
  destruct (status_code =? 404); [discriminate |].
  destruct (error_status status_code); [now intros [= <-] | discriminate].
Qed.

Lemma failure_warnings_early (title : string) (attempt : nat)
  (e : request_exception) :
  attempt <> (RETRY_COUNT - 1)%nat -> failure_warnings title attempt e = [].
Proof.
  intros H. unfold failure_warnings.
  now destruct (Nat.eqb_spec attempt (RETRY_COUNT - 1)).
Qed.

Lemma failure_warnings_one (title : string) (attempt : nat)
  (e : request_exception) :
  (List.length (failure_warnings title attempt e) <= 1)%nat /\
  filter failure_warning (failure_warnings title attempt e) =
  failure_warnings title attempt e.
Proof.
  unfold failure_warnings.
  destruct (Nat.eqb attempt (RETRY_COUNT - 1)); [| simpl; auto].
  destruct e as [| | status_code]; simpl; auto.
  destruct (status_code =? 404); simpl; auto.
Qed.

(** The failure warnings among the events of one attempt. *)
Lemma attempt_events_warnings (title : string) (author : option string)
  (attempt : nat) (r : reply search_body) :
  filter failure_warning (attempt_events title author attempt r) =
  match failure_of r with
  | Some e => failure_warnings title attempt e
  | None => []
  end.
Proof.
  unfold attempt_events, failure_of. rewrite filter_app. simpl.
  destruct r as [e | status_code data];
    [apply failure_warnings_one |].
  destruct (status_code =? 429); [reflexivity |].
  destruct (status_code =? 404); [reflexivity |].
  destruct (error_status status_code); [apply failure_warnings_one | reflexivity].
Qed.

Lemma search_flow_raise (title : string) (author : option string)
  (attempts : list nat) :
  forall n st e,
    search_flow title author attempts n st = Raise e -> e = KeyError "docs".
Proof.
  induction attempts as [|attempt rest IH]; intros n st e; simpl;
    [discriminate |].
  rewrite attempt_flow_scored.
  destruct (scorable (search_api n)); [| apply IH].
  destruct (well_formed (search_api n)); [| now intros [= <-]].
  destruct (accepted_description _); [discriminate | apply IH].
Qed.

Lemma fetch_book_summary_raise (depth : nat) (title : string)
  (author : option string) (isbn : option string) (w : world) (e : exn) :
  fst (fetch_book_summary depth title author isbn w) = Raise e ->
  e = KeyError "docs" \/ e = RecursionError.
Proof.
  assert (Hsearch : forall w1, fst (search_path title author w1) = Raise e ->
                               e = KeyError "docs")
    by (intros w1; rewrite search_path_result; apply search_flow_raise).
  destruct (opt_truthy isbn) eqn:Hi.
  - rewrite fetch_book_summary_isbn by exact Hi.
    destruct (fetch_by_isbn depth isbn w) as [[[d |] | e'] w1] eqn:E; simpl.
    + discriminate.
    + intros H; left; eapply Hsearch; eassumption.
    + apply fetch_by_isbn_effects in E as (_ & _ & _ & ->).
      intros [= <-]; now right.
  - rewrite fetch_book_summary_no_isbn by exact Hi.
    intros H; left; eapply Hsearch; eassumption.
Qed.

Lemma resolve_rows_raise (depth : nat) (rows : list book) :
  forall new_entries w e,
    fst (resolve_rows depth rows new_entries w) = Raise e ->
    e = KeyError "docs" \/ e = RecursionError.
Proof.
  induction rows as [|row rest IH]; intros new_entries w e; simpl;
    [discriminate |].
  unfold bind.
  destruct (fetch_book_summary depth (title row) (Some (authors row))
              (isbn row) w) as [[r | e'] w1] eqn:E.
  - apply IH.
  - simpl. intros [= <-].
    apply (fetch_book_summary_raise depth (title row) (Some (authors row))
             (isbn row) w). now rewrite E.
Qed.

(** A reply that is not scored leaves the loop where it was. *)
Lemma search_flow_unscored (title : string) (author : option string)
  (attempts : list nat) :
  forall n st,
    (forall j, (j < List.length attempts)%nat ->
               scorable (search_api (n + j)) = false) ->
    search_flow title author attempts n st = Ok (None, not_found) /\
    requests_made title author attempts n st = List.length attempts.
Proof.
  induction attempts as [|attempt rest IH]; intros n st H;
    [split; reflexivity |].
  cbn [search_flow requests_made List.length]. rewrite attempt_flow_scored.
  assert (Hsc : scorable (search_api n) = false)
    by (rewrite <- (Nat.add_0_r n); apply H; simpl; lia).
  rewrite Hsc.
  destruct (IH (S n) st) as [Hf Hr].
  - intros j Hj. rewrite Nat.add_succ_comm. apply H. simpl. lia.
  - split; [exact Hf | now rewrite Hr].
Qed.

(** Attempts that accept nothing end in [not_found]. *)
Lemma search_flow_exhaust (title : string) (author : option string)
  (attempts : list nat) :
  forall n st,
    (forall j, (j < List.length attempts)%nat ->
               scorable (search_api (n + j)) = true ->
               well_formed (search_api (n + j)) = true) ->
    (forall j, (j < List.length attempts)%nat ->
               accepted_description
                 (score_docs title author (seen_docs n (S j)) st) = None) ->
    search_flow title author attempts n st = Ok (None, not_found).
Proof.
  induction attempts as [|attempt rest IH]; intros n st Hwf Hnone;
    [reflexivity |].
  cbn [search_flow List.length] in *. rewrite attempt_flow_scored.
  assert (H0 : accepted_description
                 (score_docs title author (scored_docs (search_api n)) st) =
               None).
  { specialize (Hnone 0%nat ltac:(lia)). rewrite seen_docs_step in Hnone.
    exact Hnone. }
  assert (Hrest : search_flow title author rest (S n)
                    (score_docs title author (scored_docs (search_api n)) st) =
                  Ok (None, not_found)).
  { apply IH.
    - intros j Hj. rewrite Nat.add_succ_comm. apply Hwf. lia.
    - intros j Hj. rewrite <- seen_docs_step. apply Hnone. lia. }
  destruct (scorable (search_api n)) eqn:Hsc.
  - assert (Hw : well_formed (search_api n) = true)
      by (rewrite <- (Nat.add_0_r n); apply Hwf;
          [lia | now rewrite Nat.add_0_r]).
    now rewrite Hw, H0.
  - now rewrite (scored_docs_unscorable _ Hsc) in Hrest.
Qed.

(** With its [docs] in every body that is scored, the loop raises
    nothing. *)
Lemma search_flow_returns (title : string) (author : option string)
  (attempts : list nat) :
  (forall n, scorable (search_api n) = true ->
             well_formed (search_api n) = true) ->
  forall n st, exists r, search_flow title author attempts n st = Ok r.
Proof.
  intros Hwf.
  induction attempts as [|attempt rest IH]; intros n st; [now eexists |].
  cbn [search_flow]. rewrite attempt_flow_scored.
  destruct (scorable (search_api n)) eqn:Hsc; [| apply IH].
  rewrite (Hwf n Hsc).
  destruct (accepted_description _); [now eexists | apply IH].
Qed.

(** Without a 429 the ISBN lookup does not call itself. *)
Lemma fetch_by_isbn_returns (depth : nat) (isbn : option string) (w : world) :
  (forall n body, isbn_api n <> Reply 429 body) ->
  exists r, fst (fetch_by_isbn (S depth) isbn w) = Ok r.
Proof.
  intros Hfree. destruct isbn as [i |]; [| now eexists].
  simpl. destruct (Str.truthy i); simpl; [| now eexists].
  run. unfold requests_get_isbn.
  destruct (isbn_api (isbn_sent w)) as [e | status_code d] eqn:E; simpl.
  - unfold isbn_handler; run. destruct e; simpl; now eexists.
  - destruct (status_code =? 404); simpl; [now eexists |].
    destruct (Z.eqb_spec status_code 429) as [-> | _]; simpl.
    + elim (Hfree _ _ E).
    + destruct (error_status status_code); simpl; now eexists.
Qed.

Lemma fetch_book_summary_returns (depth : nat) (title : string)
  (author : option string) (isbn : option string) (w : world) :
  (forall n, scorable (search_api n) = true ->
             well_formed (search_api n) = true) ->
  (forall n body, isbn_api n <> Reply 429 body) ->
  exists r, fst (fetch_book_summary (S depth) title author isbn w) = Ok r.
Proof.
  intros Hwf Hfree.
  assert (Hsearch : forall w1, exists r,
             fst (search_path title author w1) = Ok r).
  { intros w1. rewrite search_path_result. now apply search_flow_returns. }
  destruct (opt_truthy isbn) eqn:Hi.
  - rewrite fetch_book_summary_isbn by exact Hi.
    destruct (fetch_by_isbn_returns depth isbn w Hfree) as (r & Hr).
    destruct (fetch_by_isbn (S depth) isbn w) as [r' w1]. simpl in Hr.
    subst r'. destruct r as [d |]; [now eexists | apply Hsearch].
  - rewrite fetch_book_summary_no_isbn by exact Hi. apply Hsearch.
Qed.

Lemma resolve_rows_returns (depth : nat) (rows : list book) :
  (forall n, scorable (search_api n) = true ->
             well_formed (search_api n) = true) ->
  (forall n body, isbn_api n <> Reply 429 body) ->
  forall new_entries w,
    exists es, fst (resolve_rows (S depth) rows new_entries w) = Ok es.
Proof.
  intros Hwf Hfree.
  induction rows as [|row rest IH]; intros new_entries w; [now eexists |].
  cbn [resolve_rows]. unfold bind.
  destruct (fetch_book_summary_returns depth (title row) (Some (authors row))
              (isbn row) w Hwf Hfree) as (r & Hr).
  destruct (fetch_book_summary (S depth) (title row) (Some (authors row))
              (isbn row) w) as [r' w1]. simpl in Hr. subst r'.
  apply IH.
Qed.

(** C8. No network, timeout or HTTP error leaves [fetch_book_summary] or
    the loop over the batch: neither ever raises a [RequestException].  On
    the search path the only failure warnings are those of the last
    attempt, at most one; three failed attempts give [(None, not_found)]
    after three requests, and so do three replies of which none is scored
    (an exception, an error status, a 404, a 429 or no hit, in any mix)
    and three attempts that accept no candidate.  What can leave
    [fetch_book_summary] is a [KeyError] for a body without [docs] or the
    [RecursionError] of the ISBN lookup; with [docs] in every scored body
    and no 429 from the ISBN endpoint every row of a batch gets its
    result. *)
Theorem failures_absorbed (title : string) (author : option string) :
  (forall depth isbn w e,
      fst (fetch_book_summary depth title author isbn w) <>
      Raise (RequestException e)) /\
  (forall depth rows new_entries w e,
      fst (resolve_rows depth rows new_entries w) <>
      Raise (RequestException e)) /\
  (forall w,
      exists evs,
        trace (snd (search_path title author w)) = trace w ++ evs /\
        (List.length (filter failure_warning evs) <= 1)%nat /\
        (filter failure_warning evs <> [] ->
         failure_of (search_api (search_sent w + 2)) <> None)) /\
  (forall w e0 e1 e2,
      failure_of (search_api (search_sent w)) = Some e0 ->
      failure_of (search_api (search_sent w + 1)) = Some e1 ->
      failure_of (search_api (search_sent w + 2)) = Some e2 ->
      search_path title author w =
      (Ok (None, not_found),
       mkWorld (isbn_sent w) (search_sent w + 3)
               (trace w ++
                [Delay 1; GetSearch (make_params title author);
                 Delay 2; GetSearch (make_params title author);
                 Delay 3; GetSearch (make_params title author)] ++
                failure_warnings title 2 e2)
               (cache_file w))) /\
  (forall w,
      (forall j, (j < RETRY_COUNT)%nat ->
                 scorable (search_api (search_sent w + j)) = false) ->
      fst (search_path title author w) = Ok (None, not_found) /\
      search_sent (snd (search_path title author w)) =
      (search_sent w + RETRY_COUNT)%nat) /\
  (forall w,
      (forall j, (j < RETRY_COUNT)%nat ->
                 scorable (search_api (search_sent w + j)) = true ->
                 well_formed (search_api (search_sent w + j)) = true) ->
      (forall j, (j < RETRY_COUNT)%nat ->
                 accepted_description
                   (score_docs title author (seen_docs (search_sent w) (S j))
                      no_match) = None) ->
      fst (search_path title author w) = Ok (None, not_found)) /\
  (forall depth isbn w e,
      fst (fetch_book_summary depth title author isbn w) = Raise e ->
      e = KeyError "docs" \/ e = RecursionError) /\
  ((forall n, scorable (search_api n) = true ->
              well_formed (search_api n) = true) ->
   (forall n body, isbn_api n <> Reply 429 body) ->
   (forall depth isbn w,
       exists r,
         fst (fetch_book_summary (S depth) title author isbn w) = Ok r) /\
   (forall depth rows new_entries w,
       exists es,
         fst (resolve_rows (S depth) rows new_entries w) = Ok es)).
Proof.
  split; [| split; [| split; [| split; [| split; [| split; [| split]]]]]].
  - intros depth isbn w e H.
    apply fetch_book_summary_raise in H as [H | H]; discriminate.
  - intros depth rows new_entries w e H.
    apply resolve_rows_raise in H as [H | H]; discriminate.
  - intros w. unfold search_path. rewrite search_attempts_run.
    eexists; split; [reflexivity |].
    set (n := search_sent w).
    assert (H2 : forall st,
               filter failure_warning
                 (attempt_events title author 2 (search_api (S (S n))) ++
                  match attempt_flow title author st (search_api (S (S n)))
                  with
                  | Ok (Continue _) => []
                  | _ => []
                  end) =
               match failure_of (search_api (n + 2)) with
               | Some e => failure_warnings title 2 e
               | None => []
               end).
    { intros st. replace (n + 2)%nat with (S (S n)) by lia.
      rewrite filter_app, attempt_events_warnings.
      destruct (attempt_flow _ _ _ _) as [[?|?]|?]; simpl;
        now rewrite app_nil_r. }
    assert (Hall :
              filter failure_warning
                (search_events title author (seq 0 RETRY_COUNT) n no_match) = [] \/
              filter failure_warning
                (search_events title author (seq 0 RETRY_COUNT) n no_match) =
              match failure_of (search_api (n + 2)) with
              | Some e => failure_warnings title 2 e
              | None => []
              end).
    { cbn [seq RETRY_COUNT search_events].
      rewrite filter_app, attempt_events_warnings.
      replace (match failure_of (search_api n) with
               | Some e => failure_warnings title 0 e
               | None => []
               end) with (@nil event)
        by (destruct (failure_of (search_api n)); reflexivity).
      destruct (attempt_flow title author no_match (search_api n))
        as [[? | st1] | ?]; [now left | | now left].
      cbn [app]. rewrite filter_app, attempt_events_warnings.
      replace (match failure_of (search_api (S n)) with
               | Some e => failure_warnings title 1 e
               | None => []
               end) with (@nil event)
        by (destruct (failure_of (search_api (S n))); reflexivity).
      destruct (attempt_flow title author st1 (search_api (S n)))
        as [[? | st2] | ?]; [now left | | now left].
      right. apply H2. }
    destruct Hall as [-> | ->]; [simpl; split; [lia | congruence] |].
    destruct (failure_of (search_api (n + 2))) as [e |];
      [| simpl; split; [lia | congruence]].
    split; [apply failure_warnings_one | discriminate].
  - intros w e0 e1 e2 H0 H1 H2. unfold search_path.
    rewrite search_attempts_run. cbn [seq RETRY_COUNT].
    rewrite Nat.add_1_r in H1.
    replace (search_sent w + 2)%nat with (S (S (search_sent w))) in H2 by lia.
    cbn [search_flow search_events requests_made].
    destruct (failed_attempt title author 0 no_match _ _ H0) as [-> ->].
    destruct (failed_attempt title author 1 no_match _ _ H1) as [-> ->].
    destruct (failed_attempt title author 2 no_match _ _ H2) as [-> ->].
    rewrite !failure_warnings_early by (simpl; lia).
    simpl. rewrite app_nil_r. reflexivity.
  - intros w Hun. unfold search_path. rewrite search_attempts_run.
    destruct (search_flow_unscored title author (seq 0 RETRY_COUNT)
                (search_sent w) no_match) as [Hf Hr].
    + rewrite length_seq. exact Hun.
    + cbn [fst snd search_sent]. rewrite Hr, length_seq.
      split; [exact Hf | reflexivity].
  - intros w Hwf Hnone. rewrite search_path_result.
    apply search_flow_exhaust; rewrite length_seq; assumption.
  - intros depth isbn w e. apply fetch_book_summary_raise.
  - intros Hwf Hfree. split.
    + intros depth isbn w. now apply fetch_book_summary_returns.
    + intros depth rows new_entries w. now apply resolve_rows_returns.
Qed.

(** ** What reaches the cache (lines 281-304) *)

(** An entry of a successful resolution. *)
Definition successful (e : entry) : Prop :=
  summary e <> "" /\
  (entry_source e = isbn_search \/ entry_source e = title_search).

Lemma truthy_nonempty (s : string) : Str.truthy s = true <-> s <> "".
Proof. destruct s; simpl; split; congruence. Qed.

Lemma search_flow_result (title : string) (author : option string)
  (attempts : list nat) :
  forall n st r src,
    search_flow title author attempts n st = Ok (r, src) ->
    (r = None /\ src = not_found) \/
    (exists s, r = Some s /\ Str.truthy s = true /\ src = title_search).
Proof.
  induction attempts as [|attempt rest IH]; intros n st r src; simpl.
  - intros [= <- <-]; now left.
  - rewrite attempt_flow_scored.
    destruct (scorable (search_api n)); [| apply IH].
    destruct (well_formed (search_api n)); [| discriminate].
    destruct (accepted_description _) as [text |] eqn:E; [| apply IH].
    intros [= <- <-]; right. exists text; repeat split.
    unfold accepted_description in E.
    destruct (good_match _); [| discriminate].
    destruct (snd _); [| discriminate].
    now apply truncate_description_truthy in E.
Qed.

(** The two shapes of a result: a summary with the label of the path that
    found it, or nothing with [not_found]. *)
Lemma fetch_book_summary_result (depth : nat) (title : string)
  (author : option string) (isbn : option string) (w w' : world)
  (r : option string) (src : source) :
  fetch_book_summary depth title author isbn w = (Ok (r, src), w') ->
  (r = None /\ src = not_found) \/
  (exists s, r = Some s /\ Str.truthy s = true /\
             (src = isbn_search \/ src = title_search)).
Proof.
  assert (Hsearch : forall w1,
             search_path title author w1 = (Ok (r, src), w') ->
             (r = None /\ src = not_found) \/
             (exists s, r = Some s /\ Str.truthy s = true /\
                        (src = isbn_search \/ src = title_search))).
  { intros w1 H. apply (f_equal fst) in H. rewrite search_path_result in H.
    apply search_flow_result in H as [H | (s & -> & Hs & ->)]; [now left |].
    right; eauto. }
  destruct (opt_truthy isbn) eqn:Hi.
  - rewrite fetch_book_summary_isbn by exact Hi.
    destruct (fetch_by_isbn depth isbn w) as [[[d |] | e] w1] eqn:E.
    + apply fetch_by_isbn_effects in E as (_ & _ & _ & Hd).
      intros [= <- <- <-]; right; eauto.
    + apply Hsearch.
    + discriminate.
  - rewrite fetch_book_summary_no_isbn by exact Hi. apply Hsearch.
Qed.

(** ** Descriptions (lines 155-164 and 231-239) *)

(** The match kept after a reply is the one kept before or a document of
    the reply. *)
Lemma score_docs_pick (title : string) (author : option string)
  (ds : list doc) :
  forall st,
    snd (score_docs title author ds st) = snd st \/
    exists d, In d ds /\ snd (score_docs title author ds st) = Some d.
Proof.
  unfold score_docs.
  induction ds as [|x ds IH]; intros st; simpl; [now left |].
  destruct (IH (score_doc title author st x)) as [H | (d & Hd & H)].
  - rewrite H. unfold score_doc.
    destruct (PrimFloat.ltb (fst st) (combined_score title author x));
      [right; exists x; split; [now left | reflexivity] | now left].
  - right. exists d. split; [now right | exact H].
Qed.

Lemma accepted_description_text (st : best) (text : string) :
  accepted_description st = Some text ->
  exists d, snd st = Some d /\
            text = Str.take 2000 (normalize_description (doc_description d)) /\
            text <> "".
Proof.
  unfold accepted_description. intros H.
  destruct (good_match st); [| discriminate].
  destruct (snd st) as [d |]; [| discriminate].
  apply truncate_description_truthy in H as (_ & -> & Ht).
  exists d. repeat split; try reflexivity.
  intros E. unfold DESCRIPTION_LIMIT in *. rewrite E in Ht. discriminate.
Qed.

(** A description the loop returns is the normal form, cut to 2000
    characters, of a document of one of the replies it scored. *)
Lemma search_flow_text (title : string) (author : option string)
  (attempts : list nat) :
  forall n st text src,
    search_flow title author attempts n st = Ok (Some text, src) ->
    src = title_search /\ text <> "" /\
    exists d,
      (snd st = Some d \/ In d (seen_docs n (List.length attempts))) /\
      text = Str.take 2000 (normalize_description (doc_description d)).
Proof.
  induction attempts as [|attempt rest IH]; intros n st text src;
    [discriminate |].
  cbn [search_flow List.length seen_docs]. rewrite attempt_flow_scored.
  assert (Hrest : forall st',
             (forall d, snd st' = Some d ->
                        snd st = Some d \/ In d (scored_docs (search_api n))) ->
             search_flow title author rest (S n) st' = Ok (Some text, src) ->
             src = title_search /\ text <> "" /\
             exists d,
               (snd st = Some d \/
                In d (scored_docs (search_api n) ++
                      seen_docs (S n) (List.length rest))) /\
               text = Str.take 2000 (normalize_description (doc_description d))).
  { intros st' Hst' H. apply IH in H as (Hsrc & Hne & d & Hd & Ht).
    split; [exact Hsrc |]. split; [exact Hne |]. exists d.
    split; [| exact Ht]. rewrite in_app_iff.
    destruct Hd as [Hd | Hd]; [| tauto].
    destruct (Hst' d Hd); tauto. }
  destruct (scorable (search_api n)); [| apply Hrest; tauto].
  destruct (well_formed (search_api n)); [| discriminate].
  assert (Hpick : forall d,
             snd (score_docs title author (scored_docs (search_api n)) st) =
             Some d ->
             snd st = Some d \/ In d (scored_docs (search_api n))).
  { intros d Hd.
    destruct (score_docs_pick title author (scored_docs (search_api n)) st)
      as [H | (d' & Hin & H)]; rewrite H in Hd.
    - now left.
    - injection Hd as <-. now right. }
  destruct (accepted_description _) as [t |] eqn:E; [| now apply Hrest].
  intros [= <- <-].
  apply accepted_description_text in E as (d & Hd & Ht & Hne).
  split; [reflexivity |]. split; [exact Hne |]. exists d.
  split; [| exact Ht]. rewrite in_app_iff. destruct (Hpick d Hd); tauto.
Qed.

(** When every document scored has an empty normal form, the loop
    returns nothing. *)
Lemma search_flow_empty (title : string) (author : option string)
  (attempts : list nat) :
  forall n st,
    (forall d, snd st = Some d ->
               normalize_description (doc_description d) = "") ->
    (forall j, (j < List.length attempts)%nat ->
               scorable (search_api (n + j)) = true ->
               well_formed (search_api (n + j)) = true) ->
    (forall d, In d (seen_docs n (List.length attempts)) ->
               normalize_description (doc_description d) = "") ->
    search_flow title author attempts n st = Ok (None, not_found).
Proof.
  induction attempts as [|attempt rest IH]; intros n st Hst Hwf Hds;
    [reflexivity |].
  cbn [search_flow List.length seen_docs] in *. rewrite attempt_flow_scored.
  assert (Hrest : forall st',
             (forall d, snd st' = Some d ->
                        normalize_description (doc_description d) = "") ->
             search_flow title author rest (S n) st' = Ok (None, not_found)).
  { intros st' Hst'. apply IH; [exact Hst' | |].
    - intros j Hj. rewrite Nat.add_succ_comm. apply Hwf. lia.
    - intros d Hd. apply Hds, in_or_app. now right. }
  destruct (scorable (search_api n)) eqn:Hsc; [| now apply Hrest].
  assert (Hw : well_formed (search_api n) = true)
    by (rewrite <- (Nat.add_0_r n); apply Hwf;
        [lia | now rewrite Nat.add_0_r]).
  rewrite Hw.
  assert (Hst' : forall d,
             snd (score_docs title author (scored_docs (search_api n)) st) =
             Some d ->
             normalize_description (doc_description d) = "").
  { intros d Hd.
    destruct (score_docs_pick title author (scored_docs (search_api n)) st)
      as [H | (d' & Hin & H)]; rewrite H in Hd.
    - now apply Hst.
    - injection Hd as <-. apply Hds, in_or_app. now left. }
  destruct (accepted_description _) as [t |] eqn:E; [| now apply Hrest].
  apply accepted_description_text in E as (d & Hd & Ht & Hne).
  elim Hne. rewrite Ht, (Hst' d Hd). reflexivity.
Qed.

(** The attempts before the first scored reply score nothing. *)
Lemma seen_docs_unscored (k : nat) :
  forall n,
    (forall j, (j < k)%nat -> scorable (search_api (n + j)) = false) ->
    seen_docs n k = [].
Proof.
  induction k as [|k IH]; intros n H; [reflexivity |].
  cbn [seen_docs]. rewrite scored_docs_unscorable.
  - apply IH. intros j Hj. rewrite Nat.add_succ_comm. apply H. lia.
  - rewrite <- (Nat.add_0_r n). apply H. lia.
Qed.

(** C4. Description normalisation: a plain string is kept, an object gives
    its [value], a list is joined with single spaces.  [fetch_by_isbn]
    returns the normal form of a successful reply cut to its first 2000
    characters (whole when it is no longer), or [None] when it is empty.
    The search path returns the normal form of the match it accepts in
    the first reply it scores, cut the same way; whatever text it returns
    is such a cut of a document it scored and is not empty; and when
    every scored document has an empty normal form it returns
    [(None, not_found)]. *)
Theorem description_normalization :
  (forall s, normalize_description (DescStr s) = s) /\
  (forall s, normalize_description (DescDict (Some s)) = s) /\
  (forall parts, normalize_description (DescList parts) = Str.join " " parts) /\
  (forall depth i w status_code d,
      Str.truthy i = true ->
      isbn_api (isbn_sent w) = Reply status_code d ->
      success_status status_code = true ->
      fst (fetch_by_isbn (S depth) (Some i) w) =
      Ok (if String.eqb (normalize_description d) ""
          then None
          else Some (Str.take 2000 (normalize_description d)))) /\
  (forall s, (String.length (Str.take 2000 s) <= 2000)%nat /\
             String.prefix (Str.take 2000 s) s = true /\
             ((String.length s <= 2000)%nat -> Str.take 2000 s = s)) /\
  (forall title author w k status_code data ds score d,
      (k < RETRY_COUNT)%nat ->
      (forall j, (j < k)%nat ->
                 scorable (search_api (search_sent w + j)) = false) ->
      search_api (search_sent w + k) = Reply status_code data ->
      success_status status_code = true ->
      (match numFound data with Some n => n | None => 0 end) <> 0 ->
      docs data = Some ds ->
      score_docs title author ds no_match = (score, Some d) ->
      PrimFloat.leb 75%float score = true ->
      normalize_description (doc_description d) <> "" ->
      fst (search_path title author w) =
      Ok (Some (Str.take 2000 (normalize_description (doc_description d))),
          title_search)) /\
  (forall title author w text src,
      fst (search_path title author w) = Ok (Some text, src) ->
      src = title_search /\ text <> "" /\
      exists d,
        In d (seen_docs (search_sent w) RETRY_COUNT) /\
        text = Str.take 2000 (normalize_description (doc_description d))) /\
  (forall title author w,
      (forall j, (j < RETRY_COUNT)%nat ->
                 scorable (search_api (search_sent w + j)) = true ->
                 well_formed (search_api (search_sent w + j)) = true) ->
      (forall d, In d (seen_docs (search_sent w) RETRY_COUNT) ->
                 normalize_description (doc_description d) = "") ->
      fst (search_path title author w) = Ok (None, not_found)).
Proof.
  split; [reflexivity |]. split; [reflexivity |]. split; [reflexivity |].
  split; [| split; [| split; [| split]]].
  - intros depth i w status_code d Hi Hr Hs.
    rewrite (fetch_by_isbn_success depth i w status_code d Hi Hr Hs).
    unfold truncate_description, DESCRIPTION_LIMIT; simpl fst.
    now destruct (normalize_description d).
  - intros s. split; [apply take_length |].
    split; [apply take_prefix | apply take_all].
  - intros title author w k status_code data ds score d Hk Hun Hr Hs Hn
      Hdocs Hbest Hscore Hdesc.
    rewrite search_path_result.
    assert (Hsc : scorable (search_api (search_sent w + k)) = true).
    { rewrite Hr. unfold scorable. rewrite Hs. simpl.
      now apply negb_true_iff, Z.eqb_neq. }
    assert (Hds : scored_docs (search_api (search_sent w + k)) = ds).
    { unfold scored_docs. rewrite Hsc, Hr. now rewrite Hdocs. }
    assert (Hseen : forall j, (j <= k)%nat ->
                              seen_docs (search_sent w) j = []).
    { intros j Hj. apply seen_docs_unscored. intros i Hi. apply Hun. lia. }
    assert (Hlast : seen_docs (search_sent w) (S k) = ds).
    { clear - Hseen Hds. revert Hseen Hds. generalize (search_sent w).
      induction k as [|k IH]; intros n Hseen Hds.
      - cbn [seen_docs]. rewrite Nat.add_0_r in Hds.
        now rewrite Hds, app_nil_r.
      - cbn [seen_docs].
        assert (H1 : scored_docs (search_api n) = []).
        { specialize (Hseen 1%nat ltac:(lia)). cbn [seen_docs] in Hseen.
          now apply app_eq_nil in Hseen. }
        rewrite H1. cbn [app]. apply IH.
        + intros j Hj. specialize (Hseen (S j) ltac:(lia)).
          cbn [seen_docs] in Hseen. rewrite H1 in Hseen. exact Hseen.
        + now rewrite Nat.add_succ_comm. }
    apply (search_flow_accept title author k).
    + simpl; exact Hk.
    + intros j Hj Hscj.
      destruct (Nat.eq_dec j k) as [-> | ne].
      * rewrite Hr. unfold well_formed. now rewrite Hdocs.
      * rewrite Hun in Hscj by lia. discriminate Hscj.
    + apply below_threshold_rejected, no_match_below.
    + intros j Hj. rewrite Hseen by lia.
      apply below_threshold_rejected, no_match_below.
    + rewrite Hlast.
      unfold accepted_description, good_match. rewrite Hbest. simpl.
      rewrite Hscore. simpl.
      assert (Ht : Str.truthy (normalize_description (doc_description d)) = true)
        by (destruct (normalize_description (doc_description d));
            [congruence | reflexivity]).
      assert (Hd : doc_truthy d = true).
      { unfold doc_truthy. destruct (doc_description d); simpl in *;
          [congruence | | |]; now destruct (doc_title d), (doc_author_name d). }
      rewrite Hd. unfold truncate_description. now rewrite Ht.
  - intros title author w text src. rewrite search_path_result. intros H.
    apply search_flow_text in H as (Hsrc & Hne & d & Hd & Ht).
    split; [exact Hsrc |]. split; [exact Hne |]. exists d.
    split; [| exact Ht]. rewrite length_seq in Hd.
    destruct Hd as [Hd | Hd]; [discriminate | exact Hd].
  - intros title author w Hwf Hds. rewrite search_path_result.
    apply search_flow_empty.
    + discriminate.
    + rewrite length_seq. exact Hwf.
    + rewrite length_seq. exact Hds.
Qed.

(** The result of every row of the batch, in order, up to the first
    exception. *)
Fixpoint resolutions (depth : nat) (rows : list book) (w : world)
  : list (book * result (option string * source)) :=
  match rows with
  | [] => []
  | row :: rest =>
      let (r, w1) := fetch_book_summary depth (title row) (Some (authors row))
                                        (isbn row) w in
      (row, r) ::
      match r with
      | Ok _ => resolutions depth rest w1
      | Raise _ => []
      end
  end.

(** The entries one resolved row adds. *)
Definition entries_of (p : book * result (option string * source))
  : list entry :=
  match snd p with
  | Ok r => append_entry (fst p) r []
  | Raise _ => []
  end.

Lemma append_entry_app (row : book) (r : option string * source)
  (new_entries : list entry) :
  append_entry row r new_entries = new_entries ++ append_entry row r [].
Proof.
  unfold append_entry. destruct (fst r) as [s |]; [| now rewrite app_nil_r].
  destruct (Str.truthy s); [reflexivity | now rewrite app_nil_r].
Qed.

Lemma resolve_rows_resolutions (depth : nat) (rows : list book) :
  forall new_entries w es w',
    resolve_rows depth rows new_entries w = (Ok es, w') ->
    es = new_entries ++ flat_map entries_of (resolutions depth rows w).
Proof.
  induction rows as [|row rest IH]; intros new_entries w es w'; simpl.
  - unfold ret. intros [= <- <-]. now rewrite app_nil_r.
  - unfold bind.
    destruct (fetch_book_summary depth (title row) (Some (authors row))
                (isbn row) w) as [[r | e] w1]; [| discriminate].
    intros H. apply IH in H. rewrite H, append_entry_app, <- app_assoc.
    reflexivity.
Qed.

Lemma resolve_rows_cache_file (depth : nat) (rows : list book) :
  forall new_entries w,
    cache_file (snd (resolve_rows depth rows new_entries w)) = cache_file w.
Proof.
  assert (Hsearch : forall t a w1,
             cache_file (snd (search_path t a w1)) = cache_file w1)
    by (intros; apply search_path_effects).
  induction rows as [|row rest IH]; intros new_entries w; simpl;
    [reflexivity |].
  unfold bind.
  destruct (fetch_book_summary depth (title row) (Some (authors row))
              (isbn row) w) as [r w1] eqn:E.
  assert (Hc : cache_file w1 = cache_file w).
  { apply (f_equal snd) in E. simpl in E. subst w1.
    destruct (opt_truthy (isbn row)) eqn:Hi.
    - rewrite fetch_book_summary_isbn by exact Hi.
      destruct (fetch_by_isbn depth (isbn row) w) as [[[d |] | e] w2] eqn:E2;
        apply fetch_by_isbn_effects in E2 as (_ & Hc & _); simpl;
        [exact Hc | now rewrite Hsearch | exact Hc].
    - rewrite fetch_book_summary_no_isbn by exact Hi. apply Hsearch. }
  destruct r as [r | e]; simpl; [now rewrite IH | exact Hc].
Qed.

(** Every entry a resolved row adds comes from a summary that is not
    empty, with the label of its path. *)
Lemma resolutions_entries (depth : nat) (rows : list book) :
  forall w e,
    In e (flat_map entries_of (resolutions depth rows w)) ->
    successful e /\
    exists row, In row rows /\ entry_book_id e = book_id row /\
                In (row, Ok (Some (summary e), entry_source e))
                   (resolutions depth rows w).
Proof.
  induction rows as [|row rest IH]; intros w e; simpl; [tauto |].
  destruct (fetch_book_summary depth (title row) (Some (authors row))
              (isbn row) w) as [[[r src] | e'] w1] eqn:E; simpl.
  - rewrite in_app_iff. intros [H | H].
    + unfold entries_of, append_entry in H. simpl in H.
      apply fetch_book_summary_result in E
        as [(-> & ->) | (s & -> & Hs & Hsrc)]; [destruct H |].
      rewrite Hs in H. destruct H as [<- | []]. simpl.
      split; [split; [now apply truthy_nonempty | exact Hsrc] |].
      exists row; auto.
    + apply IH in H as (Hok & row' & Hin & Hid & Hres).
      split; [exact Hok |]. exists row'; auto.
  - unfold entries_of. simpl. tauto.
Qed.

Lemma resolutions_rows (depth : nat) (rows : list book) :
  forall w row r, In (row, r) (resolutions depth rows w) -> In row rows.
Proof.
  induction rows as [|x rest IH]; intros w row r; simpl; [tauto |].
  destruct (fetch_book_summary depth (title x) (Some (authors x)) (isbn x) w)
    as [[res | e] w1]; simpl.
  - intros [[= <- <-] | H]; [now left | right; eapply IH; eassumption].
  - intros [[= <- <-] | []]; now left.
Qed.

(** With distinct [book_id]s a row has one result. *)
Lemma resolutions_functional (depth : nat) (rows : list book) :
  forall w row1 row2 r1 r2,
    NoDup (map book_id rows) ->
    In (row1, r1) (resolutions depth rows w) ->
    In (row2, r2) (resolutions depth rows w) ->
    book_id row1 = book_id row2 ->
    r1 = r2.
Proof.
  induction rows as [|x rest IH]; intros w row1 row2 r1 r2 Hnd; simpl;
    [tauto |].
  inversion Hnd as [| id ids Hx Hrest]; subst.
  assert (Htail : forall w1 row r,
             In (row, r) (resolutions depth rest w1) ->
             book_id row <> book_id x).
  { intros w1 row r H E. apply resolutions_rows in H.
    apply Hx. rewrite <- E. now apply in_map. }
  destruct (fetch_book_summary depth (title x) (Some (authors x)) (isbn x) w)
    as [[res | e] w1]; simpl.
  - intros [[= <- <-] | H1] [[= <- <-] | H2] E.
    + reflexivity.
    + symmetry in E. now apply Htail in H2.
    + now apply Htail in H1.
    + eapply IH; eassumption.
  - intros [[= <- <-] | []] [[= <- <-] | []] _. reflexivity.
Qed.

Lemma NoDup_map_filter (f : book -> bool) (rows : list book) :
  NoDup (map book_id rows) -> NoDup (map book_id (filter f rows)).
Proof.
  induction rows as [|x rest IH]; simpl; intros H; [constructor |].
  inversion H as [| id ids Hx Hrest]; subst.
  destruct (f x); simpl; [| now apply IH].
  constructor; [| now apply IH].
  intros Hin. apply Hx. apply in_map_iff in Hin as (y & E & Hy).
  apply filter_In in Hy as [Hy _]. rewrite <- E. now apply in_map.
Qed.

(** The batch is drawn from the remaining rows and repeats no [book_id]
    that the catalog does not repeat. *)
Lemma books_to_process_sample (books_df : list book) (cache_df : list entry)
  (max_summaries : Z) :
  (forall b, In b (books_to_process books_df cache_df max_summaries) ->
             In b (remaining_books books_df cache_df)) /\
  (NoDup (map book_id books_df) ->
   NoDup (map book_id (books_to_process books_df cache_df max_summaries))).
Proof.
  unfold books_to_process.
  set (remaining := remaining_books books_df cache_df).
  set (n := Z.to_nat _).
  assert (Hn : (n <= List.length remaining)%nat) by (subst n; lia).
  destruct (sample_without_replacement remaining n Hn) as [_ [rest Hperm]].
  split.
  - intros b Hb. eapply Permutation_in; [exact Hperm |].
    apply in_or_app; now left.
  - intros Hnd.
    assert (H : NoDup (map book_id (sample remaining n ++ rest))).
    { eapply Permutation_NoDup;
        [apply Permutation_map, Permutation_sym, Hperm |].
      now apply NoDup_map_filter. }
    rewrite map_app in H. now apply NoDup_app_remove_r in H.
Qed.

Lemma save_and_join_cache (books_df : list book) (cache_df es : list entry)
  (w : world) :
  loaded_cache (snd (save_and_join books_df cache_df es w)) =
  match es with
  | [] => loaded_cache w
  | _ :: _ => updated_cache cache_df es
  end.
Proof.
  unfold save_and_join, loaded_cache; run.
  destruct es as [|e es]; simpl; [now destruct (cache_file w) |].
  reflexivity.
Qed.

(** Where the entries of the cache file come from after a run. *)
Lemma process_cache_entries (depth : nat) (books_df : list book)
  (max_summaries : Z) (w : world) (e : entry) :
  In e (loaded_cache
          (snd (process_book_summaries depth books_df max_summaries w))) ->
  In e (loaded_cache w) \/
  In e (flat_map entries_of
          (resolutions depth
             (books_to_process books_df (loaded_cache w) max_summaries) w)).
Proof.
  unfold process_book_summaries, bind at 1. rewrite load_cache_run.
  destruct (max_summaries <=? Z.of_nat (List.length (loaded_cache w)));
    [now left |].
  unfold bind.
  set (batch := books_to_process books_df (loaded_cache w) max_summaries).
  assert (Hc := resolve_rows_cache_file depth batch [] w).
  destruct (resolve_rows depth batch [] w) as [[es | e'] w1] eqn:E;
    simpl in Hc.
  - rewrite save_and_join_cache.
    apply resolve_rows_resolutions in E. simpl in E.
    destruct es as [|x es].
    + unfold loaded_cache. rewrite Hc. now left.
    + rewrite <- E. unfold updated_cache, drop_duplicates. intros H.
      apply drop_duplicates_from_incl, in_app_or in H. exact H.
  - simpl. unfold loaded_cache. rewrite Hc. now left.
Qed.

(** C10. Only successful resolutions are cached: a result
    [(None, not_found)] adds no entry; every new entry has a summary that
    is not empty and the label [isbn_search] or [title_search]; a cache
    file that holds only such entries still does after the run, so the
    label [not_found] never reaches it; and a row of the batch resolved as
    [not_found] is among the remaining rows of the next run. *)
Theorem only_successes_cached (depth : nat) (books_df : list book)
  (max_summaries : Z) (w : world) :
  let batch := books_to_process books_df (loaded_cache w) max_summaries in
  let w' := snd (process_book_summaries depth books_df max_summaries w) in
  (forall row new_entries,
      append_entry row (None, not_found) new_entries = new_entries) /\
  (forall es w1,
      resolve_rows depth batch [] w = (Ok es, w1) -> Forall successful es) /\
  (Forall successful (loaded_cache w) ->
   Forall successful (loaded_cache w') /\
   forall e, In e (loaded_cache w') -> entry_source e <> not_found) /\
  (forall b,
      NoDup (map book_id books_df) ->
      In (b, Ok (None, not_found)) (resolutions depth batch w) ->
      In b (remaining_books books_df (loaded_cache w'))).
Proof.
  cbv zeta.
  set (batch := books_to_process books_df (loaded_cache w) max_summaries).
  assert (Hkept : Forall successful (loaded_cache w) ->
                  Forall successful
                    (loaded_cache
                       (snd (process_book_summaries depth books_df
                               max_summaries w)))).
  { intros Hold. apply Forall_forall. intros e He.
    apply process_cache_entries in He as [He | He].
    - rewrite Forall_forall in Hold. now apply Hold.
    - now apply resolutions_entries in He as [He _]. }
  split; [reflexivity |]. split; [| split].
  - intros es w1 H. apply resolve_rows_resolutions in H. simpl in H.
    subst es. apply Forall_forall. intros e He.
    now apply resolutions_entries in He as [He _].
  - intros Hold. split; [now apply Hkept |].
    intros e He. specialize (Hkept Hold). rewrite Forall_forall in Hkept.
    destruct (Hkept e He) as [_ [H | H]]; rewrite H; discriminate.
  - intros b Hnd Hb.
    destruct (books_to_process_sample books_df (loaded_cache w) max_summaries)
      as [Hsub Hbatch].
    specialize (Hbatch Hnd). fold batch in Hsub, Hbatch.
    assert (Hrem : In b (remaining_books books_df (loaded_cache w)))
      by (apply Hsub; eapply resolutions_rows; eassumption).
    apply remaining_books_In in Hrem as [Hin Hnew].
    apply remaining_books_In. split; [exact Hin |].
    intros Hid. apply in_map_iff in Hid as (e & Heid & He).
    apply process_cache_entries in He as [He | He].
    + apply Hnew. rewrite <- Heid. now apply in_map.
    + fold batch in He.
      apply resolutions_entries in He as (_ & row & _ & Hrow & Hres).
      assert (E : Ok (Some (summary e), entry_source e) =
                  Ok (None, not_found) :> result (option string * source)).
      { eapply (resolutions_functional depth batch w row b);
          [exact Hbatch | exact Hres | exact Hb | congruence]. }
      discriminate.
Qed.

(** ** Author similarity (lines 184-187 and 221-222) *)

(** C2. For a query author that names two people the request is made with
    the first name only, but the author score compares the whole string
    with each name of the candidate; the combined score is
    [0.7 * title_score + 0.3 * author_score]. *)
Theorem multi_author_score (t : option string) (desc : description) :
  let author := "frank herbert, brian herbert" in
  let d := mkDoc t (Some ["Frank Herbert"]) desc in
  param_author (make_params "Dune" (Some author)) = Some "frank herbert" /\
  author_score (Some author) d = ratio (lower author) (lower "Frank Herbert") /\
  combined_score "Dune" (Some author) d =
  PrimFloat.add
    (PrimFloat.mul 0.7%float (float_of_Z (title_score "Dune" d)))
    (PrimFloat.mul 0.3%float
       (float_of_Z (ratio (lower author) (lower "Frank Herbert")))).
Proof. cbv zeta. repeat split. Qed.

(** * Further properties *)

(** ** The order of floats *)

Lemma SFcompare_lt_trans (a b c : SpecFloat.spec_float) :
  SpecFloat.SFcompare a b = Some Lt ->
  SpecFloat.SFcompare b c = Some Lt ->
  SpecFloat.SFcompare a c = Some Lt.
Proof.
  destruct a as [sa | sa | | sa ma ea], b as [sb | sb | | sb mb eb],
    c as [sc | sc | | sc mc ec]; simpl; try discriminate;
    repeat match goal with s : bool |- _ => destruct s end;
    try discriminate; try reflexivity;
    rewrite <- ?Pos.compare_cont_spec;
    fold (Pos.compare ma mb) (Pos.compare mb mc) (Pos.compare ma mc);
    destruct (Z.compare_spec ea eb), (Z.compare_spec eb ec),
      (Z.compare_spec ea ec);
    subst; try lia; try discriminate; try reflexivity;
    destruct (Pos.compare_spec ma mb), (Pos.compare_spec mb mc),
      (Pos.compare_spec ma mc);
    simpl; subst; try lia; try discriminate; try reflexivity.
Qed.

(** For [x] that is not a NaN: [b] not below [x] and [b] below [d] put [x]
    below [d]. *)
Lemma SFcompare_le_lt (x b d : SpecFloat.spec_float) :
  SpecFloat.SFcompare x x = Some Eq ->
  SpecFloat.SFcompare b x <> Some Lt ->
  SpecFloat.SFcompare b d = Some Lt ->
  SpecFloat.SFcompare x d = Some Lt.
Proof.
  destruct x as [sa | sa | | sa ma ea], b as [sb | sb | | sb mb eb],
    d as [sc | sc | | sc mc ec]; simpl; try discriminate; try congruence;
    repeat match goal with s : bool |- _ => destruct s end;
    try discriminate; try reflexivity; try congruence;
    rewrite <- ?Pos.compare_cont_spec;
    fold (Pos.compare ma mb) (Pos.compare mb mc) (Pos.compare ma mc)
         (Pos.compare mb ma);
    intros _;
    destruct (Z.compare_spec eb ea), (Z.compare_spec eb ec),
      (Z.compare_spec ea ec);
    subst; try lia; try discriminate; try reflexivity; try congruence;
    destruct (Pos.compare_spec mb ma), (Pos.compare_spec mb mc),
      (Pos.compare_spec ma mc);
    simpl; subst; try lia; try discriminate; try reflexivity; try congruence.
Qed.

Lemma SFcompare_irrefl (a : SpecFloat.spec_float) :
  SpecFloat.SFcompare a a <> Some Lt.
Proof.
  destruct a as [sa | sa | | sa ma ea]; simpl; try discriminate;
    destruct sa; try discriminate;
    rewrite Z.compare_refl, <- ?Pos.compare_cont_spec;
    fold (Pos.compare ma ma); rewrite Pos.compare_refl; discriminate.
Qed.

Lemma ltb_Lt (a b : float) :
  PrimFloat.ltb a b = true <->
  SpecFloat.SFcompare (FloatOps.Prim2SF a) (FloatOps.Prim2SF b) = Some Lt.
Proof.
  rewrite FloatAxioms.ltb_spec. unfold SpecFloat.SFltb.
  destruct (SpecFloat.SFcompare _ _) as [[| |] |]; split; congruence.
Qed.

Lemma eqb_Eq (a : float) :
  PrimFloat.eqb a a = true <->
  SpecFloat.SFcompare (FloatOps.Prim2SF a) (FloatOps.Prim2SF a) = Some Eq.
Proof.
  rewrite FloatAxioms.eqb_spec. unfold SpecFloat.SFeqb.
  destruct (SpecFloat.SFcompare _ _) as [[| |] |]; split; congruence.
Qed.

Lemma ltb_trans (a b c : float) :
  PrimFloat.ltb a b = true -> PrimFloat.ltb b c = true ->
  PrimFloat.ltb a c = true.
Proof. rewrite !ltb_Lt. apply SFcompare_lt_trans. Qed.

Lemma ltb_irrefl (a : float) : PrimFloat.ltb a a = false.
Proof.
  destruct (PrimFloat.ltb a a) eqn:E; [| reflexivity].
  apply ltb_Lt in E. now apply SFcompare_irrefl in E.
Qed.

Lemma ltb_le_lt (x b d : float) :
  PrimFloat.eqb x x = true ->
  PrimFloat.ltb b x = false -> PrimFloat.ltb b d = true ->
  PrimFloat.ltb x d = true.
Proof.
  rewrite eqb_Eq, !ltb_Lt. intros Hx Hbx Hbd.
  apply (SFcompare_le_lt _ (FloatOps.Prim2SF b)); [exact Hx | | exact Hbd].
  intros H. apply ltb_Lt in H. congruence.
Qed.

(** A weighted score of two percentages is a number. *)
Lemma weighted_number (t a : Z) :
  0 <= t <= 100 -> 0 <= a <= 100 ->
  PrimFloat.eqb (weighted t a) (weighted t a) = true.
Proof.
  intros Ht Ha.
  assert (H : forallb
                (fun t => forallb
                   (fun a => PrimFloat.eqb (weighted t a) (weighted t a))
                   percentages) percentages = true)
    by (vm_compute; reflexivity).
  exact (percentages_forall2 _ H t a Ht Ha).
Qed.

Lemma combined_score_number (title : string) (author : option string)
  (d : doc) :
  PrimFloat.eqb (combined_score title author d)
                (combined_score title author d) = true.
Proof.
  apply weighted_number; [apply title_score_range | apply author_score_range].
Qed.

(** ** Selection of the best match (lines 216-227) *)

Lemma score_docs_snoc (title : string) (author : option string)
  (ds : list doc) (d : doc) (st : best) :
  score_docs title author (ds ++ [d]) st =
  score_doc title author (score_docs title author ds st) d.
Proof. unfold score_docs. now rewrite fold_left_app. Qed.

(** X1. Over any list of candidates the loop of lines 216-227, entered
    with the initial [best_score] 0 and no match, keeps a highest score:
    no candidate scores above the kept [best_score]; if a
    match is kept it is a candidate of the list, [best_score] is its
    combined score, every candidate before it scores strictly less (ties
    keep the first) and its score is positive; if none is kept no
    candidate scores above 0. *)
Theorem best_match_selection (title : string) (author : option string)
  (ds : list doc) :
  let st := score_docs title author ds no_match in
  (forall x, In x ds ->
             PrimFloat.ltb (fst st) (combined_score title author x) = false) /\
  match snd st with
  | Some d =>
      fst st = combined_score title author d /\
      PrimFloat.ltb 0%float (fst st) = true /\
      exists before after,
        ds = before ++ d :: after /\
        forall x, In x before ->
                  PrimFloat.ltb (combined_score title author x)
                                (combined_score title author d) = true
  | None => fst st = 0%float
  end.
Proof.
  cbv zeta. induction ds as [|d ds IH] using rev_ind.
  - simpl. split; [intros x [] | reflexivity].
  - rewrite score_docs_snoc.
    destruct IH as [Hmax Hkept].
    set (st := score_docs title author ds no_match) in *.
    unfold score_doc.
    destruct (PrimFloat.ltb (fst st) (combined_score title author d)) eqn:Hlt;
      simpl.
    + split.
      * intros x Hx. apply in_app_or in Hx as [Hx | [<- | []]];
          [| apply ltb_irrefl].
        destruct (PrimFloat.ltb (combined_score title author d)
                                (combined_score title author x)) eqn:E;
          [| reflexivity].
        rewrite <- (Hmax x Hx). symmetry.
        eapply ltb_trans; eassumption.
      * split; [reflexivity |]. split.
        -- destruct (snd st) as [d0 |].
           ++ destruct Hkept as (_ & Hpos & _).
              eapply ltb_trans; eassumption.
           ++ now rewrite <- Hkept.
        -- exists ds, []. split; [reflexivity |].
           intros x Hx.
           apply (ltb_le_lt _ (fst st));
             [apply combined_score_number | now apply Hmax | exact Hlt].
    + split.
      * intros x Hx. apply in_app_or in Hx as [Hx | [<- | []]];
          [now apply Hmax | exact Hlt].
      * destruct (snd st) as [d0 |]; [| exact Hkept].
        destruct Hkept as (Hscore & Hpos & before & after & -> & Hbefore).
        split; [exact Hscore |]. split; [exact Hpos |].
        exists before, (after ++ [d]). split; [| exact Hbefore].
        now rewrite <- app_assoc.
Qed.

(** ** The cost of the search path (lines 191-205) *)

(** The delay before a request and the request itself. *)
Definition pacing (e : event) : bool :=
  match e with
  | Delay _ | GetSearch _ => true
  | _ => false
  end.

Definition is_sleep (e : event) : bool :=
  match e with
  | Sleep _ => true
  | _ => false
  end.

(** What [k] attempts starting with attempt [a] send, in order. *)
Definition paced_requests (title : string) (author : option string)
  (a k : nat) : list event :=
  flat_map (fun attempt => [Delay (attempt + 1);
                            GetSearch (make_params title author)])
           (seq a k).

Lemma failure_warnings_quiet (title : string) (attempt : nat)
  (e : request_exception) :
  filter pacing (failure_warnings title attempt e) = [] /\
  filter is_sleep (failure_warnings title attempt e) = [].
Proof.
  unfold failure_warnings.
  destruct (Nat.eqb attempt (RETRY_COUNT - 1)); [| split; reflexivity].
  destruct e as [| | status_code]; try (split; reflexivity).
  destruct (status_code =? 404); split; reflexivity.
Qed.

Lemma attempt_events_pacing (title : string) (author : option string)
  (attempt : nat) (r : reply search_body) :
  filter pacing (attempt_events title author attempt r) =
  [Delay (attempt + 1); GetSearch (make_params title author)] /\
  (filter is_sleep (attempt_events title author attempt r) = [] \/
   filter is_sleep (attempt_events title author attempt r) =
   [Sleep RATE_LIMIT_RETRY]).
Proof.
  unfold attempt_events. rewrite !filter_app. simpl.
  destruct r as [e | status_code data].
  - destruct (failure_warnings_quiet title attempt e) as [-> ->]. auto.
  - destruct (status_code =? 429); [simpl; auto |].
    destruct (status_code =? 404); [simpl; auto |].
    destruct (error_status status_code); [| simpl; auto].
    destruct (failure_warnings_quiet title attempt (HTTPError status_code))
      as [-> ->]. auto.
Qed.

Lemma search_events_bounded (title : string) (author : option string)
  (len : nat) :
  forall a n st,
    let k := requests_made title author (seq a len) n st in
    (k <= len)%nat /\
    (0 < len -> 0 < k)%nat /\
    filter pacing (search_events title author (seq a len) n st) =
    paced_requests title author a k /\
    (List.length (filter is_sleep
                    (search_events title author (seq a len) n st)) <= k)%nat /\
    (forall seconds,
        In (Sleep seconds) (search_events title author (seq a len) n st) ->
        seconds = RATE_LIMIT_RETRY) /\
    (search_flow title author (seq a len) n st = Ok (None, not_found) ->
     k = len).
Proof.
  induction len as [|len IH]; intros a n st; cbv zeta.
  - simpl. repeat split; try lia; try reflexivity; try (intros ? []).
  - cbn [seq search_events requests_made search_flow].
    destruct (attempt_events_pacing title author a (search_api n))
      as [Hpace Hsleep].
    assert (Hin : forall seconds,
               In (Sleep seconds)
                  (attempt_events title author a (search_api n)) ->
               seconds = RATE_LIMIT_RETRY).
    { intros seconds H.
      assert (H' : In (Sleep seconds)
                      (filter is_sleep
                         (attempt_events title author a (search_api n))))
        by (apply filter_In; auto).
      destruct Hsleep as [E | E]; rewrite E in H';
        [destruct H' | destruct H' as [[= <-] | []]; reflexivity]. }
    assert (Hlen : (List.length
                      (filter is_sleep
                         (attempt_events title author a (search_api n)))
                    <= 1)%nat)
      by (destruct Hsleep as [-> | ->]; simpl; lia).
    rewrite !filter_app, Hpace, length_app.
    destruct (attempt_flow title author st (search_api n))
      as [[description | st'] | e]; cbv beta iota.
    + split; [clear; lia |]. split; [clear - len; lia |].
      split; [reflexivity |].
      split; [simpl; rewrite Nat.add_0_r; exact Hlen |].
      split; [| discriminate].
      intros seconds H. rewrite app_nil_r in H. now apply Hin.
    + destruct (IH (S a) (S n) st') as (Hk & _ & Hp & Hs & Hv & Hnf).
      split; [clear - Hk; lia |]. split; [clear - len; lia |].
      split; [unfold paced_requests in *; cbn [seq flat_map app];
              now rewrite Hp |].
      split; [exact (Nat.add_le_mono _ 1 _ _ Hlen Hs) |]. split.
      * intros seconds H. apply in_app_or in H as [H | H]; eauto.
      * intros H. now rewrite (Hnf H).
    + split; [clear; lia |]. split; [clear - len; lia |].
      split; [reflexivity |].
      split; [simpl; rewrite Nat.add_0_r; exact Hlen |].
      split; [| discriminate].
      intros seconds H. rewrite app_nil_r in H. now apply Hin.
Qed.

(** X2. The search path is bounded: it sends between one and three
    requests, all with the same parameters and none to the ISBN endpoint,
    each after its delay with factors 1, 2, 3 in order; it sleeps at most
    once per request, always [RATE_LIMIT_RETRY] seconds; and it gives up
    with [not_found] only after all three requests. *)
Theorem search_path_bounded (title : string) (author : option string)
  (w : world) :
  exists k evs,
    (1 <= k <= RETRY_COUNT)%nat /\
    search_sent (snd (search_path title author w)) = (search_sent w + k)%nat /\
    isbn_sent (snd (search_path title author w)) = isbn_sent w /\
    trace (snd (search_path title author w)) = trace w ++ evs /\
    filter pacing evs = paced_requests title author 0 k /\
    (List.length (filter is_sleep evs) <= k)%nat /\
    (forall seconds, In (Sleep seconds) evs -> seconds = RATE_LIMIT_RETRY) /\
    (fst (search_path title author w) = Ok (None, not_found) ->
     k = RETRY_COUNT).
Proof.
  unfold search_path. rewrite search_attempts_run.
  destruct (search_events_bounded title author RETRY_COUNT 0 (search_sent w)
              no_match) as (Hk & Hpos & Hp & Hs & Hv & Hnf).
  eexists; eexists. cbn [fst snd search_sent isbn_sent trace].
  split; [| split; [reflexivity | split; [reflexivity | split;
          [reflexivity | split; [exact Hp | split; [exact Hs | split;
          [exact Hv | exact Hnf]]]]]]].
  unfold RETRY_COUNT in *. lia.
Qed.

(** ** Edges of the ISBN lookup (lines 134-171) *)

(** A reply that ends the lookup without a description: an exception of
    [requests.get], a 404 or an error status. *)
Definition isbn_failed (r : reply description) : bool :=
  match r with
  | Raised _ => true
  | Reply status_code _ =>
      negb (status_code =? 429) && negb (success_status status_code)
  end.

(** Lines 167-170: what the handler logs. *)
Definition isbn_warnings (i : string) (r : reply description) : list event :=
  match r with
  | Raised Timeout => [Warn (IsbnTimeout i)]
  | Raised (HTTPError _) => []
  | Raised ConnectionError => [Warn (IsbnError i ConnectionError)]
  | Reply _ _ => []
  end.

(** X3. An absent or empty ISBN is answered [None] without a request.  A
    lookup that meets an exception, a 404 or an error status returns
    [None] after this one request, without sleeping; it logs a warning
    for a timeout or another network error and nothing for a 404 or an
    HTTP error. *)
Theorem isbn_lookup_edges (depth : nat) (w : world) :
  (forall isbn,
      opt_truthy isbn = false -> fetch_by_isbn depth isbn w = (Ok None, w)) /\
  (forall i,
      Str.truthy i = true ->
      isbn_failed (isbn_api (isbn_sent w)) = true ->
      fetch_by_isbn (S depth) (Some i) w =
      (Ok None,
       mkWorld (S (isbn_sent w)) (search_sent w)
               (trace w ++ GetIsbn i :: isbn_warnings i (isbn_api (isbn_sent w)))
               (cache_file w))).
Proof.
  split.
  - intros [i |] Hi; [| now destruct depth].
    simpl in Hi. destruct depth; simpl; now rewrite Hi.
  - intros i Hi Hfail. simpl. rewrite Hi. simpl. run.
    unfold requests_get_isbn, isbn_failed, isbn_warnings, success_status in *.
    destruct (isbn_api (isbn_sent w)) as [e | status_code d]; simpl.
    + unfold isbn_handler; run.
      destruct e; simpl; rewrite <- ?app_assoc; reflexivity.
    + destruct (status_code =? 404); simpl; [reflexivity |].
      destruct (status_code =? 429); simpl in *; [discriminate |].
      destruct (error_status status_code); simpl in *; [reflexivity |].
      discriminate.
Qed.

(** ** The shape of a result (lines 174-250) *)

Lemma truncate_description_length (s d : string) :
  truncate_description s = Some d -> (String.length d <= 2000)%nat.
Proof.
  intros H. apply truncate_description_truthy in H as (_ & -> & _).
  apply take_length.
Qed.

Lemma fetch_by_isbn_length (depth : nat) :
  forall isbn w d w',
    fetch_by_isbn depth isbn w = (Ok (Some d), w') ->
    (String.length d <= 2000)%nat.
Proof.
  induction depth as [|depth IH]; intros isbn w d w' H;
    destruct isbn as [i |]; simpl in H; try discriminate.
  - destruct (Str.truthy i); simpl in H; discriminate.
  - destruct (Str.truthy i); simpl in H; [| discriminate].
    revert H; run; unfold requests_get_isbn.
    destruct (isbn_api (isbn_sent w)) as [e | status_code desc].
    + unfold isbn_handler; run. destruct e; simpl; discriminate.
    + simpl. destruct (status_code =? 404); [discriminate |].
      destruct (status_code =? 429).
      * simpl.
        match goal with
        | |- context [fetch_by_isbn depth (Some i) ?w2] =>
            destruct (fetch_by_isbn depth (Some i) w2) as [r2 w3] eqn:E
        end.
        destruct r2 as [[d2 |] | e]; try discriminate.
        -- intros [= <- <-]. eapply IH; eassumption.
        -- destruct e as [e | | |]; try discriminate.
           unfold isbn_handler; run. destruct e; simpl; discriminate.
      * destruct (error_status status_code); simpl; [discriminate |].
        intros [= H _]. now apply truncate_description_length in H.
Qed.

Lemma search_flow_length (title : string) (author : option string)
  (attempts : list nat) :
  forall n st d src,
    search_flow title author attempts n st = Ok (Some d, src) ->
    (String.length d <= 2000)%nat.
Proof.
  induction attempts as [|attempt rest IH]; intros n st d src; simpl;
    [discriminate |].
  rewrite attempt_flow_scored.
  destruct (scorable (search_api n)); [| apply IH].
  destruct (well_formed (search_api n)); [| discriminate].
  destruct (accepted_description _) as [text |] eqn:E; [| apply IH].
  intros [= <- _]. unfold accepted_description in E.
  destruct (good_match _); [| discriminate].
  destruct (snd _); [| discriminate].
  now apply truncate_description_length in E.
Qed.

(** X4. What [fetch_book_summary] returns is either [(None, not_found)] or
    a summary of 1 to 2000 characters with the label of the path that
    found it: [isbn_search] only for a row with an ISBN and without any
    search request, [title_search] only after a search request. *)
Theorem summary_shape (depth : nat) (title : string)
  (author : option string) (isbn : option string) (w w' : world)
  (r : option string) (src : source) :
  fetch_book_summary depth title author isbn w = (Ok (r, src), w') ->
  match r with
  | None => src = not_found
  | Some s =>
      s <> "" /\ (String.length s <= 2000)%nat /\
      ((src = isbn_search /\ opt_truthy isbn = true /\
        search_sent w' = search_sent w) \/
       (src = title_search /\ (search_sent w < search_sent w')%nat))
  end.
Proof.
  assert (Hsearch : forall w1,
             search_sent w1 = search_sent w ->
             search_path title author w1 = (Ok (r, src), w') ->
             match r with
             | None => src = not_found
             | Some s =>
                 s <> "" /\ (String.length s <= 2000)%nat /\
                 ((src = isbn_search /\ opt_truthy isbn = true /\
                   search_sent w' = search_sent w) \/
                  (src = title_search /\ (search_sent w < search_sent w')%nat))
             end).
  { intros w1 Hw1 H.
    assert (Hsent : (search_sent w1 < search_sent w')%nat).
    { destruct (search_events_bounded title author RETRY_COUNT 0
                  (search_sent w1) no_match) as (_ & Hpos & _).
      specialize (Hpos ltac:(unfold RETRY_COUNT; lia)).
      apply (f_equal snd) in H. unfold search_path in H.
      rewrite search_attempts_run in H. cbn [snd] in H. subst w'.
      cbn [search_sent]. lia. }
    apply (f_equal fst) in H. rewrite search_path_result in H. cbn [fst] in H.
    destruct (search_flow_result _ _ _ _ _ _ _ H)
      as [(-> & ->) | (s & -> & Hs & ->)]; [reflexivity |].
    split; [now apply truthy_nonempty |].
    split; [eapply search_flow_length; eassumption |].
    right. split; [reflexivity |]. rewrite <- Hw1. exact Hsent. }
  destruct (opt_truthy isbn) eqn:Hi.
  - rewrite fetch_book_summary_isbn by exact Hi.
    destruct (fetch_by_isbn depth isbn w) as [[[d |] | e] w1] eqn:E.
    + intros [= <- <- <-].
      assert (Hlen := fetch_by_isbn_length _ _ _ _ _ E).
      apply fetch_by_isbn_effects in E as (Hs & _ & _ & Hd).
      split; [now apply truthy_nonempty |]. split; [exact Hlen |].
      left. auto.
    + apply fetch_by_isbn_effects in E as (Hs & _).
      now apply Hsearch.
    + discriminate.
  - rewrite fetch_book_summary_no_isbn by exact Hi. now apply Hsearch.
Qed.

(** ** The join onto the catalog (lines 267 and 311) *)

Lemma filter_unique_key {R : Type} (key : R -> Z) (id : Z) (cache_df : list R) :
  NoDup (map key cache_df) ->
  filter (fun e => key e =? id) cache_df =
  match find (fun e => key e =? id) cache_df with
  | Some e => [e]
  | None => []
  end.
Proof.
  induction cache_df as [|x rest IH]; simpl; intros H; [reflexivity |].
  inversion H as [| i ids Hx Hrest]; subst.
  destruct (Z.eqb_spec (key x) id) as [E | ne]; [| now apply IH].
  f_equal.
  clear IH H. induction rest as [|y rest IH]; simpl; [reflexivity |].
  destruct (Z.eqb_spec (key y) id) as [E' | ne'].
  - exfalso. apply Hx. simpl. left. congruence.
  - apply IH.
    + intros Hin. apply Hx. now right.
    + now inversion Hrest.
Qed.

Lemma find_key_Some {R : Type} (key : R -> Z) (id : Z) (rows : list R) :
  In id (map key rows) -> exists e, find (fun e => key e =? id) rows = Some e.
Proof.
  induction rows as [|x rest IH]; simpl; [tauto |].
  destruct (Z.eqb_spec (key x) id) as [E | ne]; [eauto |].
  intros [H | H]; [contradiction | now apply IH].
Qed.

Lemma left_join_In {R : Type} (key : R -> Z) (books_df : list book)
  (cache_df : list R) (b : book) (o : option R) :
  In (b, o) (left_join key books_df cache_df) <->
  In b books_df /\
  match o with
  | Some e => In e cache_df /\ key e = book_id b
  | None => ~ In (book_id b) (map key cache_df)
  end.
Proof.
  unfold left_join. rewrite in_flat_map.
  assert (Hmatch : forall x e,
             In e (filter (fun e => key e =? book_id x) cache_df) <->
             In e cache_df /\ key e = book_id x)
    by (intros x e; rewrite filter_In, Z.eqb_eq; reflexivity).
  split.
  - intros (x & Hx & H).
    destruct (filter (fun e => key e =? book_id x) cache_df)
      as [|m ms] eqn:E.
    + destruct H as [[= <- <-] | []]. split; [exact Hx |].
      intros Hin. apply in_map_iff in Hin as (e & He & Hin).
      assert (H : In e []) by (rewrite <- E; apply Hmatch; auto).
      destruct H.
    + apply in_map_iff in H as (e & [= <- <-] & He).
      split; [exact Hx |]. apply Hmatch. now rewrite E.
  - intros [Hb Ho]. exists b. split; [exact Hb |].
    destruct (filter (fun e => key e =? book_id b) cache_df)
      as [|m ms] eqn:E.
    + destruct o as [e |]; [| now left].
      destruct Ho as [He Hid].
      assert (H : In e []) by (rewrite <- E; apply Hmatch; auto).
      destruct H.
    + destruct o as [e |].
      * apply in_map_iff. exists e. split; [reflexivity |].
        rewrite <- E. now apply Hmatch.
      * exfalso. apply Ho. apply in_map_iff. exists m. split.
        -- apply (Hmatch b m). rewrite E. now left.
        -- apply (Hmatch b m). rewrite E. now left.
Qed.

Lemma left_join_unique {R : Type} (key : R -> Z) (books_df : list book)
  (cache_df : list R) :
  NoDup (map key cache_df) ->
  left_join key books_df cache_df =
  map (fun b => (b, find (fun e => key e =? book_id b) cache_df)) books_df.
Proof.
  intros Hnd. unfold left_join.
  match goal with |- flat_map ?g _ = _ => set (f := g) end.
  induction books_df as [|b rest IH]; [reflexivity |].
  simpl. rewrite IH. unfold f at 1.
  rewrite (filter_unique_key key _ _ Hnd).
  now destruct (find (fun e => key e =? book_id b) cache_df).
Qed.

(** X5. The left join loses no catalog row and invents none, whatever the
    rows of the right frame and its [book_id] column [key]: a joined row
    carries a cache row exactly when that row has the catalog row's
    [book_id], and none exactly when the cache lacks the [book_id]; with
    distinct [book_id]s in the cache the join has the catalog's rows once
    each, in the catalog's order, each with the cache row of its
    [book_id]. *)
Theorem left_join_rows {R : Type} (key : R -> Z) (books_df : list book)
  (cache_df : list R) :
  (forall b e, In (b, Some e) (left_join key books_df cache_df) <->
               In b books_df /\ In e cache_df /\ key e = book_id b) /\
  (forall b, In (b, None) (left_join key books_df cache_df) <->
             In b books_df /\ ~ In (book_id b) (map key cache_df)) /\
  (forall b, In b books_df ->
             exists o, In (b, o) (left_join key books_df cache_df)) /\
  (NoDup (map key cache_df) ->
   map fst (left_join key books_df cache_df) = books_df /\
   forall b o, In (b, o) (left_join key books_df cache_df) ->
               o = find (fun e => key e =? book_id b) cache_df).
Proof.
  split; [| split; [| split]].
  - intros b e. apply (left_join_In key books_df cache_df b (Some e)).
  - intros b. apply (left_join_In key books_df cache_df b None).
  - intros b Hb.
    destruct (in_dec Z.eq_dec (book_id b) (map key cache_df))
      as [Hin | Hout].
    + apply in_map_iff in Hin as (e & He & Hin).
      exists (Some e). apply left_join_In. auto.
    + exists None. apply left_join_In. auto.
  - intros Hnd. rewrite (left_join_unique _ _ _ Hnd). split.
    + rewrite map_map. simpl. apply map_id.
    + intros b o H. apply in_map_iff in H as (x & [= <- <-] & _).
      reflexivity.
Qed.

(** ** The saved rows (lines 326-328) *)

Lemma save_results_In (rows : list (book * option cache_row))
  (row : book * option cache_row) :
  In row (save_results rows) <->
  In row rows /\ exists r, snd row = Some r /\ row_summary r <> NaN.
Proof.
  unfold save_results. rewrite filter_In.
  destruct (snd row) as [r |].
  - destruct (row_summary r) eqn:E; simpl; split.
    + intros [_ H]. discriminate H.
    + intros [_ (r' & Hr & H)]. injection Hr as <-. elim H. exact E.
    + intros [H _]. split; [exact H |]. exists r. split; [reflexivity |].
      rewrite E. discriminate.
    + intros [H _]. split; [exact H | reflexivity].
  - split.
    + intros [_ H]. discriminate H.
    + intros [_ (r & H & _)]. discriminate H.
Qed.

(** The catalog rows whose [book_id] a frame lacks. *)
Lemma remaining_books_length (books_df : list book) (cache_df : list entry)
  (final_cache : list cache_row) :
  map row_book_id final_cache = map entry_book_id cache_df ->
  NoDup (map row_book_id final_cache) ->
  (List.length
     (filter (fun row => match snd row with Some _ => true | None => false end)
             (left_join row_book_id books_df final_cache)) +
   List.length (remaining_books books_df cache_df))%nat =
  List.length books_df.
Proof.
  intros Hids Hnd. rewrite (left_join_unique _ _ _ Hnd).
  unfold remaining_books. rewrite <- Hids.
  induction books_df as [|b rest IH]; simpl; [reflexivity |].
  destruct (find (fun e => row_book_id e =? book_id b) final_cache)
    as [e |] eqn:E; simpl.
  - assert (Hisin : isin (book_id b) (map row_book_id final_cache) = true).
    { apply isin_In. apply find_some in E as [He Hid].
      apply Z.eqb_eq in Hid. rewrite <- Hid. now apply in_map. }
    rewrite Hisin. simpl. now rewrite IH.
  - assert (Hisin : isin (book_id b) (map row_book_id final_cache) = false).
    { apply isin_not_In. intros H.
      apply (find_key_Some row_book_id) in H as [e He]. congruence. }
    rewrite Hisin. simpl. rewrite Nat.add_succ_r. now rewrite IH.
Qed.

Lemma filter_length_le {A : Type} (f g : A -> bool) (l : list A) :
  (forall x, f x = true -> g x = true) ->
  (List.length (filter f l) <= List.length (filter g l))%nat.
Proof.
  intros H. induction l as [|x l IH]; simpl; [lia |].
  destruct (f x) eqn:E.
  - rewrite (H x E). simpl. lia.
  - destruct (g x); simpl; lia.
Qed.

Lemma filter_agree {A : Type} (f g : A -> bool) (l : list A) :
  (forall x, In x l -> f x = g x) -> filter f l = filter g l.
Proof.
  induction l as [|x l IH]; simpl; intros H; [reflexivity |].
  rewrite (H x (or_introl eq_refl)), IH; [reflexivity |].
  intros y Hy. apply H. now right.
Qed.

(** X6. [save_results] writes exactly the joined rows whose cache row has
    a [summary] that is not NaN: never a catalog row whose [book_id] the
    cache file lacks, and not a row whose summary the file gives back as
    NaN.  With distinct [book_id]s in the cache, the rows written and the
    rows a next run still has to resolve are at most the catalog, and
    they are the whole catalog when no summary came back as NaN. *)
Theorem saved_rows (books_df : list book) (cache_df : list entry)
  (final_cache : list cache_row) :
  let joined := left_join row_book_id books_df final_cache in
  (forall b o, In (b, o) (save_results joined) <->
               exists r, o = Some r /\ In b books_df /\ In r final_cache /\
                         row_book_id r = book_id b /\ row_summary r <> NaN) /\
  (forall b o, ~ In (book_id b) (map row_book_id final_cache) ->
               ~ In (b, o) (save_results joined)) /\
  (map row_book_id final_cache = map entry_book_id cache_df ->
   NoDup (map entry_book_id cache_df) ->
   (List.length (save_results joined) +
    List.length (remaining_books books_df cache_df) <=
    List.length books_df)%nat /\
   ((forall r, In r final_cache -> row_summary r <> NaN) ->
    (List.length (save_results joined) +
     List.length (remaining_books books_df cache_df))%nat =
    List.length books_df)).
Proof.
  cbv zeta.
  assert (Hin : forall b o,
             In (b, o) (save_results
                          (left_join row_book_id books_df final_cache)) <->
             exists r, o = Some r /\ In b books_df /\ In r final_cache /\
                       row_book_id r = book_id b /\ row_summary r <> NaN).
  { intros b o. rewrite save_results_In, left_join_In. simpl. split.
    - intros [[Hb Ho] (r & -> & Hr)]. exists r. tauto.
    - intros (r & -> & Hb & Hr & Hid & Hs). repeat split; auto.
      exists r. auto. }
  split; [exact Hin |]. split.
  - intros b o Hout H. apply Hin in H as (r & _ & _ & Hr & Hid & _).
    apply Hout. rewrite <- Hid. now apply in_map.
  - intros Hids Hnd. rewrite <- Hids in Hnd.
    pose proof (remaining_books_length books_df cache_df final_cache Hids Hnd)
      as Hsum.
    split.
    + assert (Hle := filter_length_le
                       (fun row : book * option cache_row =>
                          match snd row with
                          | Some r => notna (row_summary r)
                          | None => false
                          end)
                       (fun row => match snd row with
                                   | Some _ => true
                                   | None => false
                                   end)
                       (left_join row_book_id books_df final_cache)).
      unfold save_results. rewrite <- Hsum.
      apply Nat.add_le_mono_r. apply Hle.
      intros [b [r |]]; simpl; [reflexivity | discriminate].
    + intros Hall. rewrite <- Hsum. f_equal. unfold save_results.
      f_equal. apply filter_agree. intros [b [r |]] Hrow; simpl; [| reflexivity].
      apply left_join_In in Hrow as [_ [Hr _]].
      specialize (Hall r Hr). now destruct (row_summary r).
Qed.

(** ** A run of [process_book_summaries] (lines 253-318) *)

Lemma process_run (depth : nat) (books_df : list book) (max_summaries : Z)
  (w : world) :
  process_book_summaries depth books_df max_summaries w =
  if max_summaries <=? Z.of_nat (List.length (loaded_cache w))
  then (Ok (left_join row_book_id books_df
              (map row_of_entry (loaded_cache w))), w)
  else
    match resolve_rows depth
            (books_to_process books_df (loaded_cache w) max_summaries) [] w
    with
    | (Ok es, w1) => save_and_join books_df (loaded_cache w) es w1
    | (Raise e, w1) => (Raise e, w1)
    end.
Proof.
  unfold process_book_summaries, bind at 1. rewrite load_cache_run.
  destruct (max_summaries <=? Z.of_nat (List.length (loaded_cache w)));
    reflexivity.
Qed.

Lemma save_and_join_run (books_df : list book) (cache_df es : list entry)
  (w : world) :
  save_and_join books_df cache_df es w =
  match es with
  | [] =>
      (match cache_file w with
       | Some rows =>
           Ok (left_join row_book_id books_df (map row_of_entry rows))
       | None => Raise FileNotFoundError
       end,
       mkWorld (isbn_sent w) (search_sent w) (trace w ++ [Warn NoNewSummary])
               (cache_file w))
  | _ :: _ =>
      (Ok (left_join row_book_id books_df
             (read_csv (updated_cache cache_df es))),
       mkWorld (isbn_sent w) (search_sent w) (trace w)
               (Some (updated_cache cache_df es)))
  end.
Proof.
  unfold save_and_join, read_cache_again; run.
  destruct es as [|e es]; simpl; [| reflexivity].
  now destruct (cache_file w).
Qed.

Lemma drop_duplicates_from_length (rows : list entry) :
  forall seen,
    (List.length (drop_duplicates_from seen rows) <= List.length rows)%nat.
Proof.
  induction rows as [|e rest IH]; intros seen; simpl; [lia |].
  destruct (isin (entry_book_id e) seen); simpl.
  - specialize (IH seen). lia.
  - specialize (IH (entry_book_id e :: seen)). lia.
Qed.

Lemma resolutions_length (depth : nat) (rows : list book) :
  forall w,
    (List.length (flat_map entries_of (resolutions depth rows w)) <=
     List.length rows)%nat.
Proof.
  induction rows as [|row rest IH]; intros w; simpl; [lia |].
  destruct (fetch_book_summary depth (title row) (Some (authors row))
              (isbn row) w) as [[r | e] w1]; simpl.
  - rewrite length_app. specialize (IH w1).
    assert (List.length (entries_of (row, Ok r)) <= 1)%nat.
    { unfold entries_of, append_entry. simpl.
      destruct (fst r) as [s |]; [destruct (Str.truthy s) |]; simpl; lia. }
    lia.
  - unfold entries_of. simpl. lia.
Qed.

Lemma books_to_process_length (books_df : list book) (cache_df : list entry)
  (max_summaries : Z) :
  Z.of_nat (List.length cache_df) < max_summaries ->
  Z.of_nat (List.length (books_to_process books_df cache_df max_summaries)) <=
  max_summaries - Z.of_nat (List.length cache_df).
Proof.
  intros H. unfold books_to_process.
  set (remaining := remaining_books books_df cache_df).
  set (n := Z.to_nat _).
  assert (Hn : (n <= List.length remaining)%nat) by (subst n; lia).
  destruct (sample_without_replacement remaining n Hn) as [-> _].
  subst n. lia.
Qed.

Lemma loaded_cache_file (w w' : world) :
  cache_file w' = cache_file w -> loaded_cache w' = loaded_cache w.
Proof. unfold loaded_cache. now intros ->. Qed.

(** The cache after a run, by what the batch resolved. *)
Lemma process_cache (depth : nat) (books_df : list book) (max_summaries : Z)
  (w : world) :
  let w' := snd (process_book_summaries depth books_df max_summaries w) in
  cache_file w' = cache_file w \/
  (Z.of_nat (List.length (loaded_cache w)) < max_summaries /\
   exists es w1,
     resolve_rows depth
       (books_to_process books_df (loaded_cache w) max_summaries) [] w =
     (Ok es, w1) /\
     es <> [] /\
     cache_file w' = Some (updated_cache (loaded_cache w) es)).
Proof.
  cbv zeta. rewrite process_run.
  destruct (Z.leb_spec max_summaries (Z.of_nat (List.length (loaded_cache w))));
    [now left |].
  set (batch := books_to_process books_df (loaded_cache w) max_summaries).
  assert (Hc := resolve_rows_cache_file depth batch [] w).
  destruct (resolve_rows depth batch [] w) as [[es | e] w1] eqn:E;
    simpl in Hc; [| now left].
  rewrite save_and_join_run. destruct es as [|x es]; simpl; [now left |].
  right. split; [assumption |]. exists (x :: es), w1.
  repeat split. discriminate.
Qed.

(** ** Batch selection (lines 264-286) *)










(** X7. The cap holds: after a run the cache file has at most
    [max_summaries] entries, or as many as it had when it already had
    more. *)
Theorem cache_size_capped (depth : nat) (books_df : list book)
  (max_summaries : Z) (w : world) :
  Z.of_nat
    (List.length
       (loaded_cache
          (snd (process_book_summaries depth books_df max_summaries w)))) <=
  Z.max (Z.of_nat (List.length (loaded_cache w))) max_summaries.
Proof.
  destruct (process_cache depth books_df max_summaries w)
    as [H | (Hlt & es & w1 & Hes & _ & H)]; cbv zeta in H.
  - rewrite (loaded_cache_file _ _ H). lia.
  - assert (Hl : loaded_cache
                   (snd (process_book_summaries depth books_df max_summaries w)) =
                 updated_cache (loaded_cache w) es)
      by (unfold loaded_cache at 1; now rewrite H).
    rewrite Hl.
    apply resolve_rows_resolutions in Hes. simpl in Hes.
    assert (H1 := resolutions_length depth
                    (books_to_process books_df (loaded_cache w) max_summaries)
                    w).
    rewrite <- Hes in H1.
    assert (H2 := books_to_process_length books_df (loaded_cache w)
                    max_summaries Hlt).
    assert (H3 := drop_duplicates_from_length (loaded_cache w ++ es) []).
    unfold updated_cache, drop_duplicates. rewrite length_app in H3. lia.
Qed.

(** X8. A run never loses what the cache held: every [book_id] of the old
    cache keeps its row; a cache without duplicate [book_id]s is kept
    whole and in order, new entries come after it and the result has no
    duplicates; a cache file that existed still exists; and when the run
    raises, the file is left as it was, whatever the rows before the
    exception resolved. *)
Theorem cache_persists (depth : nat) (books_df : list book)
  (max_summaries : Z) (w : world) :
  let w' := snd (process_book_summaries depth books_df max_summaries w) in
  (forall id, In id (map entry_book_id (loaded_cache w)) ->
              find (has_id id) (loaded_cache w') =
              find (has_id id) (loaded_cache w)) /\
  (NoDup (map entry_book_id (loaded_cache w)) ->
   NoDup (map entry_book_id (loaded_cache w')) /\
   exists added, loaded_cache w' = loaded_cache w ++ added) /\
  (cache_file w <> None -> cache_file w' <> None) /\
  (forall e, fst (process_book_summaries depth books_df max_summaries w) =
             Raise e ->
             cache_file w' = cache_file w).
Proof.
  cbv zeta.
  destruct (process_cache depth books_df max_summaries w)
    as [H | (Hlt & es & w1 & Hes & Hne & H)]; cbv zeta in H.
  - rewrite (loaded_cache_file _ _ H), H.
    split; [reflexivity |]. split; [| split; auto].
    intros Hnd. split; [exact Hnd |]. exists []. now rewrite app_nil_r.
  - assert (Hl : loaded_cache
                   (snd (process_book_summaries depth books_df max_summaries w)) =
                 updated_cache (loaded_cache w) es)
      by (unfold loaded_cache at 1; now rewrite H).
    rewrite Hl, H.
    split; [| split; [| split]].
    + intros id Hid. unfold updated_cache, drop_duplicates.
      rewrite drop_duplicates_from_find by (simpl; tauto).
      rewrite find_app_first.
      now destruct (find_has_id_Some id _ Hid) as (x & ->).
    + intros Hnd. split; [apply drop_duplicates_from_NoDup |].
      unfold updated_cache, drop_duplicates.
      rewrite drop_duplicates_from_prefix by (assumption || (simpl; tauto)).
      eauto.
    + discriminate.
    + intros e He. exfalso. revert He. rewrite process_run.
      destruct (Z.leb_spec max_summaries
                  (Z.of_nat (List.length (loaded_cache w)))); [lia |].
      rewrite Hes, save_and_join_run.
      destruct es; [congruence | discriminate].
Qed.

Lemma resolutions_truthy (depth : nat) (rows : list book) :
  forall w row s src,
    In (row, Ok (Some s, src)) (resolutions depth rows w) ->
    Str.truthy s = true.
Proof.
  induction rows as [|x rest IH]; intros w row s src; simpl; [tauto |].
  destruct (fetch_book_summary depth (title x) (Some (authors x)) (isbn x) w)
    as [[[r src'] | e] w1] eqn:E; simpl.
  - intros [H | H]; [| eapply IH; eassumption].
    injection H as -> -> ->.
    apply fetch_book_summary_result in E
      as [(E1 & _) | (s' & [= <-] & Hs & _)]; [discriminate | exact Hs].
  - intros [[=] | []].
Qed.

(** X9. The last read of line 310 fails when there is nothing to read: if
    no cache file exists, [max_summaries] is positive and the batch
    resolves nothing, the run logs its warning and raises
    [FileNotFoundError]; this is so for an empty catalog.  With a cache
    file in place the run never raises [FileNotFoundError]. *)
Theorem first_run_needs_a_summary (depth : nat) (books_df : list book)
  (max_summaries : Z) (w : world) :
  (cache_file w = None ->
   0 < max_summaries ->
   forall w1,
     resolve_rows depth (books_to_process books_df [] max_summaries) [] w =
     (Ok [], w1) ->
     process_book_summaries depth books_df max_summaries w =
     (Raise FileNotFoundError,
      mkWorld (isbn_sent w1) (search_sent w1) (trace w1 ++ [Warn NoNewSummary])
              None)) /\
  (cache_file w = None ->
   0 < max_summaries ->
   books_df = [] ->
   process_book_summaries depth books_df max_summaries w =
   (Raise FileNotFoundError,
    mkWorld (isbn_sent w) (search_sent w) (trace w ++ [Warn NoNewSummary])
            None)) /\
  (cache_file w <> None ->
   fst (process_book_summaries depth books_df max_summaries w) <>
   Raise FileNotFoundError).
Proof.
  assert (Hfirst : cache_file w = None ->
                   0 < max_summaries ->
                   forall w1,
                     resolve_rows depth
                       (books_to_process books_df [] max_summaries) [] w =
                     (Ok [], w1) ->
                     process_book_summaries depth books_df max_summaries w =
                     (Raise FileNotFoundError,
                      mkWorld (isbn_sent w1) (search_sent w1)
                              (trace w1 ++ [Warn NoNewSummary]) None)).
  { intros Hnone Hmax w1 Hes. rewrite process_run.
    assert (Hl : loaded_cache w = []) by (unfold loaded_cache; now rewrite Hnone).
    rewrite Hl. simpl List.length.
    destruct (Z.leb_spec max_summaries (Z.of_nat 0)); [lia |].
    rewrite Hes, save_and_join_run.
    assert (Hc := resolve_rows_cache_file depth
                    (books_to_process books_df [] max_summaries) [] w).
    rewrite Hes in Hc. simpl in Hc. now rewrite Hc, Hnone. }
  split; [exact Hfirst |]. split.
  - intros Hnone Hmax ->. apply Hfirst; [assumption | assumption |].
    unfold books_to_process. simpl.
    replace (Z.to_nat (Z.min (max_summaries - 0) 0)) with 0%nat by lia.
    destruct (sample_without_replacement [] 0%nat (Nat.le_refl 0)) as [Hlen _].
    destruct (sample [] 0%nat); [reflexivity | discriminate].
  - intros Hsome H. rewrite process_run in H.
    destruct (max_summaries <=? Z.of_nat (List.length (loaded_cache w)));
      [discriminate |].
    set (batch := books_to_process books_df (loaded_cache w) max_summaries)
      in H.
    assert (Hc := resolve_rows_cache_file depth batch [] w).
    destruct (resolve_rows depth batch [] w) as [[es | e] w1] eqn:E;
      simpl in Hc.
    + rewrite save_and_join_run in H.
      destruct es; [| discriminate].
      simpl in H. rewrite Hc in H.
      destruct (cache_file w); [discriminate | congruence].
    + simpl in H. injection H as ->.
      assert (Hr := resolve_rows_raise depth batch [] w FileNotFoundError).
      rewrite E in Hr. destruct (Hr eq_refl); discriminate.
Qed.

(** The rows a run returns: the catalog joined with a frame that has
    the [book_id]s of the cache file as the run leaves it. *)
Lemma process_rows (depth : nat) (books_df : list book) (max_summaries : Z)
  (w : world) (rows : list (book * option cache_row)) :
  fst (process_book_summaries depth books_df max_summaries w) = Ok rows ->
  exists final_cache,
    rows = left_join row_book_id books_df final_cache /\
    map row_book_id final_cache =
    map entry_book_id
      (loaded_cache
         (snd (process_book_summaries depth books_df max_summaries w))).
Proof.
  rewrite process_run.
  destruct (max_summaries <=? Z.of_nat (List.length (loaded_cache w))).
  - intros [= <-]. eexists. split; [reflexivity |].
    cbn [snd]. rewrite map_map. reflexivity.
  - destruct (resolve_rows depth _ [] w) as [[es | e] w1]; [| discriminate].
    rewrite save_and_join_run. destruct es as [|x es]; cbn [fst snd].
    + unfold loaded_cache. cbn [cache_file].
      destruct (cache_file w1) as [file |]; [| discriminate].
      intros [= <-]. eexists. split; [reflexivity |].
      rewrite map_map. reflexivity.
    + intros [= <-]. eexists. split; [reflexivity |].
      unfold loaded_cache. cbn [cache_file]. apply read_csv_book_id.
Qed.

(** X10. When the run returns, its frame holds every catalog row; a row
    carries cache cells, those of a row with its [book_id], exactly when
    the cache file as the run leaves it holds that [book_id]; and with
    distinct [book_id]s in the cache the run started from, the frame has
    the catalog's rows once each and in order. *)
Theorem process_returns_join (depth : nat) (books_df : list book)
  (max_summaries : Z) (w : world) (rows : list (book * option cache_row)) :
  fst (process_book_summaries depth books_df max_summaries w) = Ok rows ->
  let w' := snd (process_book_summaries depth books_df max_summaries w) in
  (forall b, In b books_df -> exists o, In (b, o) rows) /\
  (forall b o,
      In (b, o) rows ->
      In b books_df /\
      match o with
      | Some r =>
          row_book_id r = book_id b /\
          In (book_id b) (map entry_book_id (loaded_cache w'))
      | None => ~ In (book_id b) (map entry_book_id (loaded_cache w'))
      end) /\
  (NoDup (map entry_book_id (loaded_cache w)) -> map fst rows = books_df).
Proof.
  intros Hrows. cbv zeta.
  destruct (process_rows _ _ _ _ _ Hrows) as (final_cache & -> & Hids).
  split; [| split].
  - intros b Hb.
    destruct (in_dec Z.eq_dec (book_id b) (map row_book_id final_cache))
      as [Hin | Hout].
    + apply in_map_iff in Hin as (r & Hr & Hin).
      exists (Some r). apply left_join_In. auto.
    + exists None. apply left_join_In. auto.
  - intros b o H. apply left_join_In in H as [Hb Ho].
    split; [exact Hb |]. rewrite <- Hids.
    destruct o as [r |]; [| exact Ho].
    destruct Ho as [Hr Hid]. split; [exact Hid |].
    rewrite <- Hid. now apply in_map.
  - intros Hnd. rewrite left_join_unique.
    + rewrite map_map. simpl. apply map_id.
    + rewrite Hids.
      destruct (process_cache depth books_df max_summaries w)
        as [H | (_ & es & _ & _ & _ & H)]; cbv zeta in H.
      * now rewrite (loaded_cache_file _ _ H).
      * unfold loaded_cache. rewrite H. apply drop_duplicates_from_NoDup.
Qed.

(** X11. A run resumes: when the run returns, a row of the batch that was
    resolved with a summary has its [book_id] in the cache file, is no
    longer among the remaining rows, and carries an entry in the rows
    returned. *)
Theorem resolved_rows_are_cached (depth : nat) (books_df : list book)
  (max_summaries : Z) (w : world) (rows : list (book * option cache_row))
  (b : book) (s : string) (src : source) :
  fst (process_book_summaries depth books_df max_summaries w) = Ok rows ->
  Z.of_nat (List.length (loaded_cache w)) < max_summaries ->
  In (b, Ok (Some s, src))
     (resolutions depth
        (books_to_process books_df (loaded_cache w) max_summaries) w) ->
  let w' := snd (process_book_summaries depth books_df max_summaries w) in
  In (book_id b) (map entry_book_id (loaded_cache w')) /\
  ~ In b (remaining_books books_df (loaded_cache w')) /\
  exists e, In (b, Some e) rows.
Proof.
  intros Hrows Hlt Hb. cbv zeta.
  set (batch := books_to_process books_df (loaded_cache w) max_summaries) in *.
  assert (Hid : In (book_id b)
                   (map entry_book_id
                      (loaded_cache
                         (snd (process_book_summaries depth books_df
                                 max_summaries w))))).
  { assert (Hs := resolutions_truthy _ _ _ _ _ _ Hb).
    revert Hrows. rewrite process_run.
    destruct (Z.leb_spec max_summaries
                (Z.of_nat (List.length (loaded_cache w)))); [lia |].
    fold batch.
    destruct (resolve_rows depth batch [] w) as [[es | e] w1] eqn:E;
      [| discriminate].
    apply resolve_rows_resolutions in E. simpl in E.
    assert (Hin : In (mkEntry (book_id b) (title b) (authors b) (isbn b) s src)
                     es).
    { rewrite E. apply in_flat_map. exists (b, Ok (Some s, src)).
      split; [exact Hb |]. unfold entries_of, append_entry. simpl.
      rewrite Hs. now left. }
    rewrite save_and_join_run. destruct es as [|x es]; [destruct Hin |].
    intros _. unfold loaded_cache. simpl.
    unfold updated_cache, drop_duplicates.
    apply drop_duplicates_from_ids. split; [| simpl; tauto].
    rewrite map_app. apply in_or_app. right.
    apply (in_map entry_book_id) in Hin. exact Hin. }
  split; [exact Hid |]. split.
  - intros H. apply remaining_books_In in H as [_ H]. contradiction.
  - assert (Hbooks : In b books_df).
    { apply resolutions_rows in Hb.
      apply (proj1 (books_to_process_sample books_df (loaded_cache w)
                      max_summaries)) in Hb.
      now apply remaining_books_In in Hb. }
    destruct (process_rows _ _ _ _ _ Hrows) as (final_cache & -> & Hids).
    rewrite <- Hids in Hid.
    apply in_map_iff in Hid as (r & Hr & Hin).
    exists r. apply left_join_In. auto.
Qed.

(** ** The same answers give the same result *)

Lemma search_flow_stationary (title : string) (author : option string)
  (attempts : list nat) :
  (forall n m, search_api n = search_api m) ->
  forall n m st,
    search_flow title author attempts n st =
    search_flow title author attempts m st.
Proof.
  intros Hs. induction attempts as [|attempt rest IH]; intros n m st; simpl;
    [reflexivity |].
  rewrite (Hs n m).
  destruct (attempt_flow title author st (search_api m)) as [[d | st'] | e];
    [reflexivity | apply IH | reflexivity].
Qed.

Lemma fetch_by_isbn_stationary (depth : nat) :
  (forall n m, isbn_api n = isbn_api m) ->
  forall isbn w1 w2,
    fst (fetch_by_isbn depth isbn w1) = fst (fetch_by_isbn depth isbn w2).
Proof.
  intros Hs. induction depth as [|depth IH]; intros isbn w1 w2;
    destruct isbn as [i |]; simpl; try reflexivity.
  - now destruct (Str.truthy i).
  - destruct (Str.truthy i); simpl; [| reflexivity].
    run. unfold requests_get_isbn. rewrite (Hs (isbn_sent w1) (isbn_sent w2)).
    destruct (isbn_api (isbn_sent w2)) as [e | status_code d]; simpl.
    + unfold isbn_handler; run. now destruct e.
    + destruct (status_code =? 404); simpl; [reflexivity |].
      destruct (status_code =? 429); simpl.
      * match goal with
        | |- fst match fetch_by_isbn depth (Some i) ?a with _ => _ end =
             fst match fetch_by_isbn depth (Some i) ?b with _ => _ end =>
            assert (H := IH (Some i) a b);
            destruct (fetch_by_isbn depth (Some i) a) as [r1 v1] eqn:E1;
            destruct (fetch_by_isbn depth (Some i) b) as [r2 v2] eqn:E2
        end.
        simpl in H. subst r2.
        apply fetch_by_isbn_effects in E1 as (_ & _ & _ & Hr).
        destruct r1 as [a | e]; [reflexivity | now subst e].
      * now destruct (error_status status_code).
Qed.

(** X12. Against a service that gives the same answer to every request of
    an endpoint, the result of [fetch_book_summary] for a title, author
    and ISBN is the same whenever it is asked: it does not depend on the
    requests already sent, on the trace or on the cache file. *)
Theorem resolver_idempotent (depth : nat) (title : string)
  (author : option string) (isbn : option string) (w1 w2 : world) :
  (forall n m, isbn_api n = isbn_api m) ->
  (forall n m, search_api n = search_api m) ->
  fst (fetch_book_summary depth title author isbn w1) =
  fst (fetch_book_summary depth title author isbn w2).
Proof.
  intros Hi Hs.
  assert (Hsearch : forall v1 v2,
             fst (search_path title author v1) =
             fst (search_path title author v2))
    by (intros; rewrite !search_path_result;
        now apply search_flow_stationary).
  destruct (opt_truthy isbn) eqn:E.
  - rewrite !fetch_book_summary_isbn by exact E.
    assert (H := fetch_by_isbn_stationary depth Hi isbn w1 w2).
    destruct (fetch_by_isbn depth isbn w1) as [r1 v1].
    destruct (fetch_by_isbn depth isbn w2) as [r2 v2].
    simpl in H. subst r2.
    destruct r1 as [[d |] | e]; [reflexivity | apply Hsearch | reflexivity].
  - rewrite !fetch_book_summary_no_isbn by exact E. apply Hsearch.
Qed.

(** ** The requests of a batch *)

Lemma fetch_book_summary_requests (depth : nat) (title : string)
  (author : option string) (isbn : option string) (w : world) :
  (search_sent (snd (fetch_book_summary depth title author isbn w)) <=
   search_sent w + RETRY_COUNT)%nat /\
  (opt_truthy isbn = false ->
   isbn_sent (snd (fetch_book_summary depth title author isbn w)) =
   isbn_sent w).
Proof.
  assert (Hsearch : forall v,
             (search_sent (snd (search_path title author v)) <=
              search_sent v + RETRY_COUNT)%nat /\
             isbn_sent (snd (search_path title author v)) = isbn_sent v).
  { intros v. unfold search_path. rewrite search_attempts_run.
    cbn [snd search_sent isbn_sent].
    destruct (search_events_bounded title author RETRY_COUNT 0
                (search_sent v) no_match) as (Hk & _).
    split; [lia | reflexivity]. }
  destruct (opt_truthy isbn) eqn:E.
  - split; [| discriminate].
    rewrite fetch_book_summary_isbn by exact E.
    destruct (fetch_by_isbn depth isbn w) as [[[d |] | e] v] eqn:Ev;
      apply fetch_by_isbn_effects in Ev as (Hs & _); simpl; try lia.
    destruct (Hsearch v) as [H _]. lia.
  - rewrite fetch_book_summary_no_isbn by exact E.
    destruct (Hsearch w) as [H1 H2]. auto.
Qed.

Lemma resolve_rows_requests (depth : nat) (rows : list book) :
  forall new_entries w,
    (search_sent (snd (resolve_rows depth rows new_entries w)) <=
     search_sent w + RETRY_COUNT * List.length rows)%nat /\
    (forallb (fun row => negb (opt_truthy (isbn row))) rows = true ->
     isbn_sent (snd (resolve_rows depth rows new_entries w)) = isbn_sent w).
Proof.
  unfold RETRY_COUNT.
  induction rows as [|row rest IH]; intros new_entries w; simpl.
  - split; [lia | reflexivity].
  - unfold bind.
    destruct (fetch_book_summary_requests depth (title row)
                (Some (authors row)) (isbn row) w) as [Hs Hi].
    unfold RETRY_COUNT in Hs.
    destruct (fetch_book_summary depth (title row) (Some (authors row))
                (isbn row) w) as [[r | e] w1]; simpl in *.
    + destruct (IH (append_entry row r new_entries) w1) as [Hs' Hi'].
      split; [lia |]. intros H. apply andb_prop in H as [H1 H2].
      rewrite Hi' by exact H2. apply Hi. now apply negb_true_iff.
    + split; [lia |]. intros H. apply andb_prop in H as [H1 _].
      apply Hi. now apply negb_true_iff.
Qed.

(** X13. A run sends at most three search requests for each row of its
    batch: at most three times the number of summaries the cache lacks
    to reach [max_summaries], and none when the cache is full; and for a
    catalog without ISBNs it sends nothing to the ISBN endpoint. *)
Theorem batch_requests_bounded (depth : nat) (books_df : list book)
  (max_summaries : Z) (w : world) :
  let w' := snd (process_book_summaries depth books_df max_summaries w) in
  Z.of_nat (search_sent w') <=
  Z.of_nat (search_sent w) +
  3 * Z.max 0 (max_summaries - Z.of_nat (List.length (loaded_cache w))) /\
  (forallb (fun row => negb (opt_truthy (isbn row))) books_df = true ->
   isbn_sent w' = isbn_sent w).
Proof.
  cbv zeta. rewrite process_run.
  destruct (Z.leb_spec max_summaries (Z.of_nat (List.length (loaded_cache w))));
    [cbn [snd]; split; [lia | reflexivity] |].
  set (batch := books_to_process books_df (loaded_cache w) max_summaries).
  assert (Hlen := books_to_process_length books_df (loaded_cache w)
                    max_summaries H).
  fold batch in Hlen.
  destruct (resolve_rows_requests depth batch [] w) as [Hs Hi].
  assert (Hnone : forallb (fun row => negb (opt_truthy (isbn row))) books_df =
                  true ->
                  forallb (fun row => negb (opt_truthy (isbn row))) batch =
                  true).
  { intros Hall. rewrite forallb_forall in *. intros row Hrow.
    apply Hall.
    apply (proj1 (books_to_process_sample books_df (loaded_cache w)
                    max_summaries)) in Hrow.
    now apply remaining_books_In in Hrow. }
  assert (Hsent : forall v, snd (resolve_rows depth batch [] w) = v ->
                            Z.of_nat (search_sent v) <=
                            Z.of_nat (search_sent w) +
                            3 * Z.max 0 (max_summaries -
                                         Z.of_nat (List.length (loaded_cache w))))
    by (intros v <-; unfold RETRY_COUNT in Hs; lia).
  destruct (resolve_rows depth batch [] w) as [[es | e] w1]; cbn [snd] in *.
  - rewrite save_and_join_run.
    destruct es; cbn [snd search_sent isbn_sent];
      (split; [now apply Hsent | auto]).
  - split; [now apply Hsent | auto].
Qed.

(** ** ISBN text (lines 42-46) *)

(** A text in which every character is a digit. *)
Definition all_digits (s : string) : Prop :=
  Forall (fun c => is_digit c = true) (list_ascii_of_string s).

Lemma digits_app (s1 s2 : string) :
  digits (s1 ++ s2)%string = (digits s1 ++ digits s2)%string.
Proof.
  induction s1 as [|c r IH]; simpl; [reflexivity |].
  destruct (is_digit c); simpl; now rewrite IH.
Qed.

Lemma digits_idempotent (s : string) : digits (digits s) = digits s.
Proof.
  induction s as [|c r IH]; simpl; [reflexivity |].
  destruct (is_digit c) eqn:E; simpl; [rewrite E; now rewrite IH | exact IH].
Qed.

Lemma digits_length (s : string) :
  (String.length (digits s) <= String.length s)%nat.
Proof.
  induction s as [|c r IH]; simpl; [lia |].
  destruct (is_digit c); simpl; lia.
Qed.

Lemma digits_fixed (s : string) :
  digits s = s <-> String.length (digits s) = String.length s.
Proof.
  split; [now intros -> |].
  induction s as [|c r IH]; simpl; [reflexivity |].
  destruct (is_digit c); simpl.
  - intros [= H]. now rewrite IH.
  - intros H. assert (H' := digits_length r). lia.
Qed.

(** The characters of [digits s] are the digits among the characters of
    [s], in their order. *)
Lemma digits_chars (s : string) :
  list_ascii_of_string (digits s) = filter is_digit (list_ascii_of_string s).
Proof.
  induction s as [|c r IH]; simpl; [reflexivity |].
  destruct (is_digit c); simpl; now rewrite IH.
Qed.

Lemma all_digits_digits (s : string) : all_digits (digits s).
Proof.
  unfold all_digits. rewrite digits_chars. apply Forall_forall.
  intros c Hc. now apply filter_In in Hc.
Qed.

Lemma all_digits_fixed (s : string) : all_digits s <-> digits s = s.
Proof.
  unfold all_digits. split.
  - induction s as [|c r IH]; simpl; intros H; [reflexivity |].
    inversion H as [| x l Hc Hr]; subst. rewrite Hc. now rewrite IH.
  - intros <-. apply all_digits_digits.
Qed.

(** X14. [standardize_isbn] answers [None] only for a missing cell; for a
    text it answers the digits among its characters, in their order and
    nothing else, so the result is a text of digits no longer than the
    input, it is the input exactly when every character of the input is a
    digit, and standardising twice, as [load_data] and [clean_books_data]
    do in turn, gives what standardising once gives. *)
Theorem standardize_isbn_digits (isbn : option string) :
  (standardize_isbn isbn = None <-> isbn = None) /\
  standardize_isbn (standardize_isbn isbn) = standardize_isbn isbn /\
  (forall text,
      isbn = Some text ->
      exists d,
        standardize_isbn isbn = Some d /\
        list_ascii_of_string d =
        filter is_digit (list_ascii_of_string text) /\
        all_digits d /\
        (String.length d <= String.length text)%nat /\
        (all_digits text <-> d = text)).
Proof.
  split; [| split].
  - destruct isbn as [text |]; simpl; split; intros H;
      [discriminate H | discriminate H | reflexivity | reflexivity].
  - destruct isbn as [text |]; simpl; [| reflexivity].
    now rewrite digits_idempotent.
  - intros text ->. exists (digits text). simpl.
    split; [reflexivity |]. split; [apply digits_chars |].
    split; [apply all_digits_digits |].
    split; [apply digits_length | apply all_digits_fixed].
Qed.

(** X15. The digits of a text in parts are the digits of the parts, so
    parts joined by text without digits (hyphens, spaces) standardise to
    the digits joined; and digits followed by [.0], as the text of a
    float is, keep that zero: one digit more than the number has. *)
Theorem standardize_isbn_separators (left right sep : string) :
  standardize_isbn (Some (left ++ right)%string) =
  Some (digits left ++ digits right)%string /\
  (digits sep = "" ->
   standardize_isbn (Some (left ++ sep ++ right)%string) =
   standardize_isbn (Some (left ++ right)%string)) /\
  (all_digits left ->
   standardize_isbn (Some (left ++ ".0")%string) = Some (left ++ "0")%string /\
   String.length (left ++ "0")%string = S (String.length left)).
Proof.
  split; [| split].
  - simpl. now rewrite digits_app.
  - intros Hsep. simpl. now rewrite !digits_app, Hsep.
  - intros Hleft. apply all_digits_fixed in Hleft.
    simpl. rewrite digits_app, Hleft. simpl.
    split; [reflexivity |].
    clear Hleft. induction left as [|c r IH]; simpl; [reflexivity |].
    now rewrite IH.
Qed.

(** ** Cleaning the catalog (lines 87-102) *)

Definition has_title (r : raw_book) : bool := is_text (raw_title r).

Lemma str_accessor_text (column : list field) :
  str_accessor column = true <-> column = [] \/ exists s, In (Text s) column.
Proof.
  destruct column as [|c rest]; [simpl; tauto |].
  unfold str_accessor. rewrite existsb_exists. split.
  - intros (x & Hx & Ht). right. destruct x as [| f | s];
      try discriminate Ht. now exists s.
  - intros [H | (s & Hs)]; [discriminate H |]. now exists (Text s).
Qed.

Lemma clean_row_kept (r : raw_book) :
  notna_field (raw_title (clean_row r)) &&
  notna_field (raw_authors (clean_row r)) = has_title r.
Proof.
  unfold clean_row, has_title. simpl.
  destruct (raw_title r); simpl; try reflexivity.
  now destruct (raw_authors r).
Qed.

Lemma dropna_clean_rows (books_df : list raw_book) :
  dropna (map clean_row books_df) = map clean_row (filter has_title books_df).
Proof.
  unfold dropna.
  induction books_df as [|r rest IH]; [reflexivity |].
  cbn [map filter]. cbv beta. rewrite clean_row_kept, IH.
  now destruct (has_title r).
Qed.

(** What cleaning makes of a row with a title. *)
Lemma clean_row_shape (r : raw_book) :
  has_title r = true ->
  exists t a rating,
    raw_title (clean_row r) = Text t /\
    raw_authors (clean_row r) = Text a /\
    raw_average_rating (clean_row r) = Some rating /\
    forall i, raw_isbn (clean_row r) = Some i -> all_digits i.
Proof.
  unfold has_title, clean_row. simpl. intros Hr.
  destruct (raw_title r) as [| x | t]; try discriminate Hr.
  exists (Str.strip t).
  exists (match raw_authors r with
          | Text a => Str.strip (lower a)
          | _ => "unknown"
          end).
  exists (match raw_average_rating r with Some x => x | None => 3%float end).
  split; [reflexivity |].
  split; [now destruct (raw_authors r) |].
  split; [now destruct (raw_average_rating r) |].
  intros i. destruct (raw_isbn r) as [text |]; simpl; intros H;
    [| discriminate H].
  injection H as <-. apply all_digits_digits.
Qed.

(** X16. When the [title] and [authors] columns both have a text in them
    (or the frame has no rows), cleaning drops exactly the rows whose
    title is not a text and keeps the others in order; every row it
    returns has a title text, an author text, a rating and an ISBN that
    is missing or made of digits; missing authors become ["unknown"],
    present ones are lowered and stripped, and a missing rating becomes
    3.0.  When one of the two columns has rows and no text, [.str] raises
    and the frame comes back as it was given. *)
Theorem clean_books_data_rows (books_df : list raw_book) :
  (str_accessor (map raw_authors books_df) = true ->
   str_accessor (map raw_title books_df) = true ->
   clean_books_data books_df = map clean_row (filter has_title books_df) /\
   forall r, In r (clean_books_data books_df) ->
             exists t a rating,
               raw_title r = Text t /\ raw_authors r = Text a /\
               raw_average_rating r = Some rating /\
               forall i, raw_isbn r = Some i -> all_digits i) /\
  (str_accessor (map raw_authors books_df) = false \/
   str_accessor (map raw_title books_df) = false ->
   clean_books_data books_df = books_df) /\
  (forall column,
      str_accessor column = true <->
      column = [] \/ exists s, In (Text s) column) /\
  (forall r, raw_title (clean_row r) =
             match raw_title r with
             | Text t => Text (Str.strip t)
             | _ => Missing
             end /\
             raw_authors (clean_row r) =
             match raw_authors r with
             | Text a => Text (Str.strip (lower a))
             | _ => Text "unknown"
             end /\
             raw_average_rating (clean_row r) =
             match raw_average_rating r with
             | Some x => Some x
             | None => Some 3%float
             end).
Proof.
  split; [| split; [| split]].
  - intros Ha Ht.
    assert (E : clean_books_data books_df =
                map clean_row (filter has_title books_df)).
    { unfold clean_books_data, cleaned. rewrite Ha, Ht. simpl.
      apply dropna_clean_rows. }
    split; [exact E |].
    intros r H. rewrite E in H.
    apply in_map_iff in H as (x & <- & Hx).
    apply filter_In in Hx as [_ Hx]. now apply clean_row_shape.
  - intros H. unfold clean_books_data, cleaned.
    destruct H as [H | H]; rewrite H; [reflexivity |].
    now rewrite andb_false_r.
  - apply str_accessor_text.
  - intros r. unfold clean_row. simpl.
    split; [now destruct (raw_title r) |].
    split; [now destruct (raw_authors r) | now destruct (raw_average_rating r)].
Qed.

Lemma rstrip_idempotent (s : string) : Str.rstrip (Str.rstrip s) = Str.rstrip s.
Proof.
  induction s as [|c r IH]; simpl; [reflexivity |].
  destruct (Str.rstrip r) as [|c' r'] eqn:E.
  - destruct (Str.is_space c) eqn:Ec; simpl; [reflexivity | now rewrite Ec].
  - simpl in *. rewrite IH. reflexivity.
Qed.

Lemma lstrip_head (s : string) :
  Str.lstrip s = "" \/
  exists c r, Str.lstrip s = String c r /\ Str.is_space c = false.
Proof.
  induction s as [|c r IH]; simpl; [now left |].
  destruct (Str.is_space c) eqn:E; [exact IH | right; eauto].
Qed.

Lemma strip_idempotent (s : string) : Str.strip (Str.strip s) = Str.strip s.
Proof.
  unfold Str.strip.
  assert (H : Str.lstrip (Str.rstrip (Str.lstrip s)) = Str.rstrip (Str.lstrip s)).
  { destruct (lstrip_head s) as [-> | (c & r & -> & Hc)]; [reflexivity |].
    simpl. destruct (Str.rstrip r); rewrite ?Hc; simpl; rewrite ?Hc;
      reflexivity. }
  rewrite H. apply rstrip_idempotent.
Qed.

(** The columns of a cleaned frame have their texts. *)
Lemma cleaned_columns (rows : list raw_book) :
  str_accessor (map raw_authors (map clean_row (filter has_title rows))) = true /\
  str_accessor (map raw_title (map clean_row (filter has_title rows))) = true.
Proof.
  destruct (filter has_title rows) as [|r rest] eqn:E; [split; reflexivity |].
  assert (Hr : has_title r = true).
  { assert (Hin : In r (filter has_title rows)) by (rewrite E; now left).
    now apply filter_In in Hin. }
  destruct (clean_row_shape r Hr) as (t & a & _ & Ht & Ha & _).
  split; apply str_accessor_text; right;
    [exists a; rewrite <- Ha | exists t; rewrite <- Ht];
    apply in_map; now left.
Qed.

(** X17. Cleaning twice is cleaning once, whether the first cleaning went
    through or gave the frame back, given of [str.lower] that it leaves a
    lowered and stripped text and the text ["unknown"] as they are. *)
Theorem clean_books_data_idempotent (books_df : list raw_book) :
  (forall s, lower (Str.strip (lower s)) = Str.strip (lower s)) ->
  lower "unknown" = "unknown" ->
  clean_books_data (clean_books_data books_df) = clean_books_data books_df.
Proof.
  intros Hlower Hunknown.
  assert (Hrow : forall r, has_title r = true ->
                           has_title (clean_row r) = true /\
                           clean_row (clean_row r) = clean_row r).
  { intros r Hr. unfold has_title in *. unfold clean_row at 1 3.
    unfold clean_row. simpl.
    destruct (raw_title r) as [| x | t]; try discriminate Hr. simpl.
    split; [reflexivity |]. rewrite strip_idempotent. f_equal.
    - destruct (raw_authors r) as [| x | a]; simpl.
      + now rewrite Hunknown.
      + now rewrite Hunknown.
      + now rewrite Hlower, strip_idempotent.
    - destruct (raw_isbn r); simpl; [now rewrite digits_idempotent |
                                     reflexivity].
    - now destruct (raw_average_rating r). }
  assert (Hfix : forall rows,
             map clean_row
               (filter has_title (map clean_row (filter has_title rows))) =
             map clean_row (filter has_title rows)).
  { induction rows as [|r rest IH]; simpl; [reflexivity |].
    destruct (has_title r) eqn:E; [| exact IH].
    destruct (Hrow r E) as [H1 H2].
    simpl. rewrite H1. simpl. now rewrite H2, IH. }
  destruct (str_accessor (map raw_authors books_df) &&
            str_accessor (map raw_title books_df)) eqn:E.
  - assert (Hc : clean_books_data books_df =
                 map clean_row (filter has_title books_df))
      by (unfold clean_books_data, cleaned; rewrite E;
          apply dropna_clean_rows).
    rewrite Hc. unfold clean_books_data, cleaned.
    destruct (cleaned_columns books_df) as [-> ->]. simpl.
    rewrite dropna_clean_rows. apply Hfix.
  - assert (Hc : clean_books_data books_df = books_df)
      by (unfold clean_books_data, cleaned; now rewrite E).
    rewrite Hc. exact Hc.
Qed.

(** ** Tags (lines 105-129) *)

Definition tag_le (x y : merged_tag) : Prop := tag_before x y = true.

Lemma tag_before_total (x y : merged_tag) :
  tag_before x y = false -> tag_before y x = true.
Proof.
  unfold tag_before. intros H.
  apply orb_false_iff in H as [H1 H2]. apply Z.ltb_ge in H1.
  destruct (Z.eqb_spec (goodreads_book_id (fst x)) (goodreads_book_id (fst y)))
    as [E | ne].
  - simpl in H2. apply Z.leb_gt in H2.
    apply orb_true_iff. right. apply andb_true_iff. split.
    + apply Z.eqb_eq. congruence.
    + apply Z.leb_le. lia.
  - apply orb_true_iff. left. apply Z.ltb_lt. lia.
Qed.

Lemma tag_le_trans (x y z : merged_tag) :
  tag_le x y -> tag_le y z -> tag_le x z.
Proof.
  unfold tag_le, tag_before. intros H1 H2.
  apply orb_true_iff in H1. apply orb_true_iff in H2. apply orb_true_iff.
  rewrite !andb_true_iff, !Z.ltb_lt, !Z.eqb_eq, !Z.leb_le in *.
  destruct H1 as [H1 | [H1 H1']], H2 as [H2 | [H2 H2']];
    [left | left | left | right; split]; lia.
Qed.

Lemma insert_tag_Permutation (x : merged_tag) (rows : list merged_tag) :
  Permutation (insert_tag x rows) (x :: rows).
Proof.
  induction rows as [|y rest IH]; simpl; [apply Permutation_refl |].
  destruct (tag_before x y); [apply Permutation_refl |].
  eapply Permutation_trans; [apply perm_skip, IH | apply perm_swap].
Qed.

Lemma sort_tags_Permutation (rows : list merged_tag) :
  Permutation (sort_tags rows) rows.
Proof.
  induction rows as [|x rest IH]; simpl; [constructor |].
  eapply Permutation_trans; [apply insert_tag_Permutation |].
  now apply perm_skip.
Qed.

Lemma insert_tag_sorted (x : merged_tag) (rows : list merged_tag) :
  StronglySorted tag_le rows -> StronglySorted tag_le (insert_tag x rows).
Proof.
  induction rows as [|y rest IH]; simpl; intros H.
  - repeat constructor.
  - inversion H as [| a l Hrest Hall]; subst.
    destruct (tag_before x y) eqn:E.
    + constructor; [exact H |]. constructor; [exact E |].
      rewrite Forall_forall in *. intros z Hz.
      eapply tag_le_trans; [exact E | now apply Hall].
    + constructor; [now apply IH |].
      rewrite Forall_forall in *. intros z Hz.
      apply (Permutation_in _ (insert_tag_Permutation x rest)) in Hz.
      destruct Hz as [<- | Hz]; [now apply tag_before_total | now apply Hall].
Qed.

Lemma sort_tags_sorted (rows : list merged_tag) :
  StronglySorted tag_le (sort_tags rows).
Proof.
  induction rows as [|x rest IH]; simpl; [constructor |].
  now apply insert_tag_sorted.
Qed.

(** The rows of one book. *)
Definition of_book (id : Z) (r : merged_tag) : bool :=
  goodreads_book_id (fst r) =? id.

Definition count_ge (x y : merged_tag) : Prop := count (fst y) <= count (fst x).

Lemma of_book_sorted (id : Z) (rows : list merged_tag) :
  StronglySorted tag_le rows ->
  StronglySorted count_ge (filter (of_book id) rows).
Proof.
  induction rows as [|x rest IH]; simpl; intros H; [constructor |].
  inversion H as [| a l Hrest Hall]; subst.
  destruct (of_book id x) eqn:E; [| now apply IH].
  constructor; [now apply IH |].
  rewrite Forall_forall in *. intros y Hy.
  apply filter_In in Hy as [Hy Ey]. specialize (Hall y Hy).
  unfold of_book in *. apply Z.eqb_eq in E. apply Z.eqb_eq in Ey.
  unfold tag_le, tag_before in Hall. unfold count_ge.
  apply orb_true_iff in Hall as [Hall | Hall].
  - apply Z.ltb_lt in Hall. lia.
  - apply andb_true_iff in Hall as [_ Hall]. now apply Z.leb_le in Hall.
Qed.

(** The head of every group is the start of the group. *)
Lemma head_from_of_book (n : nat) (id : Z) (rows : list merged_tag) :
  forall seen,
    filter (of_book id) (head_from n seen rows) =
    firstn (n - count_occ Z.eq_dec seen id) (filter (of_book id) rows).
Proof.
  induction rows as [|r rest IH]; intros seen;
    [cbn [head_from filter]; now rewrite firstn_nil |].
  cbn [head_from]. cbv zeta.
  set (g := goodreads_book_id (fst r)).
  assert (Hrest : filter (of_book id) (head_from n (g :: seen) rest) =
                  firstn (n - count_occ Z.eq_dec (g :: seen) id)
                    (filter (of_book id) rest)) by apply IH.
  assert (Hob : of_book id r = (g =? id)) by reflexivity.
  cbn [count_occ] in Hrest.
  destruct (Nat.ltb_spec (count_occ Z.eq_dec seen g) n) as [Hlt | Hge];
    cbn [filter]; rewrite Hob, Hrest;
    destruct (Z.eqb_spec g id) as [E | ne];
    destruct (Z.eq_dec g id) as [E' | ne']; try contradiction;
    try reflexivity.
  - rewrite E in Hlt.
    destruct (n - count_occ Z.eq_dec seen id)%nat as [|m] eqn:Em; [lia |].
    cbn [firstn]. f_equal. f_equal. lia.
  - rewrite E in Hge.
    replace (n - count_occ Z.eq_dec seen id)%nat with 0%nat by lia.
    replace (n - S (count_occ Z.eq_dec seen id))%nat with 0%nat by lia.
    reflexivity.
Qed.

Lemma top_tags_of_book (id : Z) (book_tags_df : list book_tag)
  (tags_df : list tag) :
  filter (of_book id) (top_tags book_tags_df tags_df) =
  firstn 5 (filter (of_book id)
              (sort_tags (merge_tags book_tags_df tags_df))).
Proof.
  unfold top_tags, group_head. now rewrite head_from_of_book.
Qed.

Lemma filter_Permutation {A : Type} (f : A -> bool) (l l' : list A) :
  Permutation l l' -> Permutation (filter f l) (filter f l').
Proof.
  induction 1 as [| x l l' _ IH | x y l | l l' l'' _ IH1 _ IH2]; simpl.
  - constructor.
  - destruct (f x); [now apply perm_skip | exact IH].
  - destruct (f x), (f y); try apply Permutation_refl. apply perm_swap.
  - eapply Permutation_trans; eassumption.
Qed.

Lemma sorted_app {A : Type} (R : A -> A -> Prop) (l1 l2 : list A) :
  StronglySorted R (l1 ++ l2) ->
  StronglySorted R l1 /\ forall x y, In x l1 -> In y l2 -> R x y.
Proof.
  induction l1 as [|a l1 IH]; simpl; intros H.
  - split; [constructor | intros x y []].
  - inversion H as [| b l Hrest Hall]; subst.
    destruct (IH Hrest) as [Hs Hcross]. rewrite Forall_forall in Hall.
    split.
    + constructor; [exact Hs |]. rewrite Forall_forall. intros x Hx.
      apply Hall, in_or_app. now left.
    + intros x y [<- | Hx] Hy; [| now apply Hcross].
      apply Hall, in_or_app. now right.
Qed.

Lemma present_names_None (names : list (option string)) :
  present_names names = None <-> In None names.
Proof.
  induction names as [|[n|] rest IH]; simpl.
  - split; [discriminate | intros []].
  - destruct (present_names rest).
    + split; [discriminate |]. intros [E | H]; [discriminate |].
      now apply IH in H.
    + split; [| reflexivity]. intros _. right. now apply IH.
  - split; [now left | reflexivity].
Qed.

Lemma present_names_Some (names : list (option string)) (l : list string) :
  present_names names = Some l -> names = map Some l.
Proof.
  revert l. induction names as [|[n|] rest IH]; simpl; intros l H.
  - now injection H as <-.
  - destruct (present_names rest) as [l'|]; [| discriminate].
    injection H as <-. simpl. f_equal. now apply IH.
  - discriminate.
Qed.

Definition book_ids (rows : list merged_tag) : list Z :=
  map (fun r => goodreads_book_id (fst r)) rows.

Lemma book_ids_of_book (id : Z) (rows : list merged_tag) :
  In id (book_ids rows) <-> filter (of_book id) rows <> [].
Proof.
  unfold book_ids. rewrite in_map_iff. split.
  - intros (r & E & Hr) Hnil.
    assert (Hin : In r (filter (of_book id) rows)).
    { apply filter_In. split; [exact Hr |]. unfold of_book.
      now apply Z.eqb_eq. }
    rewrite Hnil in Hin. exact Hin.
  - intros Hne. destruct (filter (of_book id) rows) as [|r l] eqn:E;
      [now elim Hne |].
    assert (Hin : In r (filter (of_book id) rows)) by (rewrite E; now left).
    apply filter_In in Hin as [Hin Hid]. exists r. split; [| exact Hin].
    now apply Z.eqb_eq in Hid.
Qed.

(** The frame of lines 113-117, when no join raises: one row for every
    [goodreads_book_id] of [top_tags] not yet seen, with the joined names
    of its group. *)
Lemma tags_final_from_Some (all rows : list merged_tag) :
  forall seen final,
    tags_final_from seen all rows = Some final ->
    NoDup (map fst final) /\
    (forall id s, In (id, s) final ->
       ~ In id seen /\ In id (book_ids rows) /\
       exists names, present_names (group_names id all) = Some names /\
                     s = Str.join ", " names) /\
    (forall id, In id (book_ids rows) -> ~ In id seen ->
       exists names, present_names (group_names id all) = Some names /\
                     In (id, Str.join ", " names) final).
Proof.
  induction rows as [|r rest IH]; intros seen final H.
  - injection H as <-. split; [constructor |].
    split; [intros id s [] | intros id []].
  - cbn [tags_final_from] in H. cbv zeta in H.
    set (g := goodreads_book_id (fst r)) in *.
    destruct (present_names (group_names g all)) as [names|] eqn:En;
      [| discriminate].
    destruct (tags_final_from (g :: seen) all rest) as [final'|] eqn:Er;
      [| discriminate].
    destruct (IH _ _ Er) as (Hnd & Hin & Hall).
    destruct (isin g seen) eqn:Es; injection H as <-.
    + apply isin_In in Es. split; [exact Hnd |]. split.
      * intros id s Hi. destruct (Hin id s Hi) as (Hs & Hr & Hn).
        split; [intros Hc; apply Hs; now right |].
        split; [now right | exact Hn].
      * intros id [E | Hi] Hs.
        -- elim Hs. unfold g in Es. now rewrite E in Es.
        -- apply Hall; [exact Hi |]. intros [E | Hc]; [| now apply Hs].
           apply Hs. now rewrite <- E.
    + apply isin_not_In in Es. split; [| split].
      * cbn [map fst]. constructor; [| exact Hnd].
        intros Hc. apply in_map_iff in Hc as ([i s] & E & Hi).
        cbn [fst] in E. subst i.
        destruct (Hin g s Hi) as (Hs & _). apply Hs. now left.
      * intros id s [E | Hi].
        -- injection E as <- <-. split; [exact Es |].
           split; [now left |]. now exists names.
        -- destruct (Hin id s Hi) as (Hs & Hr & Hn).
           split; [intros Hc; apply Hs; now right |].
           split; [now right | exact Hn].
      * intros id Hi Hs.
        destruct (Z.eq_dec g id) as [E | ne].
        -- subst id. exists names. split; [exact En | now left].
        -- destruct Hi as [E | Hi]; [contradiction |].
           destruct (Hall id Hi) as (names' & Hn & Hf).
           ++ intros [E | Hc]; [contradiction | now apply Hs].
           ++ exists names'. split; [exact Hn | now right].
Qed.

Lemma tags_final_from_None (all rows : list merged_tag) :
  forall seen,
    tags_final_from seen all rows = None <->
    exists r, In r rows /\
              present_names (group_names (goodreads_book_id (fst r)) all)
              = None.
Proof.
  induction rows as [|r rest IH]; intros seen.
  - simpl. split; [discriminate | intros (r & [] & _)].
  - cbn [tags_final_from]. cbv zeta.
    set (g := goodreads_book_id (fst r)).
    specialize (IH (g :: seen)).
    destruct (present_names (group_names g all)) as [names|] eqn:En.
    + destruct (tags_final_from (g :: seen) all rest) as [final'|].
      * split.
        -- destruct (isin g seen); discriminate.
        -- intros (r' & [<- | Hr] & Hn).
           ++ fold g in Hn. congruence.
           ++ destruct IH as [_ IH]. discriminate IH. now exists r'.
      * split; [| reflexivity]. intros _.
        destruct IH as [IH _]. destruct (IH eq_refl) as (r' & Hr & Hn).
        exists r'. split; [now right | exact Hn].
    + split; [| reflexivity]. intros _. exists r. split; [now left | exact En].
Qed.

(** A join raises exactly when a row of the frame has no name. *)
Lemma tags_final_None (rows : list merged_tag) :
  tags_final rows = None <-> exists r, In r rows /\ snd r = None.
Proof.
  unfold tags_final. rewrite tags_final_from_None. split.
  - intros (r & _ & Hn). apply present_names_None in Hn.
    unfold group_names in Hn. apply in_map_iff in Hn as (r' & E & Hr').
    apply filter_In in Hr' as [Hr' _]. now exists r'.
  - intros (r & Hr & E). exists r. split; [exact Hr |].
    apply present_names_None. unfold group_names. apply in_map_iff.
    exists r. split; [exact E |]. apply filter_In. split; [exact Hr |].
    apply Z.eqb_refl.
Qed.

Lemma filter_key_unique {A : Type} (key : A -> Z) (id : Z) (l : list A) :
  NoDup (map key l) ->
  (Datatypes.length (filter (fun t => Z.eqb (key t) id) l) <= 1)%nat.
Proof.
  induction l as [|x l IH]; simpl; intros H; [lia |].
  inversion H as [| k ks Hx Hnd]; subst.
  destruct (Z.eqb_spec (key x) id) as [E | ne]; [| now apply IH].
  simpl. destruct (filter (fun t => key t =? id) l) as [|y l'] eqn:Ef;
    [simpl; lia |].
  elim Hx. apply in_map_iff. exists y.
  assert (Hy : In y (filter (fun t => key t =? id) l)) by (rewrite Ef; now left).
  apply filter_In in Hy as [Hy Ey]. apply Z.eqb_eq in Ey.
  split; [congruence | exact Hy].
Qed.

Lemma join_tags_rows (books_df : list raw_book) (final : list (Z * string)) :
  NoDup (map fst final) ->
  map tagged_row (join_tags books_df final) = books_df.
Proof.
  intros Hnd. unfold join_tags.
  induction books_df as [|b rest IH]; [reflexivity |].
  cbn [flat_map]. rewrite map_app, IH.
  pose proof (filter_key_unique fst (raw_book_id b) final Hnd) as Hlen.
  destruct (filter (fun t => fst t =? raw_book_id b) final) as [|m [|m' ms]];
    [reflexivity | reflexivity |].
  simpl in Hlen. lia.
Qed.

Lemma join_tags_In (books_df : list raw_book) (final : list (Z * string))
  (row : tagged_book) :
  In row (join_tags books_df final) ->
  In (tagged_row row) books_df /\
  main_genre row = genre_of (tags_combined row) /\
  match tags_combined row with
  | Some s => In (raw_book_id (tagged_row row), s) final
  | None => ~ In (raw_book_id (tagged_row row)) (map fst final)
  end.
Proof.
  unfold join_tags. rewrite in_flat_map. intros (b & Hb & Hrow).
  destruct (filter (fun t => fst t =? raw_book_id b) final) as [|m ms] eqn:Ef.
  - destruct Hrow as [<- | []]. cbn [tagged_row tags_combined main_genre].
    split; [exact Hb |]. split; [reflexivity |].
    intros Hc. apply in_map_iff in Hc as (t & E & Ht).
    assert (Hin : In t (filter (fun t => fst t =? raw_book_id b) final)).
    { apply filter_In. split; [exact Ht | now apply Z.eqb_eq]. }
    rewrite Ef in Hin. exact Hin.
  - apply in_map_iff in Hrow as (t & <- & Ht).
    cbn [tagged_row tags_combined main_genre].
    split; [exact Hb |]. split; [reflexivity |].
    assert (Hin : In t (filter (fun t => fst t =? raw_book_id b) final))
      by (rewrite Ef; exact Ht).
    apply filter_In in Hin as [Hin E]. apply Z.eqb_eq in E.
    rewrite <- E. now destruct t.
Qed.

(** The catalog rows of the returned frame. *)
Definition catalog_rows (t : tagging) : list raw_book :=
  match t with
  | Tagged rows => map tagged_row rows
  | Untagged books_df => books_df
  end.

(** The tag rows of a book, as lines 109-111 order and cut them. *)
Definition book_tags_sorted (id : Z) (book_tags_df : list book_tag)
  (tags_df : list tag) : list merged_tag :=
  filter (of_book id) (sort_tags (merge_tags book_tags_df tags_df)).

Lemma tagged_row_tags (books_df : list raw_book) (book_tags_df : list book_tag)
  (tags_df : list tag) (rows : list tagged_book) (row : tagged_book) :
  add_tags_to_books books_df book_tags_df tags_df = Tagged rows ->
  In row rows ->
  let kept :=
    firstn 5 (book_tags_sorted (raw_book_id (tagged_row row))
                book_tags_df tags_df) in
  main_genre row = genre_of (tags_combined row) /\
  ((kept = [] /\ tags_combined row = None) \/
   (kept <> [] /\
    exists names, map snd kept = map Some names /\
                  tags_combined row = Some (Str.join ", " names))).
Proof.
  intros H Hrow kept. unfold add_tags_to_books in H.
  destruct (tags_final (top_tags book_tags_df tags_df)) as [final|] eqn:Ef;
    [| discriminate].
  injection H as <-.
  destruct (join_tags_In _ _ _ Hrow) as (_ & Hg & Ht).
  split; [exact Hg |].
  set (id := raw_book_id (tagged_row row)) in *.
  assert (Hkept : filter (of_book id) (top_tags book_tags_df tags_df) = kept)
    by apply top_tags_of_book.
  assert (Hnames : group_names id (top_tags book_tags_df tags_df) =
                   map snd kept).
  { unfold group_names. now rewrite <- Hkept. }
  destruct (tags_final_from_Some _ _ _ _ Ef) as (_ & Hin & Hall).
  destruct (tags_combined row) as [s|].
  - right. destruct (Hin id s Ht) as (_ & Hid & names & Hn & ->).
    apply book_ids_of_book in Hid. rewrite Hkept in Hid.
    split; [exact Hid |]. exists names. split; [| reflexivity].
    rewrite <- Hnames. now apply present_names_Some.
  - left. split; [| reflexivity].
    destruct kept as [|k ks] eqn:Ek; [reflexivity |].
    elim Ht. destruct (Hall id) as (names & _ & Hf).
    + apply book_ids_of_book. rewrite Hkept. discriminate.
    + intros [].
    + apply in_map_iff. now exists (id, Str.join ", " names).
Qed.

Lemma before_comma_app (a b : string) :
  Str.before_comma (a ++ String "," b) = Str.before_comma a.
Proof.
  induction a as [|c a IH]; [reflexivity |].
  simpl. destruct (Ascii.eqb c ","); [reflexivity | now rewrite IH].
Qed.

Lemma before_comma_join (n : string) (rest : list string) :
  Str.before_comma (Str.join ", " (n :: rest)) = Str.before_comma n.
Proof.
  destruct rest as [|m rest]; [reflexivity |].
  change (Str.join ", " (n :: m :: rest))
    with (n ++ String "," (" " ++ Str.join ", " (m :: rest)))%string.
  apply before_comma_app.
Qed.

(** X18. [add_tags_to_books] returns the catalog rows it was given,
    each once and in their order, whether the tags were added or the
    [except] branch returned the frame unchanged: the left merge of line
    119 never drops or repeats a book. *)
Theorem tags_keep_catalog (books_df : list raw_book)
  (book_tags_df : list book_tag) (tags_df : list tag) :
  catalog_rows (add_tags_to_books books_df book_tags_df tags_df) = books_df.
Proof.
  unfold add_tags_to_books.
  destruct (tags_final (top_tags book_tags_df tags_df)) as [final|] eqn:Ef;
    [| reflexivity].
  cbn [catalog_rows]. apply join_tags_rows.
  now destruct (tags_final_from_Some _ _ _ _ Ef) as (Hnd & _).
Qed.

(** X19. With tag rows to work on, [add_tags_to_books] gives up and
    returns [books_df] without the new columns exactly when one of the
    rows kept by [head(5)] has no tag name (its [tag_id] is not in
    [tags_df], or its name is NaN there); a nameless tag that is cut off
    by [head(5)] does no harm. *)
Theorem tags_fallback (books_df : list raw_book)
  (book_tags_df : list book_tag) (tags_df : list tag) :
  book_tags_df <> [] ->
  ((exists id r,
      In r (firstn 5 (book_tags_sorted id book_tags_df tags_df)) /\
      snd r = None) ->
   add_tags_to_books books_df book_tags_df tags_df = Untagged books_df) /\
  ((forall id r,
      In r (firstn 5 (book_tags_sorted id book_tags_df tags_df)) ->
      snd r <> None) ->
   exists rows,
     add_tags_to_books books_df book_tags_df tags_df = Tagged rows).
Proof.
  intros _. unfold add_tags_to_books, book_tags_sorted. split.
  - intros (id & r & Hr & E).
    rewrite <- top_tags_of_book in Hr. apply filter_In in Hr as [Hr _].
    assert (Hn : tags_final (top_tags book_tags_df tags_df) = None)
      by (apply tags_final_None; now exists r).
    now rewrite Hn.
  - intros Hall.
    destruct (tags_final (top_tags book_tags_df tags_df)) as [final|] eqn:Ef;
      [now eexists |].
    apply tags_final_None in Ef as (r & Hr & E).
    elim (Hall (goodreads_book_id (fst r)) r); [| exact E].
    rewrite <- top_tags_of_book. apply filter_In. split; [exact Hr |].
    apply Z.eqb_refl.
Qed.

(** X20. When the tags are added, [tags_combined] of a book is the
    ', '-joined names of at most five of its tag rows, in non-increasing
    order of [count]; no tag row of the book that was left out has a
    higher [count] than one that was kept, rows are left out only when
    five were kept, and a book without tag rows has no [tags_combined]. *)
Theorem top_five_tags (books_df : list raw_book)
  (book_tags_df : list book_tag) (tags_df : list tag)
  (rows : list tagged_book) (row : tagged_book) :
  book_tags_df <> [] ->
  add_tags_to_books books_df book_tags_df tags_df = Tagged rows ->
  In row rows ->
  exists kept rest,
    Permutation (kept ++ rest)
      (filter (of_book (raw_book_id (tagged_row row)))
         (merge_tags book_tags_df tags_df)) /\
    (Datatypes.length kept <= 5)%nat /\
    (rest <> [] -> Datatypes.length kept = 5%nat) /\
    StronglySorted count_ge kept /\
    (forall x y, In x kept -> In y rest -> count (fst y) <= count (fst x)) /\
    ((kept = [] /\ tags_combined row = None) \/
     (kept <> [] /\
      exists names, map snd kept = map Some names /\
                    tags_combined row = Some (Str.join ", " names))).
Proof.
  intros _ H Hrow.
  destruct (tagged_row_tags _ _ _ _ _ H Hrow) as (_ & Ht).
  set (g := book_tags_sorted (raw_book_id (tagged_row row))
              book_tags_df tags_df) in *.
  assert (Hs : StronglySorted count_ge (firstn 5 g ++ skipn 5 g)).
  { rewrite firstn_skipn. apply of_book_sorted, sort_tags_sorted. }
  apply sorted_app in Hs as [Hs Hcross].
  exists (firstn 5 g), (skipn 5 g).
  split; [| split; [| split; [| split; [| split]]]].
  - rewrite firstn_skipn. apply filter_Permutation, sort_tags_Permutation.
  - apply firstn_le_length.
  - intros Hne. apply firstn_length_le.
    destruct (Nat.le_gt_cases 5 (Datatypes.length g)) as [Hle | Hgt];
      [exact Hle |].
    elim Hne. apply skipn_all2. lia.
  - exact Hs.
  - exact Hcross.
  - exact Ht.
Qed.

(** X21. When the tags are added, [main_genre] of a book without tag
    rows is 'Unknown'; otherwise it is the stripped text before the first
    comma of the name of one of the book's tag rows, and no tag row of
    the book has a higher [count] than that one. *)
Theorem main_genre_is_top_tag (books_df : list raw_book)
  (book_tags_df : list book_tag) (tags_df : list tag)
  (rows : list tagged_book) (row : tagged_book) :
  book_tags_df <> [] ->
  add_tags_to_books books_df book_tags_df tags_df = Tagged rows ->
  In row rows ->
  let mine := filter (of_book (raw_book_id (tagged_row row)))
                (merge_tags book_tags_df tags_df) in
  (mine = [] -> main_genre row = "Unknown") /\
  (mine <> [] ->
   exists top name,
     In top mine /\ snd top = Some name /\
     (forall y, In y mine -> count (fst y) <= count (fst top)) /\
     main_genre row = Str.strip (Str.before_comma name)).
Proof.
  intros _ H Hrow mine.
  destruct (tagged_row_tags _ _ _ _ _ H Hrow) as (Hg & Ht).
  set (g := book_tags_sorted (raw_book_id (tagged_row row))
              book_tags_df tags_df) in *.
  assert (Hperm : Permutation g mine)
    by apply filter_Permutation, sort_tags_Permutation.
  assert (Hs : StronglySorted count_ge g)
    by apply of_book_sorted, sort_tags_sorted.
  split.
  - intros Hnil. rewrite Hnil in Hperm.
    apply Permutation_sym, Permutation_nil in Hperm.
    rewrite Hperm in Ht. destruct Ht as [[_ Ht] | [Hne _]];
      [| now elim Hne].
    now rewrite Hg, Ht.
  - intros Hne. destruct g as [|top g'] eqn:Eg.
    + apply Permutation_nil in Hperm. contradiction.
    + cbn [firstn] in Ht. destruct Ht as [[Hc _] | [_ (names & Hn & Ht)]];
        [discriminate |].
      destruct names as [|name names]; [discriminate |].
      cbn [map] in Hn. injection Hn as Hn _.
      exists top, name. split; [| split; [| split]].
      * apply (Permutation_in _ Hperm). now left.
      * exact Hn.
      * intros y Hy. apply (Permutation_in _ (Permutation_sym Hperm)) in Hy.
        destruct Hy as [<- | Hy]; [lia |].
        inversion Hs as [| a l _ Hall]; subst.
        rewrite Forall_forall in Hall. now apply Hall.
      * rewrite Hg, Ht. cbn [genre_of]. now rewrite before_comma_join.
Qed.


End Acquisition.

(** * Runs on concrete inputs *)

(** The search path at the threshold: an exact match is returned, a
    candidate with another title is not, and three replies that are not
    scored (a connection error, a 503 without [docs], a timeout) give
    [not_found]. *)
Lemma threshold_acceptance_run :
  fst (search_path Mock.ratio Mock.lower Mock.search_dune "Dune"
         (Some "frank herbert") (initial_world None)) =
  Ok (Some "A desert planet...", title_search) /\
  fst (search_path Mock.ratio Mock.lower Mock.search_other "Dune"
         (Some "frank herbert") (initial_world None)) =
  Ok (None, not_found) /\
  fst (search_path Mock.ratio Mock.lower Mock.search_down "Dune"
         (Some "frank herbert") (initial_world None)) =
  Ok (None, not_found).
Proof.
  split; [| split].
  - apply (proj1 (threshold_acceptance Mock.ratio Mock.lower Mock.search_dune
                    Mock.ratio_is_percentage "Dune" (Some "frank herbert")
                    (initial_world None))
             0%nat 100%float Mock.dune_doc).
    + unfold RETRY_COUNT; lia.
    + intros j _ _. reflexivity.
    + intros j Hj; lia.
    + reflexivity.
    + reflexivity.
    + discriminate.
  - apply (proj2 (threshold_acceptance Mock.ratio Mock.lower Mock.search_other
                    Mock.ratio_is_percentage "Dune" (Some "frank herbert")
                    (initial_world None))).
    + intros j _ _. reflexivity.
    + intros j d _ [<- | []]. reflexivity.
  - apply (proj2 (threshold_acceptance Mock.ratio Mock.lower Mock.search_down
                    Mock.ratio_is_percentage "Dune" (Some "frank herbert")
                    (initial_world None))).
    + intros [|[|j]] _ Hs; discriminate Hs.
    + intros [|[|j]] d _ Hd; destruct Hd.
Defined.

(** Two rate-limited answers, then a description: three equal requests
    and two sleeps. *)
Lemma rate_limit_retries_run :
  fetch_by_isbn Mock.isbn_limited_twice 3 (Some "9780441172719")
    (initial_world None) =
  (Ok (Some "A desert planet..."),
   mkWorld 3 0
     [GetIsbn "9780441172719"; Warn (RateLimitExceeded 60); Sleep 60;
      GetIsbn "9780441172719"; Warn (RateLimitExceeded 60); Sleep 60;
      GetIsbn "9780441172719"]
     None).
Proof.
  apply (proj1 (rate_limit_retries Mock.isbn_limited_twice "9780441172719"
                  eq_refl)
           2%nat 3%nat (initial_world None) 200 (DescStr "A desert planet...")).
  - intros [|[|j]] Hj; [eexists; reflexivity | eexists; reflexivity | lia].
  - reflexivity.
  - reflexivity.
  - lia.
Defined.

(** The calls of [fetch_by_isbn] are not bounded by one repetition: two
    429 answers give two repetitions, and a service that always answers
    429 ends no call, here after a thousand nested ones. *)
Lemma rate_limit_repeats_more_than_once :
  trace (snd (fetch_by_isbn Mock.isbn_limited_twice 3 (Some "9780441172719")
                (initial_world None))) =
  [GetIsbn "9780441172719"; Warn (RateLimitExceeded 60); Sleep 60;
   GetIsbn "9780441172719"; Warn (RateLimitExceeded 60); Sleep 60;
   GetIsbn "9780441172719"] /\
  isbn_sent (snd (fetch_by_isbn Mock.isbn_limited_twice 3
                    (Some "9780441172719") (initial_world None))) = 3%nat /\
  fst (fetch_by_isbn Mock.isbn_always_limited 1000 (Some "9780441172719")
         (initial_world None)) = Raise RecursionError /\
  isbn_sent (snd (fetch_by_isbn Mock.isbn_always_limited 1000
                    (Some "9780441172719") (initial_world None))) = 1000%nat.
Proof. repeat split; vm_compute; reflexivity. Qed.

(** The three shapes of a description, a successful ISBN lookup, a
    search that accepts a description in two parts on its second
    attempt, and one whose only match has an empty description. *)
Lemma description_normalization_run :
  normalize_description (DescStr "text") = "text" /\
  normalize_description (DescDict (Some "text")) = "text" /\
  normalize_description (DescList ["te"; "xt"]) = "te xt" /\
  fst (fetch_by_isbn Mock.isbn_online 1 (Some "9780441172719")
         (initial_world None)) = Ok (Some "A desert planet...") /\
  fst (search_path Mock.ratio Mock.lower Mock.search_parts "Dune"
         (Some "frank herbert") (initial_world None)) =
  Ok (Some "A desert planet...", title_search) /\
  fst (search_path Mock.ratio Mock.lower Mock.search_blank "Dune"
         (Some "frank herbert") (initial_world None)) =
  Ok (None, not_found).
Proof.
  destruct (description_normalization Mock.ratio Mock.lower Mock.isbn_online
              Mock.search_parts)
    as (Hstr & Hdict & Hlist & Hfetch & _ & Hsearch & _ & _).
  destruct (description_normalization Mock.ratio Mock.lower Mock.isbn_online
              Mock.search_blank)
    as (_ & _ & _ & _ & _ & _ & _ & Hblank).
  split; [apply Hstr |]. split; [apply Hdict |]. split; [apply Hlist |].
  split; [| split].
  - apply (Hfetch 0%nat "9780441172719" (initial_world None) 200
             (DescStr "A desert planet...")); reflexivity.
  - apply (Hsearch "Dune" (Some "frank herbert") (initial_world None) 1%nat
             200 (mkBody (Some 1) (Some [Mock.parts_doc])) [Mock.parts_doc]
             100%float Mock.parts_doc);
      try reflexivity; try discriminate.
    + unfold RETRY_COUNT. lia.
    + intros j Hj. replace j with 0%nat by lia. reflexivity.
  - apply (Hblank "Dune" (Some "frank herbert") (initial_world None)).
    + intros j _ _. reflexivity.
    + intros d [<- | [<- | [<- | []]]]; reflexivity.
Defined.

(** A cache that holds [book_id] 5 merged with a batch that holds it too:
    one entry for 5, the cached one. *)
Lemma cache_merge_run :
  count_occ Z.eq_dec
    (map entry_book_id (updated_cache [Mock.cached_5] [Mock.fresh_5; Mock.fresh_6])) 5 = 1%nat /\
  find (has_id 5) (updated_cache [Mock.cached_5] [Mock.fresh_5; Mock.fresh_6]) = Some Mock.cached_5 /\
  exists added,
    updated_cache [Mock.cached_5] [Mock.fresh_5; Mock.fresh_6] = [Mock.cached_5] ++ added /\
    incl added [Mock.fresh_5; Mock.fresh_6].
Proof.
  destruct (cache_merge_keeps_first Mock.read_csv [Mock.cached_5] [Mock.fresh_5; Mock.fresh_6])
    as (Hcount & _ & _ & Hfind & Hprefix & _).
  split; [apply Hcount; simpl; auto |].
  split; [apply (Hfind 5); simpl; auto |].
  apply Hprefix. repeat constructor. simpl; tauto.
Defined.


(** With a description from the ISBN lookup no search request is sent. *)
Lemma isbn_first_run :
  fetch_book_summary Mock.ratio Mock.lower Mock.isbn_online Mock.search_dune 1
    "Dune" (Some "frank herbert") (Some "9780441172719") (initial_world None) =
  (Ok (Some "A desert planet...", isbn_search),
   mkWorld 1 0 [GetIsbn "9780441172719"] None) /\
  search_sent (mkWorld 1 0 [GetIsbn "9780441172719"] None) =
  search_sent (initial_world None).
Proof.
  destruct (proj1 (proj2 (isbn_first Mock.ratio Mock.lower Mock.isbn_online
                            Mock.search_dune 1 "Dune" (Some "frank herbert")
                            (initial_world None)))
              (Some "9780441172719") "A desert planet..."
              (mkWorld 1 0 [GetIsbn "9780441172719"] None) eq_refl eq_refl)
    as (H & Hsent & _).
  split; assumption.
Defined.

(** Three failed attempts: a connection error, a 503 and a timeout; three
    replies that are not scored; and a batch of two rows that both get
    their result from a service that answers. *)
Lemma failures_absorbed_run :
  search_path Mock.ratio Mock.lower Mock.search_down "Dune"
    (Some "frank herbert") (initial_world None) =
  (Ok (None, not_found),
   mkWorld 0 3
     [Delay 1; GetSearch (mkParams "Dune" (Some "frank herbert"));
      Delay 2; GetSearch (mkParams "Dune" (Some "frank herbert"));
      Delay 3; GetSearch (mkParams "Dune" (Some "frank herbert"));
      Warn (TitleTimeout "Dune")]
     None) /\
  fst (search_path Mock.ratio Mock.lower Mock.search_mixed "Dune"
         (Some "frank herbert") (initial_world None)) =
  Ok (None, not_found) /\
  exists es,
    fst (resolve_rows Mock.ratio Mock.lower Mock.isbn_unknown
           Mock.search_other 1 [Mock.dune; Mock.emma] []
           (initial_world None)) = Ok es.
Proof.
  destruct (failures_absorbed Mock.ratio Mock.lower Mock.isbn_online
              Mock.search_down "Dune" (Some "frank herbert"))
    as (_ & _ & _ & Hfailed & _).
  destruct (failures_absorbed Mock.ratio Mock.lower Mock.isbn_online
              Mock.search_mixed "Dune" (Some "frank herbert"))
    as (_ & _ & _ & _ & Hunscored & _).
  destruct (failures_absorbed Mock.ratio Mock.lower Mock.isbn_unknown
              Mock.search_other "Dune" (Some "frank herbert"))
    as (_ & _ & _ & _ & _ & _ & _ & Hbatch).
  split; [| split].
  - apply (Hfailed (initial_world None) ConnectionError (HTTPError 503)
             Timeout); reflexivity.
  - apply (Hunscored (initial_world None)).
    intros [|[|j]] _; reflexivity.
  - apply Hbatch.
    + intros n _. reflexivity.
    + intros n body. discriminate.
Defined.

(** What the handlers do not catch leaves [fetch_book_summary] and ends
    the batch: a body without [docs] raises [KeyError], an ISBN endpoint
    that always answers 429 ends in [RecursionError]; and the batch that
    meets the [KeyError] on its second row writes no cache file, though
    its first row was resolved. *)
Lemma per_book_failure_aborts_batch :
  fst (fetch_book_summary Mock.ratio Mock.lower Mock.isbn_unknown
         Mock.search_nodocs 5 "Emma" (Some "jane austen") None
         (initial_world None)) = Raise (KeyError "docs") /\
  fst (fetch_book_summary Mock.ratio Mock.lower Mock.isbn_always_limited
         Mock.search_dune 1000 "Dune" (Some "frank herbert")
         (Some "9780441172719") (initial_world None)) = Raise RecursionError /\
  fst (resolve_rows Mock.ratio Mock.lower Mock.isbn_online Mock.search_nodocs
         5 [Mock.dune; Mock.emma] [] (initial_world None)) =
  Raise (KeyError "docs") /\
  fst (process_book_summaries Mock.ratio Mock.lower Mock.isbn_online
         Mock.search_nodocs Mock.sample Mock.read_csv 5 [Mock.dune; Mock.emma] 10
         (initial_world None)) = Raise (KeyError "docs") /\
  cache_file
    (snd (process_book_summaries Mock.ratio Mock.lower Mock.isbn_online
            Mock.search_nodocs Mock.sample Mock.read_csv 5 [Mock.dune; Mock.emma] 10
            (initial_world None))) = None.
Proof. repeat split; vm_compute; reflexivity. Qed.

(** Without an author an exact title match scores 70. *)
Lemma no_author_run :
  author_score Mock.ratio Mock.lower None Mock.dune_doc = 0 /\
  combined_score Mock.ratio Mock.lower "Dune" None Mock.dune_doc =
  PrimFloat.mul 0.7%float
    (float_of_Z (title_score Mock.ratio Mock.lower "Dune" Mock.dune_doc)) /\
  PrimFloat.leb (combined_score Mock.ratio Mock.lower "Dune" None Mock.dune_doc)
                70%float = true /\
  PrimFloat.ltb (combined_score Mock.ratio Mock.lower "Dune" None Mock.dune_doc)
                75%float = true.
Proof.
  apply (proj1 (no_author_no_title_search Mock.ratio Mock.lower
                  Mock.isbn_unknown Mock.search_dune Mock.ratio_is_percentage
                  None eq_refl)).
Defined.

(** A run that resolves one row of two: the cache gets the one entry, and
    the other row stays among the remaining ones. *)
Lemma only_successes_run :
  Forall successful
    [mkEntry 1 "Dune" "frank herbert" (Some "9780441172719")
       "A desert planet..." isbn_search] /\
  In Mock.emma
     (remaining_books [Mock.dune; Mock.emma]
        (loaded_cache
           (snd (process_book_summaries Mock.ratio Mock.lower Mock.isbn_online
                   Mock.search_other Mock.sample Mock.read_csv 1 [Mock.dune; Mock.emma] 10
                   (initial_world None))))).
Proof.
  destruct (only_successes_cached Mock.ratio Mock.lower Mock.isbn_online
              Mock.search_other Mock.sample Mock.sample_draws Mock.read_csv 1
              [Mock.dune; Mock.emma] 10 (initial_world None))
    as (_ & Hnew & _ & Hrem).
  split.
  - eapply Hnew. vm_compute. reflexivity.
  - apply Hrem.
    + repeat constructor; simpl; intuition discriminate.
    + vm_compute. right. left. reflexivity.
Defined.

(** With the stand-in similarity the second author costs the match: the
    query is made for "frank herbert", the score is taken against the
    whole string. *)
Lemma multi_author_run :
  fst (search_path Mock.ratio Mock.lower Mock.search_dune "Dune"
         (Some "frank herbert, brian herbert") (initial_world None)) =
  Ok (None, not_found) /\
  fst (search_path Mock.ratio Mock.lower Mock.search_dune "Dune"
         (Some "frank herbert") (initial_world None)) =
  Ok (Some "A desert planet...", title_search).
Proof. split; vm_compute; reflexivity. Qed.

(** One pair of percentages is rounded below the threshold: 96 and 26
    weigh 75 exactly (750 tenths), and 74.99999999999999 as floats. *)
Lemma weighted_96_26 :
  7 * 96 + 3 * 26 = 750 /\
  PrimFloat.leb 75%float (weighted 96 26) = false /\
  PrimFloat.leb 75%float (weighted 75 75) = true.
Proof. repeat split. Qed.

(** Without a cache file a run that resolves nothing ends in the
    [FileNotFoundError] of line 310. *)
Lemma first_run_without_summaries :
  fst (process_book_summaries Mock.ratio Mock.lower Mock.isbn_unknown
         Mock.search_other Mock.sample Mock.read_csv 5 [Mock.dune; Mock.emma] 10
         (initial_world None)) = Raise FileNotFoundError.
Proof. vm_compute. reflexivity. Qed.

(** * Further runs *)

(** A search service that fails three times is asked between one and three
    times. *)
Lemma search_path_bounded_run :
  exists k : nat,
    (1 <= k <= RETRY_COUNT)%nat /\
    search_sent
      (snd (search_path Mock.ratio Mock.lower Mock.search_down "Dune"
              (Some "frank herbert") (initial_world None))) =
    (search_sent (initial_world None) + k)%nat.
Proof.
  destruct (search_path_bounded Mock.ratio Mock.lower Mock.search_down "Dune"
              (Some "frank herbert") (initial_world None))
    as (k & evs & Hk & Hsent & _).
  exists k. split; assumption.
Defined.

(** An empty ISBN sends nothing; an unknown one costs one request and its
    warnings. *)
Lemma isbn_lookup_edges_run :
  fetch_by_isbn Mock.isbn_unknown 0 (Some "") (initial_world None) =
  (Ok None, initial_world None) /\
  fetch_by_isbn Mock.isbn_unknown 1 (Some "9780441172719")
    (initial_world None) =
  (Ok None,
   mkWorld 1 0
     (trace (initial_world None) ++
      GetIsbn "9780441172719" ::
      isbn_warnings "9780441172719" (Mock.isbn_unknown 0))
     None).
Proof.
  destruct (isbn_lookup_edges Mock.isbn_unknown 0 (initial_world None))
    as [Habsent Hfailed].
  split.
  - apply (Habsent (Some "")). reflexivity.
  - apply (Hfailed "9780441172719"); reflexivity.
Defined.

(** Two catalog rows joined with a cache that knows neither: the catalog
    comes back row by row. *)
Lemma left_join_rows_run :
  map fst (left_join entry_book_id [Mock.dune; Mock.emma]
             [Mock.fresh_6; Mock.cached_5]) =
  [Mock.dune; Mock.emma].
Proof.
  destruct (left_join_rows entry_book_id [Mock.dune; Mock.emma]
              [Mock.fresh_6; Mock.cached_5])
    as (_ & _ & _ & H).
  apply H. repeat constructor; simpl; intuition discriminate.
Defined.

(** Two cached books, one with the summary ["N/A"], which the file gives
    back as NaN: its row is not written, and it is not among the rows
    still to resolve either. *)
Lemma saved_rows_run :
  (List.length
     (save_results
        (left_join row_book_id [Mock.dune; Mock.emma]
           (Mock.read_csv
              [mkEntry 1 "Dune" "frank herbert" (Some "9780441172719") "N/A"
                 title_search;
               mkEntry 2 "Emma" "jane austen" None "Emma Woodhouse..."
                 title_search]))) +
   List.length
     (remaining_books [Mock.dune; Mock.emma]
        [mkEntry 1 "Dune" "frank herbert" (Some "9780441172719") "N/A"
           title_search;
         mkEntry 2 "Emma" "jane austen" None "Emma Woodhouse..."
           title_search]) <=
   List.length [Mock.dune; Mock.emma])%nat /\
  ~ In (Mock.dune,
        Some (mkRow 1 (Value "Dune") (Value "frank herbert")
                (Value "9780441172719") NaN (Value "title_search")))
       (save_results
          (left_join row_book_id [Mock.dune; Mock.emma]
             (Mock.read_csv
                [mkEntry 1 "Dune" "frank herbert" (Some "9780441172719") "N/A"
                   title_search;
                 mkEntry 2 "Emma" "jane austen" None "Emma Woodhouse..."
                   title_search]))).
Proof.
  destruct (saved_rows [Mock.dune; Mock.emma]
              [mkEntry 1 "Dune" "frank herbert" (Some "9780441172719") "N/A"
                 title_search;
               mkEntry 2 "Emma" "jane austen" None "Emma Woodhouse..."
                 title_search]
              (Mock.read_csv
                 [mkEntry 1 "Dune" "frank herbert" (Some "9780441172719") "N/A"
                    title_search;
                  mkEntry 2 "Emma" "jane austen" None "Emma Woodhouse..."
                    title_search]))
    as (Hin & _ & H).
  split.
  - apply H; [reflexivity |].
    repeat constructor; simpl; intuition discriminate.
  - intros Hsaved. apply Hin in Hsaved as (r & Hr & _ & _ & _ & Hs).
    injection Hr as <-. apply Hs. reflexivity.
Defined.

(** A run over a cache of one entry appends to it. *)
Lemma cache_persists_run :
  exists added,
    loaded_cache
      (snd (process_book_summaries Mock.ratio Mock.lower Mock.isbn_online
              Mock.search_other Mock.sample Mock.read_csv 1 [Mock.dune; Mock.emma] 10
              (initial_world (Some [Mock.cached_5])))) =
    loaded_cache (initial_world (Some [Mock.cached_5])) ++ added.
Proof.
  destruct (cache_persists Mock.ratio Mock.lower Mock.isbn_online
              Mock.search_other Mock.sample Mock.read_csv 1 [Mock.dune; Mock.emma] 10
              (initial_world (Some [Mock.cached_5])))
    as (_ & H & _).
  apply H. repeat constructor; simpl; intuition discriminate.
Defined.

(** A hyphenated ISBN. *)
Lemma standardize_isbn_digits_run :
  exists d,
    standardize_isbn (Some "978-0441172719") = Some d /\
    list_ascii_of_string d =
    filter is_digit (list_ascii_of_string "978-0441172719") /\
    all_digits d /\
    (String.length d <= String.length "978-0441172719")%nat /\
    (all_digits "978-0441172719" <-> d = "978-0441172719").
Proof.
  exact (proj2 (proj2 (standardize_isbn_digits (Some "978-0441172719")))
           "978-0441172719" eq_refl).
Defined.

(** A hyphen is dropped; the zero after a decimal point is kept. *)
Lemma standardize_isbn_separators_run :
  standardize_isbn (Some ("978" ++ "-" ++ "0441172719")%string) =
  standardize_isbn (Some ("978" ++ "0441172719")%string) /\
  standardize_isbn (Some ("9780441172719" ++ ".0")%string) =
  Some ("9780441172719" ++ "0")%string.
Proof.
  split.
  - apply (proj1 (proj2 (standardize_isbn_separators "978" "0441172719" "-"))).
    reflexivity.
  - apply (proj2 (proj2 (standardize_isbn_separators "9780441172719" "" ""))).
    unfold all_digits. simpl. repeat constructor.
Defined.

(** A frame with a padded title, a mixed-case author, a hyphenated ISBN,
    a missing rating and a row without a title; and a frame in which no
    row has an author, which comes back as it was given. *)
Lemma clean_books_data_rows_run :
  clean_books_data Mock.lower
    [mkRaw 1 (Text " Dune ") (Text " Frank HERBERT") (Some "978-0441172719")
       None;
     mkRaw 2 Missing (Text "Jane Austen") None (Some 4%float)] =
  map (clean_row Mock.lower)
    (filter has_title
       [mkRaw 1 (Text " Dune ") (Text " Frank HERBERT")
          (Some "978-0441172719") None;
        mkRaw 2 Missing (Text "Jane Austen") None (Some 4%float)]) /\
  clean_books_data Mock.lower
    [mkRaw 1 (Text " Dune ") Missing (Some "978-0441172719") None;
     mkRaw 2 Missing Missing None (Some 4%float)] =
  [mkRaw 1 (Text " Dune ") Missing (Some "978-0441172719") None;
   mkRaw 2 Missing Missing None (Some 4%float)].
Proof.
  split.
  - apply (proj1 (clean_books_data_rows Mock.lower
                    [mkRaw 1 (Text " Dune ") (Text " Frank HERBERT")
                       (Some "978-0441172719") None;
                     mkRaw 2 Missing (Text "Jane Austen") None
                       (Some 4%float)])); reflexivity.
  - apply (proj1 (proj2 (clean_books_data_rows Mock.lower
                           [mkRaw 1 (Text " Dune ") Missing
                              (Some "978-0441172719") None;
                            mkRaw 2 Missing Missing None (Some 4%float)]))).
    left. reflexivity.
Defined.

(** Two candidates, the second an exact match. *)
Lemma best_match_selection_run :
  let st := score_docs Mock.ratio Mock.lower "Dune" (Some "frank herbert")
              [Mock.other_doc; Mock.dune_doc] no_match in
  (forall x, In x [Mock.other_doc; Mock.dune_doc] ->
             PrimFloat.ltb (fst st)
               (combined_score Mock.ratio Mock.lower "Dune"
                  (Some "frank herbert") x) = false) /\
  match snd st with
  | Some d =>
      fst st = combined_score Mock.ratio Mock.lower "Dune"
                 (Some "frank herbert") d /\
      PrimFloat.ltb 0%float (fst st) = true /\
      exists before after,
        [Mock.other_doc; Mock.dune_doc] = before ++ d :: after /\
        forall x, In x before ->
                  PrimFloat.ltb
                    (combined_score Mock.ratio Mock.lower "Dune"
                       (Some "frank herbert") x)
                    (combined_score Mock.ratio Mock.lower "Dune"
                       (Some "frank herbert") d) = true
  | None => fst st = 0%float
  end.
Proof.
  exact (best_match_selection Mock.ratio Mock.lower Mock.ratio_is_percentage
           "Dune" (Some "frank herbert") [Mock.other_doc; Mock.dune_doc]).
Defined.

(** A summary from the ISBN lookup. *)
Lemma summary_shape_run :
  "A desert planet..." <> "" /\
  (String.length "A desert planet..." <= 2000)%nat.
Proof.
  destruct (summary_shape Mock.ratio Mock.lower Mock.isbn_online
              Mock.search_dune 1 "Dune" (Some "frank herbert")
              (Some "9780441172719") (initial_world None)
              (mkWorld 1 0 [GetIsbn "9780441172719"] None)
              (Some "A desert planet...") isbn_search eq_refl)
    as (Hs & Hlen & _).
  split; assumption.
Defined.

(** A first run with room for one summary. *)
Lemma cache_size_capped_run :
  Z.of_nat
    (List.length
       (loaded_cache
          (snd (process_book_summaries Mock.ratio Mock.lower Mock.isbn_online
                  Mock.search_dune Mock.sample Mock.read_csv 5 [Mock.dune; Mock.emma] 1
                  (initial_world None))))) <=
  Z.max (Z.of_nat (List.length (loaded_cache (initial_world None)))) 1.
Proof.
  exact (cache_size_capped Mock.ratio Mock.lower Mock.isbn_online
           Mock.search_dune Mock.sample Mock.sample_draws Mock.read_csv 5
           [Mock.dune; Mock.emma] 1 (initial_world None)).
Defined.

(** A first run whose only row is not found ends in the
    [FileNotFoundError] of line 310, after its three search requests. *)
Lemma first_run_needs_a_summary_run :
  process_book_summaries Mock.ratio Mock.lower Mock.isbn_unknown
    Mock.search_other Mock.sample Mock.read_csv 5 [Mock.emma] 10 (initial_world None) =
  (Raise FileNotFoundError,
   mkWorld 0 3
     [Delay 1; GetSearch (mkParams "Emma" (Some "jane austen"));
      Delay 2; GetSearch (mkParams "Emma" (Some "jane austen"));
      Delay 3; GetSearch (mkParams "Emma" (Some "jane austen"));
      Warn NoNewSummary]
     None).
Proof.
  apply (proj1 (first_run_needs_a_summary Mock.ratio Mock.lower
                  Mock.isbn_unknown Mock.search_other Mock.sample
                  Mock.sample_draws Mock.read_csv 5 [Mock.emma] 10 (initial_world None))
           eq_refl eq_refl
           (mkWorld 0 3
              [Delay 1; GetSearch (mkParams "Emma" (Some "jane austen"));
               Delay 2; GetSearch (mkParams "Emma" (Some "jane austen"));
               Delay 3; GetSearch (mkParams "Emma" (Some "jane austen"))]
              None)).
  vm_compute. reflexivity.
Defined.

(** A run that returns gives every catalog row once. *)
Lemma process_returns_join_run :
  exists rows,
    fst (process_book_summaries Mock.ratio Mock.lower Mock.isbn_online
           Mock.search_other Mock.sample Mock.read_csv 1
           [Mock.dune; Mock.emma] 10 (initial_world None)) = Ok rows /\
    map fst rows = [Mock.dune; Mock.emma].
Proof.
  assert (H : fst (process_book_summaries Mock.ratio Mock.lower
                     Mock.isbn_online Mock.search_other Mock.sample
                     Mock.read_csv 1 [Mock.dune; Mock.emma] 10
                     (initial_world None)) =
              Ok (left_join row_book_id [Mock.dune; Mock.emma]
                    (Mock.read_csv
                       [mkEntry 1 "Dune" "frank herbert"
                          (Some "9780441172719") "A desert planet..."
                          isbn_search])))
    by (vm_compute; reflexivity).
  eexists. split; [exact H |].
  apply (proj2 (proj2 (process_returns_join Mock.ratio Mock.lower
                         Mock.isbn_online Mock.search_other Mock.sample
                         Mock.read_csv Mock.read_csv_ids 1
                         [Mock.dune; Mock.emma] 10 (initial_world None) _ H))).
  constructor.
Defined.

(** The row resolved by the ISBN lookup is in the cache after the run and
    no longer among the remaining rows. *)
Lemma resolved_rows_are_cached_run :
  In 1 (map entry_book_id
          (loaded_cache
             (snd (process_book_summaries Mock.ratio Mock.lower
                     Mock.isbn_online Mock.search_other Mock.sample
                     Mock.read_csv 1 [Mock.dune; Mock.emma] 10
                     (initial_world None))))) /\
  ~ In Mock.dune
      (remaining_books [Mock.dune; Mock.emma]
         (loaded_cache
            (snd (process_book_summaries Mock.ratio Mock.lower
                    Mock.isbn_online Mock.search_other Mock.sample
                    Mock.read_csv 1 [Mock.dune; Mock.emma] 10
                    (initial_world None))))).
Proof.
  assert (H : fst (process_book_summaries Mock.ratio Mock.lower
                     Mock.isbn_online Mock.search_other Mock.sample
                     Mock.read_csv 1 [Mock.dune; Mock.emma] 10
                     (initial_world None)) =
              Ok (left_join row_book_id [Mock.dune; Mock.emma]
                    (Mock.read_csv
                       [mkEntry 1 "Dune" "frank herbert"
                          (Some "9780441172719") "A desert planet..."
                          isbn_search])))
    by (vm_compute; reflexivity).
  destruct (resolved_rows_are_cached Mock.ratio Mock.lower Mock.isbn_online
              Mock.search_other Mock.sample Mock.sample_draws Mock.read_csv
              Mock.read_csv_ids 1 [Mock.dune; Mock.emma] 10
              (initial_world None) _ Mock.dune "A desert planet..."
              isbn_search H eq_refl)
    as (Hin & Hrem & _).
  - vm_compute. left. reflexivity.
  - split; assumption.
Defined.

(** The constant endpoints give a book the same answer from any state. *)
Lemma resolver_idempotent_run :
  fst (fetch_book_summary Mock.ratio Mock.lower Mock.isbn_unknown
         Mock.search_dune 1 "Dune" (Some "frank herbert")
         (Some "9780441172719") (initial_world None)) =
  fst (fetch_book_summary Mock.ratio Mock.lower Mock.isbn_unknown
         Mock.search_dune 1 "Dune" (Some "frank herbert")
         (Some "9780441172719")
         (mkWorld 7 9 [Warn NoNewSummary] (Some [Mock.cached_5]))).
Proof.
  apply (resolver_idempotent Mock.ratio Mock.lower Mock.isbn_unknown
           Mock.search_dune 1 "Dune" (Some "frank herbert")
           (Some "9780441172719")).
  - intros n m. reflexivity.
  - intros n m. reflexivity.
Defined.

(** A batch of one row against a failing service: three search requests
    at most. *)
Lemma batch_requests_bounded_run :
  Z.of_nat
    (search_sent
       (snd (process_book_summaries Mock.ratio Mock.lower Mock.isbn_unknown
               Mock.search_down Mock.sample Mock.read_csv 5 [Mock.dune; Mock.emma] 1
               (initial_world None)))) <=
  Z.of_nat (search_sent (initial_world None)) +
  3 * Z.max 0 (1 - Z.of_nat (List.length (loaded_cache (initial_world None)))).
Proof.
  exact (proj1 (batch_requests_bounded Mock.ratio Mock.lower Mock.isbn_unknown
                  Mock.search_down Mock.sample Mock.sample_draws Mock.read_csv 5
                  [Mock.dune; Mock.emma] 1 (initial_world None))).
Defined.

(** Three rows cleaned twice. *)
Lemma clean_books_data_idempotent_run :
  clean_books_data Mock.lower
    (clean_books_data Mock.lower
       [mkRaw 1 (Text " Dune ") (Text " Frank HERBERT")
          (Some "978-0441172719") None;
        mkRaw 2 Missing (Text "Jane Austen") None (Some 4%float);
        mkRaw 3 (Text "Emma") Missing (Some "nan") (Some 4%float)]) =
  clean_books_data Mock.lower
    [mkRaw 1 (Text " Dune ") (Text " Frank HERBERT") (Some "978-0441172719")
       None;
     mkRaw 2 Missing (Text "Jane Austen") None (Some 4%float);
     mkRaw 3 (Text "Emma") Missing (Some "nan") (Some 4%float)].
Proof.
  apply (clean_books_data_idempotent Mock.lower).
  - exact Mock.lower_strip.
  - reflexivity.
Defined.

(** Without the name of the most used tag the catalog comes back
    unchanged; without the name of the sixth tag only, the tags are
    added. *)
Lemma tags_fallback_run :
  add_tags_to_books shelf shelf_book_tags shelf_tags_short = Untagged shelf /\
  exists rows, add_tags_to_books shelf shelf_book_tags shelf_tags = Tagged rows.
Proof.
  split.
  - apply (proj1 (tags_fallback shelf shelf_book_tags shelf_tags_short
                    ltac:(discriminate))).
    exists 1, (mkBookTag 1 10 50, None). split; [| reflexivity].
    vm_compute. left. reflexivity.
  - apply (proj2 (tags_fallback shelf shelf_book_tags shelf_tags
                    ltac:(discriminate))).
    intros id r Hr.
    destruct (Z.eq_dec id 1) as [-> | ne].
    + vm_compute in Hr.
      destruct Hr as [<- | [<- | [<- | [<- | [<- | []]]]]]; discriminate.
    + assert (Hnil : book_tags_sorted id shelf_book_tags shelf_tags = []).
      { unfold book_tags_sorted.
        assert (Hall : forall x,
                   In x (sort_tags (merge_tags shelf_book_tags shelf_tags)) ->
                   of_book id x = false).
        { intros x Hx. vm_compute in Hx. unfold of_book.
          apply Z.eqb_neq.
          destruct Hx as [<- | [<- | [<- | [<- | [<- | [<- | []]]]]]];
            simpl; congruence. }
        induction (sort_tags (merge_tags shelf_book_tags shelf_tags))
          as [|x l IH]; [reflexivity |].
        simpl. rewrite (Hall x (or_introl eq_refl)).
        apply IH. intros y Hy. apply Hall. now right. }
      rewrite Hnil in Hr. destruct Hr.
Defined.

(** The five most used of the six tags of the first book. *)
Lemma top_five_tags_run :
  exists kept rest,
    Permutation (kept ++ rest)
      (filter (of_book 1) (merge_tags shelf_book_tags shelf_tags)) /\
    (List.length kept <= 5)%nat /\
    (rest <> [] -> List.length kept = 5%nat) /\
    StronglySorted count_ge kept /\
    (forall x y, In x kept -> In y rest -> count (fst y) <= count (fst x)) /\
    ((kept = [] /\ tags_combined shelf_dune = None) \/
     (kept <> [] /\
      exists names,
        map snd kept = map Some names /\
        tags_combined shelf_dune = Some (Str.join ", " names))).
Proof.
  apply (top_five_tags shelf shelf_book_tags shelf_tags
           [shelf_dune; shelf_emma] shelf_dune).
  - discriminate.
  - vm_compute. reflexivity.
  - left. reflexivity.
Defined.

(** The book without tags is of genre Unknown, the other of the genre of
    its most used tag. *)
Lemma main_genre_is_top_tag_run :
  main_genre shelf_emma = "Unknown" /\
  exists top name,
    In top (filter (of_book 1) (merge_tags shelf_book_tags shelf_tags)) /\
    snd top = Some name /\
    (forall y,
        In y (filter (of_book 1) (merge_tags shelf_book_tags shelf_tags)) ->
        count (fst y) <= count (fst top)) /\
    main_genre shelf_dune = Str.strip (Str.before_comma name).
Proof.
  assert (H : add_tags_to_books shelf shelf_book_tags shelf_tags =
              Tagged [shelf_dune; shelf_emma]) by (vm_compute; reflexivity).
  split.
  - apply (proj1 (main_genre_is_top_tag shelf shelf_book_tags shelf_tags
                    [shelf_dune; shelf_emma] shelf_emma
                    ltac:(discriminate) H (or_intror (or_introl eq_refl)))).
    reflexivity.
  - apply (proj2 (main_genre_is_top_tag shelf shelf_book_tags shelf_tags
                    [shelf_dune; shelf_emma] shelf_dune
                    ltac:(discriminate) H (or_introl eq_refl))).
    discriminate.
Defined.
